(** * Spectre AI service: quota ledger, scheduler, executor and
      conversation memory

    A shallow embedding of the scheduling core of the Spectre AI backend
    (spectre-ai-service-impl.ts), of the token counter (token-counter.ts),
    of the memory manager (memory-manager.ts) and of the request log of
    the chat widget, followed by the properties established about them.

    Conventions of the embedding.
    - A JavaScript string is the list of its UTF-16 code units
      ([jsstring]); [length] is therefore the JS [.length].
    - Timestamps, token counts and list lengths are integers ([Z]).  The few
      places where the source uses a floating point factor on an integer
      ([len / 3.5], [words * 1.3], [length * 0.3], [n * 0.6],
      [budget * 0.8], [budget * 0.9]) are written
      with the exact rational: the operand is an integer far below 2^53, so
      either the exact value is an integer, which the double computation
      returns exactly, or it is at least 1/10 away from every integer, which
      a relative error of 2^-53 cannot bridge; [Math.ceil], [Math.floor]
      and the comparisons with an integer agree with the exact ones.
    - [Date.now()] and [getPacificMidnight()] are read from a [Clock] handed
      to every operation; one synchronous operation sees one reading.
    - Objects used as dictionaries keyed by model are [gmap]s; the service
      object is an explicit state record threaded through the methods. *)

From Stdlib Require Import ZArith NArith QArith Lia List Bool Ascii String.
From stdpp Require Import base option list gmap.

Local Open Scope Z_scope.

(** ** JavaScript strings *)

Module JsString.

Definition jsstring := list N.

(** A string literal of the source, as code units. *)
Definition js (s : string) : jsstring :=
  map N_of_ascii (list_ascii_of_string s).

Definition jslength (s : jsstring) : Z := Z.of_nat (length s).

(** [\s] of a regular expression, and the characters [trim] strips:
    WhiteSpace and LineTerminator of ECMAScript. *)
Definition is_space (c : N) : bool :=
  ((9 <=? c) && (c <=? 13))%N || (c =? 32)%N || (c =? 160)%N ||
  (c =? 5760)%N || ((8192 <=? c) && (c <=? 8202))%N ||
  (c =? 8232)%N || (c =? 8233)%N || (c =? 8239)%N || (c =? 8287)%N ||
  (c =? 12288)%N || (c =? 65279)%N.

(** LineTerminator: what [.] of a regular expression refuses. *)
Definition is_line_terminator (c : N) : bool :=
  (c =? 10)%N || (c =? 13)%N || (c =? 8232)%N || (c =? 8233)%N.

Fixpoint skip_spaces (s : jsstring) : jsstring :=
  match s with
  | c :: r => if is_space c then skip_spaces r else s
  | [] => []
  end.

(** [String.prototype.trim]. *)
Definition trim (s : jsstring) : jsstring :=
  rev (skip_spaces (rev (skip_spaces s))).

Fixpoint starts_with (p s : jsstring) : bool :=
  match p, s with
  | [], _ => true
  | _ :: _, [] => false
  | a :: p', b :: s' => (a =? b)%N && starts_with p' s'
  end.

(** [String.prototype.includes]. *)
Fixpoint includes (p s : jsstring) : bool :=
  starts_with p s ||
  match s with
  | [] => false
  | _ :: r => includes p r
  end.

(** Canonicalisation of the [i] flag (no [u] flag): a code unit maps to
    its upper case, except that a non-ASCII unit never maps into ASCII.
    Against the ASCII patterns of this program only the ASCII letters are
    affected. *)
Definition upcase (c : N) : N :=
  if ((97 <=? c) && (c <=? 122))%N then (c - 32)%N else c.

Fixpoint starts_with_ci (p s : jsstring) : bool :=
  match p, s with
  | [], _ => true
  | _ :: _, [] => false
  | a :: p', b :: s' => (upcase a =? upcase b)%N && starts_with_ci p' s'
  end.

(** [/p/i.test(s)] for a literal pattern [p]. *)
Fixpoint includes_ci (p s : jsstring) : bool :=
  starts_with_ci p s ||
  match s with
  | [] => false
  | _ :: r => includes_ci p r
  end.

(** [/p|q|.../i.test(s)] for literal alternatives. *)
Definition any_ci (ps : list string) (s : jsstring) : bool :=
  existsb (fun p => includes_ci (js p) s) ps.

(** The remainder of [s] after a literal prefix. *)
Fixpoint strip_prefix (p s : jsstring) : option jsstring :=
  match p, s with
  | [], _ => Some s
  | _ :: _, [] => None
  | a :: p', b :: s' =>
      if (a =? b)%N then strip_prefix p' s' else None
  end.

(** The same, under the [i] flag. *)
Fixpoint strip_prefix_ci (p s : jsstring) : option jsstring :=
  match p, s with
  | [], _ => Some s
  | _ :: _, [] => None
  | a :: p', b :: s' =>
      if (upcase a =? upcase b)%N then strip_prefix_ci p' s' else None
  end.

(** [/stream/i] matched somewhere in [s] before any line terminator:
    the [.*stream] tail of [/parse.*stream/i]. *)
Fixpoint same_line_includes_ci (p s : jsstring) : bool :=
  starts_with_ci p s ||
  match s with
  | [] => false
  | c :: r => negb (is_line_terminator c) && same_line_includes_ci p r
  end.

(** [/parse.*stream/i.test(s)]. *)
Fixpoint parse_then_stream (s : jsstring) : bool :=
  match strip_prefix_ci (js "parse") s with
  | Some r => same_line_includes_ci (js "stream") r
  | None => false
  end ||
  match s with
  | [] => false
  | _ :: r => parse_then_stream r
  end.

(** Number of maximal runs of white space; [in_run] tells that the
    previous unit was white space. *)
Fixpoint space_runs (in_run : bool) (s : jsstring) : Z :=
  match s with
  | [] => 0
  | c :: r =>
      if is_space c
      then (if in_run then 0 else 1) + space_runs true r
      else space_runs false r
  end.

(** [s.split(/\s+/).length]: one piece more than there are separators
    (the empty string splits into one empty piece). *)
Definition split_spaces_length (s : jsstring) : Z := 1 + space_runs false s.

(** [Math.ceil(a / b)] for integers [a >= 0], [b > 0]. *)
Definition ceil_div (a b : Z) : Z := (a + b - 1) / b.

End JsString.

Import JsString.

(** ** Token estimation *)

(** The backend estimator of spectre-ai-service-impl.ts. *)
Module Backend.

Definition code_keywords : list string :=
  ["function"; "class"; "const"; "let"; "var"; "return"; "if"; "for";
   "while"]%string.

(** One keyword, then [\s*], then an opening parenthesis or brace, at the
    start of [s]. *)
Definition keyword_call_here (s : jsstring) : bool :=
  existsb
    (fun k =>
       match strip_prefix (js k) s with
       | Some r => match skip_spaces r with
                   | c :: _ => (c =? 40)%N || (c =? 123)%N
                   | [] => false
                   end
       | None => false
       end)
    code_keywords.

(** [/(?:function|class|...|while)\s*[\(\{]/.test(s)]. *)
Fixpoint keyword_call (s : jsstring) : bool :=
  keyword_call_here s ||
  match s with
  | [] => false
  | _ :: r => keyword_call r
  end.

(** [/^\s*[\{\[]/.test(s)]. *)
Definition opens_json (s : jsstring) : bool :=
  match skip_spaces s with
  | c :: _ => (c =? 123)%N || (c =? 91)%N
  | [] => false
  end.

(** The two code units of the literal searched by [includes]: a double
    quote followed by a colon. *)
Definition quote_colon : jsstring := [34; 58]%N.

Definition estimateTokens (text : jsstring) : Z :=
  let clean := trim text in
  match clean with
  | [] => 4
  | _ :: _ =>
      let len := jslength clean in
      let hasCodeBlock := includes (js "```") clean in
      let hasCode := hasCodeBlock || keyword_call clean in
      let hasJson :=
        opens_json clean
        || (includes quote_colon clean && includes (js "{") clean) in
      let baseTokens :=
        if hasJson then ceil_div len 3
        else if hasCode then ceil_div (2 * len) 7
        else
          let words := split_spaces_length clean in
          Z.max (ceil_div (13 * words) 10) (ceil_div (2 * len) 9) in
      let overhead := 5 in
      Z.max 4 (baseTokens + overhead)
  end.

End Backend.

(** The memory-side estimator of token-counter.ts. *)
Module TokenCounter.

Inductive ContentType := CtCode | CtJson | CtNatural | CtMixed.

Section Estimate.

(** [detectContentType] is only consulted when the caller gives no hint;
    the memory manager always gives one.  The estimate is defined over
    an arbitrary detector, so what is proved of it holds for the
    source's detector too. *)
Variable detectContentType : jsstring -> ContentType.

Definition estimate (text : jsstring) (contentType : option ContentType)
  : Z :=
  match text with
  | [] => 0
  | _ :: _ =>
      let len := jslength text in
      let ct := match contentType with
                | Some ct => ct
                | None => detectContentType text
                end in
      match ct with
      | CtJson => ceil_div len 3
      | CtCode => ceil_div (2 * len) 7
      | CtNatural => ceil_div (13 * split_spaces_length text) 10
      | CtMixed => ceil_div len 4
      end
  end.

End Estimate.

(** With a hint the detector is never called. *)
Definition estimate_as (ct : ContentType) (text : jsstring) : Z :=
  estimate (fun _ => CtMixed) text (Some ct).

Definition fastEstimate (text : jsstring) : Z :=
  Z.max 1 (ceil_div (jslength text) 4).

End TokenCounter.

(** ** The quota ledger and the request queue

    The state and the synchronous methods of [SpectreAiServiceImpl]. *)
Module Service.

(** [mapModel] lets exactly two model names through, so the dictionaries
    of the service are keyed by one of two values. *)
Inductive Model := Flash | FlashLite.

#[global] Instance Model_eq_dec : EqDecision Model.
Proof. solve_decision. Defined.

#[global] Instance Model_countable : Countable Model.
Proof.
  refine (inj_countable'
            (fun m => match m with Flash => false | FlashLite => true end)
            (fun b : bool => if b then FlashLite else Flash) _).
  intros []; reflexivity.
Defined.

Definition modelName (m : Model) : jsstring :=
  match m with
  | Flash => js "gemini-2.5-flash"
  | FlashLite => js "gemini-2.5-flash-lite"
  end.

Definition mapModel (name : jsstring) : Model :=
  if decide (name = js "gemini-2.5-flash-lite") then FlashLite else Flash.

(** [model.includes('flash-lite')]. *)
Definition isFlashLite (m : Model) : bool :=
  includes (js "flash-lite") (modelName m).

Definition TOKEN_CAPACITY_PER_MINUTE : Z := 250000.
Definition RPM_FLASH : Z := 10.
Definition RPM_FLASH_LITE : Z := 15.
Definition RPD_FLASH : Z := 250.
Definition RPD_FLASH_LITE : Z := 1000.
Definition ROLLING_WINDOW_MS : Z := 60000.
Definition MIN_SPACING_MS_FLASH : Z := 6000.
Definition MIN_SPACING_MS_FLASH_LITE : Z := 4000.

Record TokenUsage := {
  time : Z;
  tokens : Z;
  reservation : bool }.

#[global] Instance TokenUsage_eq_dec : EqDecision TokenUsage.
Proof. solve_decision. Defined.

(** What one synchronous method reads from the environment. *)
Record Clock := {
  now : Z;              (* Date.now() *)
  pacificMidnight : Z   (* getPacificMidnight() *) }.

Record PendingRequest := {
  reservationTokens : Z;
  model : Model;
  abortKey : jsstring;
  enqueuedAt : Z }.

Record ResponseMeta := {
  promptTokens : option Z;
  candidatesTokens : option Z;
  totalTokens : option Z;
  queuedMs : option Z;
  usedReservation : option Z }.

Record Response := {
  text : jsstring;
  requiresAction : bool;
  meta : option ResponseMeta }.

Record State := {
  recentCalls : gmap Model (list Z);
  dailyCalls : gmap Model (list Z);
  lastCallAt : gmap Model Z;
  tokenWindows : gmap Model (list TokenUsage);
  cachedRpmLists : gmap Model (list Z);
  cachedDailyLists : gmap Model (list Z);
  queue : list PendingRequest;
  abortControllers : gset jsstring;
  lastUsedModel : Model }.

(** The service as constructed. *)
Definition initial : State :=
  {| recentCalls := ∅; dailyCalls := ∅; lastCallAt := ∅; tokenWindows := ∅;
     cachedRpmLists := ∅; cachedDailyLists := ∅; queue := [];
     abortControllers := ∅; lastUsedModel := Flash |}.

Definition set_tokenWindows (w : gmap Model (list TokenUsage)) (s : State)
  : State :=
  {| recentCalls := recentCalls s; dailyCalls := dailyCalls s;
     lastCallAt := lastCallAt s; tokenWindows := w;
     cachedRpmLists := cachedRpmLists s;
     cachedDailyLists := cachedDailyLists s; queue := queue s;
     abortControllers := abortControllers s;
     lastUsedModel := lastUsedModel s |}.

Definition set_calls (r d : gmap Model (list Z)) (s : State) : State :=
  {| recentCalls := r; dailyCalls := d;
     lastCallAt := lastCallAt s; tokenWindows := tokenWindows s;
     cachedRpmLists := cachedRpmLists s;
     cachedDailyLists := cachedDailyLists s; queue := queue s;
     abortControllers := abortControllers s;
     lastUsedModel := lastUsedModel s |}.

Definition set_lastCallAt (l : gmap Model Z) (s : State) : State :=
  {| recentCalls := recentCalls s; dailyCalls := dailyCalls s;
     lastCallAt := l; tokenWindows := tokenWindows s;
     cachedRpmLists := cachedRpmLists s;
     cachedDailyLists := cachedDailyLists s; queue := queue s;
     abortControllers := abortControllers s;
     lastUsedModel := lastUsedModel s |}.

Definition set_queue (q : list PendingRequest) (s : State) : State :=
  {| recentCalls := recentCalls s; dailyCalls := dailyCalls s;
     lastCallAt := lastCallAt s; tokenWindows := tokenWindows s;
     cachedRpmLists := cachedRpmLists s;
     cachedDailyLists := cachedDailyLists s; queue := q;
     abortControllers := abortControllers s;
     lastUsedModel := lastUsedModel s |}.

Definition set_running (a : gset jsstring) (m : Model) (s : State) : State :=
  {| recentCalls := recentCalls s; dailyCalls := dailyCalls s;
     lastCallAt := lastCallAt s; tokenWindows := tokenWindows s;
     cachedRpmLists := cachedRpmLists s;
     cachedDailyLists := cachedDailyLists s; queue := queue s;
     abortControllers := a; lastUsedModel := m |}.

(** *** Lazy cleanup of the windows *)

Section Cleaning.

Context {A : Type}.
Variable stamp : A -> Z.
Variable cutoff : Z.

(** The entries the [filter] of the source keeps: [t >= cutoff]. *)
Definition live (l : list A) : list A :=
  filter (fun x => cutoff <= stamp x) l.

(** The loop counting the entries with [t < cutoff]. *)
Definition expiredCount (l : list A) : Z :=
  Z.of_nat (length (filter (fun x => stamp x < cutoff) l)).

(** A non-empty array is cleaned when [expiredCount > length * 0.3]. *)
Definition shouldClean (l : list A) : bool :=
  match l with
  | [] => false
  | _ :: _ => 3 * Z.of_nat (length l) <? 10 * expiredCount l
  end.

(** The array under one key after the cleaning loop; [None] when the key
    is deleted because nothing is left. *)
Definition cleanList (l : list A) : option (list A) :=
  if shouldClean l then
    match live l with
    | [] => None
    | l' => Some l'
    end
  else Some l.

Definition cleanAll (m : gmap Model (list A)) : gmap Model (list A) :=
  omap cleanList m.

Definition anyCleaned (m : gmap Model (list A)) : bool :=
  existsb (fun kv => shouldClean kv.2) (map_to_list m).

End Cleaning.

Definition cleanWindows (clk : Clock) (s : State) : State :=
  let rpmCutoff := now clk - ROLLING_WINDOW_MS in
  let midnight := pacificMidnight clk in
  let needRebuildCache :=
    anyCleaned time rpmCutoff (tokenWindows s)
    || anyCleaned id rpmCutoff (recentCalls s)
    || anyCleaned id midnight (dailyCalls s) in
  let windows := cleanAll time rpmCutoff (tokenWindows s) in
  let recent := cleanAll id rpmCutoff (recentCalls s) in
  let daily := cleanAll id midnight (dailyCalls s) in
  let rpmCache :=
    if needRebuildCache then live id rpmCutoff <$> recent
    else if decide (size (cachedRpmLists s) = 0%nat)
         then live id rpmCutoff <$> recent
         else cachedRpmLists s in
  let dailyCache :=
    if needRebuildCache then live id midnight <$> daily
    else if decide (size (cachedDailyLists s) = 0%nat)
         then live id midnight <$> daily
         else cachedDailyLists s in
  {| recentCalls := recent; dailyCalls := daily;
     lastCallAt := lastCallAt s; tokenWindows := windows;
     cachedRpmLists := rpmCache; cachedDailyLists := dailyCache;
     queue := queue s; abortControllers := abortControllers s;
     lastUsedModel := lastUsedModel s |}.

(** *** Admission *)

Definition windowTokens (w : list TokenUsage) : Z :=
  foldl (fun acc e => acc + tokens e) 0 w.

(** Sums every window of the dictionary, whatever its key. *)
Definition currentUsedTokens (s : State) : Z :=
  map_fold (fun _ w total => total + windowTokens w) 0 (tokenWindows s).

Definition rpmLimit (m : Model) : Z :=
  if isFlashLite m then RPM_FLASH_LITE else RPM_FLASH.

Definition rpdLimit (m : Model) : Z :=
  if isFlashLite m then RPD_FLASH_LITE else RPD_FLASH.

Definition minSpacing (m : Model) : Z :=
  if isFlashLite m then MIN_SPACING_MS_FLASH_LITE else MIN_SPACING_MS_FLASH.

(** The four checks of [canStartNow], on the state that [cleanWindows]
    leaves. *)
Definition rpmOk (m : Model) (s : State) : bool :=
  negb (rpmLimit m <=? Z.of_nat (length (default [] (cachedRpmLists s !! m)))).

Definition rpdOk (m : Model) (s : State) : bool :=
  negb (rpdLimit m
        <=? Z.of_nat (length (default [] (cachedDailyLists s !! m)))).

Definition tokensOk (r : Z) (s : State) : bool :=
  negb (TOKEN_CAPACITY_PER_MINUTE <? currentUsedTokens s + r).

Definition spacingOk (clk : Clock) (m : Model) (s : State) : bool :=
  negb (now clk - default 0 (lastCallAt s !! m) <? minSpacing m).

(** [canStartNow]: the answer, and the state after the cleanup it runs. *)
Definition canStartNow (clk : Clock) (m : Model) (r : Z) (s : State)
  : bool * State :=
  let s' := cleanWindows clk s in
  (rpmOk m s' && rpdOk m s' && tokensOk r s' && spacingOk clk m s', s').

(** *** Recording *)

Definition pushWindow (m : Model) (e : TokenUsage) (s : State) : State :=
  set_tokenWindows
    (<[m := default [] (tokenWindows s !! m) ++ [e]]> (tokenWindows s)) s.

Definition recordReservation (clk : Clock) (m : Model) (r : Z) (s : State)
  : State :=
  cleanWindows clk
    (pushWindow m {| time := now clk; tokens := r; reservation := true |} s).

Definition adjustReservation (clk : Clock) (m : Model)
  (actual reserved : Z) (s : State) : State :=
  let delta := actual - reserved in
  if decide (delta = 0) then s
  else
    cleanWindows clk
      (pushWindow m
         {| time := now clk; tokens := delta; reservation := false |} s).

Definition RPM_CLEANUP_THRESHOLD : Z := 100.
Definition RPD_CLEANUP_THRESHOLD : Z := 200.

Definition recordRpm (clk : Clock) (m : Model) (s : State) : State :=
  let recent := default [] (recentCalls s !! m) ++ [now clk] in
  let daily := default [] (dailyCalls s !! m) ++ [now clk] in
  let recent' :=
    if RPM_CLEANUP_THRESHOLD <? Z.of_nat (length recent)
    then live id (now clk - ROLLING_WINDOW_MS) recent else recent in
  let daily' :=
    if RPD_CLEANUP_THRESHOLD <? Z.of_nat (length daily)
    then live id (pacificMidnight clk) daily else daily in
  set_calls (<[m := recent']> (recentCalls s))
            (<[m := daily']> (dailyCalls s)) s.

(** [pushQuotaUpdate] as far as the state goes: it cleans the windows; the
    snapshot it sends to the client and the decay timer it arms are left
    out. *)
Definition pushQuotaUpdate (clk : Clock) (s : State) : State :=
  cleanWindows clk s.

(** [startRequest] up to its [await]: what happens synchronously at the
    moment a request is admitted. *)
Definition startRequest (clk : Clock) (p : PendingRequest) (s : State)
  : State :=
  let s1 := set_running ({[abortKey p]} ∪ abortControllers s) (model p) s in
  let s2 := recordReservation clk (model p) (reservationTokens p) s1 in
  let s3 := recordRpm clk (model p) s2 in
  pushQuotaUpdate clk s3.

(** [this.lastCallAt[model] = Date.now()], which [executeStandardGeneration]
    runs after [pacing], several [await]s after the admission. *)
Definition markCallStart (t : Z) (m : Model) (s : State) : State :=
  set_lastCallAt (<[m := t]> (lastCallAt s)) s.

(** [res.meta?.promptTokens || 0]. *)
Definition actualPromptTokens (res : Response) : Z :=
  default 0 (meta res ≫= promptTokens).

Definition set_usedReservation (r : Z) (res : Response) : Response :=
  {| text := text res; requiresAction := requiresAction res;
     meta :=
       (fun mt =>
          {| promptTokens := promptTokens mt;
             candidatesTokens := candidatesTokens mt;
             totalTokens := totalTokens mt; queuedMs := queuedMs mt;
             usedReservation := Some r |}) <$> meta res |}.

Definition afterResponse (clk : Clock) (m : Model) (r : Z)
  (res : Response) (s : State) : State * Response :=
  let actual := actualPromptTokens res in
  let '(s1, res1) :=
    if 0 <? actual
    then (adjustReservation clk m actual r s, set_usedReservation r res)
    else (s, res) in
  (pushQuotaUpdate clk s1, res1).

(** *** The queue *)

(** The body of the promise that [generate] returns, once the pending
    request is built: admit now or enqueue.  The second component is the
    request started by this call, if any. *)
Definition generate (clk : Clock) (p : PendingRequest) (s : State)
  : State * option PendingRequest :=
  let '(ok, s1) := canStartNow clk (model p) (reservationTokens p) s in
  if ok then (startRequest clk p s1, Some p)
  else (pushQuotaUpdate clk (set_queue (queue s1 ++ [p]) s1), None).

(** One firing of the queue timer. *)
Definition runQueueCycle (clk : Clock) (s : State)
  : State * option PendingRequest :=
  let s0 := cleanWindows clk s in
  match queue s0 with
  | [] => (s0, None)
  | next :: rest =>
      let '(ok, s1) :=
        canStartNow clk (model next) (reservationTokens next) s0 in
      if ok
      then (pushQuotaUpdate clk (startRequest clk next (set_queue rest s1)),
            Some next)
      else (s1, None)
  end.

(** What [cancel] does to the outside. *)
Inductive CancelEffect :=
| StreamCanceled (key : jsstring)      (* onStream({key, error: 'Canceled'}) *)
| Rejected (p : PendingRequest).       (* entry.reject(...) *)

(** [queue.findIndex] followed by [splice(idx, 1)]. *)
Fixpoint spliceFirst (key : jsstring) (q : list PendingRequest)
  : option (PendingRequest * list PendingRequest) :=
  match q with
  | [] => None
  | p :: rest =>
      if decide (abortKey p = key) then Some (p, rest)
      else match spliceFirst key rest with
           | Some (e, rest') => Some (e, p :: rest')
           | None => None
           end
  end.

Definition cancel (clk : Clock) (key : jsstring) (s : State)
  : State * list CancelEffect :=
  let '(s1, out1) :=
    if decide (key ∈ abortControllers s)
    then (set_running (abortControllers s ∖ {[key]}) (lastUsedModel s) s,
          [StreamCanceled key])
    else (s, []) in
  match spliceFirst key (queue s1) with
  | Some (entry, rest) =>
      (pushQuotaUpdate clk (set_queue rest s1), out1 ++ [Rejected entry])
  | None => (s1, out1)
  end.

End Service.

(** ** The generation executor

    [classifyError], the [catch] block of [executeStandardGeneration],
    [streamingCallImpl] and the retry loop, for one admitted request.  What
    the upstream API and the outside do during one attempt is given by a
    script; the executor answers with the stream events it hands to the
    client and with the way the promise settles. *)
Module Executor.

Import Service.

(** *** Classification of failures *)

Inductive StatusValue :=
| NumStatus (n : Z)
| StrStatus (s : jsstring).

(** A thrown [Error]. *)
Record JsError := {
  err_name : jsstring;
  err_message : jsstring;
  err_status : option StatusValue;
  err_code : option StatusValue;
  err_statusCode : option StatusValue }.

Definition truthy (v : option StatusValue) : bool :=
  match v with
  | Some (NumStatus n) => negb (n =? 0)
  | Some (StrStatus s) => match s with [] => false | _ => true end
  | None => false
  end.

(** [err.status || err.code || err.statusCode]. *)
Definition statusOf (e : JsError) : option StatusValue :=
  if truthy (err_status e) then err_status e
  else if truthy (err_code e) then err_code e
  else err_statusCode e.

(** [status === n]. *)
Definition statusIs (n : Z) (e : JsError) : bool :=
  match statusOf e with
  | Some (NumStatus k) => k =? n
  | _ => false
  end.

Inductive Category := auth | rate | quota | canceled | other.

Record Classified := {
  retryable : bool;
  category : Category;
  message : jsstring }.

(** The tests of [classifyError], in the order it tries them. *)
Definition isAbort (e : JsError) : bool :=
  includes_ci (js "abort") (err_message e).

Definition isAuth (e : JsError) : bool :=
  statusIs 401 e
  || any_ci ["UNAUTHENTICATED"; "permission"; "unauthorized"; "API key"]%string
       (err_message e).

Definition isQuota (e : JsError) : bool :=
  includes_ci (js "quota") (err_message e)
  && any_ci ["exceed"; "exhaust"]%string (err_message e).

Definition isRate (e : JsError) : bool :=
  statusIs 429 e
  || any_ci ["rate"; "RESOURCE_EXHAUSTED"]%string (err_message e).

Definition isOverloaded (e : JsError) : bool :=
  any_ci ["overloaded"; "503"; "Service Unavailable"]%string (err_message e).

Definition isStreamParse (e : JsError) : bool :=
  includes_ci (js "Failed to parse stream") (err_message e)
  || parse_then_stream (err_message e).

Definition isFetch (e : JsError) : bool :=
  includes_ci (js "Error fetching") (err_message e).

Definition is5xx (e : JsError) : bool :=
  match statusOf e with
  | Some (NumStatus n) => negb (n =? 0) && (500 <=? n) && (n <? 600)
  | _ => false
  end.

Definition classifyError (e : JsError) : Classified :=
  let message := err_message e in
  if isAbort e then
    {| retryable := false; category := canceled; message := message |}
  else if isAuth e then
    {| retryable := false; category := auth; message := message |}
  else if isQuota e then
    {| retryable := false; category := quota; message := message |}
  else if isRate e then
    {| retryable := true; category := rate; message := message |}
  else if isOverloaded e then
    {| retryable := true; category := other;
       message := js "Gemini API overloaded - retrying..." |}
  else if isStreamParse e then
    {| retryable := true; category := other;
       message := js "Network stream error - retrying..." |}
  else if isFetch e then
    {| retryable := true; category := other;
       message := js "Network connection error - retrying..." |}
  else if is5xx e then
    {| retryable := true; category := other; message := message |}
  else
    {| retryable := false; category := other; message := message |}.

(** The classes of the retry policy, by the tests above: the failures that
    are never retried, and those that are when none of the former applies. *)
Definition fatalClass (e : JsError) : bool :=
  isAbort e || isAuth e || isQuota e.

Definition retryClass (e : JsError) : bool :=
  isRate e || isOverloaded e || isStreamParse e || isFetch e || is5xx e.

(** *** The catch block of the retry loop *)

Definition NETWORK_RETRY_BASE_DELAY : Z := 1000.
Definition SERVICE_OVERLOAD_BASE_DELAY : Z := 3000.
Definition maxRetries : Z := 4.

(** [err?.message || String(err)]. *)
Definition errorText (e : JsError) : jsstring :=
  match err_message e with
  | [] => err_name e
  | m => m
  end.

(** [/Unknown name "thinkingConfig"/i]. *)
Definition rejectsThinking (msg : jsstring) : bool :=
  includes_ci (js "Unknown name " ++ [34%N] ++ js "thinkingConfig" ++ [34%N])
    msg.

(** [/Unknown|google_search|googleSearch|tool/i]. *)
Definition rejectsSearch (msg : jsstring) : bool :=
  any_ci ["Unknown"; "google_search"; "googleSearch"; "tool"]%string msg.

(** [/overloaded|503|Failed to parse stream|Error fetching/i], applied to
    the message that [classifyError] returns. *)
Definition isServiceIssue (message : jsstring) : bool :=
  any_ci ["overloaded"; "503"; "Failed to parse stream"; "Error fetching"]%string
    message.

Definition baseDelay (message : jsstring) : Z :=
  if isServiceIssue message then SERVICE_OVERLOAD_BASE_DELAY
  else NETWORK_RETRY_BASE_DELAY.


(** What the catch block decides. *)
Inductive Action :=
| ThrowCanceled                    (* 'Generation canceled.' *)
| RetryWithoutThinking             (* continue, thinkingConfig dropped *)
| RetryWithoutSearch               (* continue, tools dropped *)
| ThrowAuth                        (* 'Gemini authentication failed...' *)
| ThrowQuota                       (* 'Remote quota exhausted.' *)
| Backoff (serviceIssue : bool) (delayMs : Z)   (* notice, delay, attempt++ *)
| ThrowFailed (message : jsstring). (* 'Gemini request failed: ' + message *)

Definition onFailure (aborted : bool) (e : JsError) (attempt : Z)
  (triedNoThinking triedNoGoogleSearch : bool) : Action :=
  if aborted then ThrowCanceled
  else
    let msg := errorText e in
    if negb triedNoThinking && rejectsThinking msg then RetryWithoutThinking
    else if negb triedNoGoogleSearch && rejectsSearch msg
    then RetryWithoutSearch
    else
      let c := classifyError e in
      match category c with
      | auth => ThrowAuth
      | quota => ThrowQuota
      | _ =>
          if retryable c && (attempt <? maxRetries)
          then Backoff (isServiceIssue (message c))
                       (baseDelay (message c) * 2 ^ attempt)
          else ThrowFailed (message c)
      end.

Definition isBackoff (a : Action) : bool :=
  match a with
  | Backoff _ _ => true
  | _ => false
  end.

(** *** Stream events *)

Inductive DeltaPayload :=
| StreamText (t : jsstring)          (* a piece of the answer *)
| PacingNotice (waitMs : Z)          (* `Pacing ...s...` *)
| RetryNotice (serviceIssue : bool) (backoffMs : Z).

Inductive StreamEvent :=
| Delta (key : jsstring) (d : DeltaPayload)   (* {key, delta} *)
| Done (key : jsstring)                       (* {key, done: true} *)
| Error (key : jsstring) (msg : jsstring).    (* {key, error} *)

Definition isTerminal (e : StreamEvent) : bool :=
  match e with
  | Delta _ _ => false
  | Done _ | Error _ _ => true
  end.

Record Part := {
  functionCall : option jsstring;   (* name of the call, when present *)
  partText : jsstring }.            (* part.text, empty when absent *)

Record Usage := {
  promptTokenCount : option Z;
  candidatesTokenCount : option Z;
  totalTokenCount : option Z }.

Record Chunk := {
  parts : list Part;       (* chunk.candidates?.[0]?.content?.parts || [] *)
  chunkText : jsstring;    (* chunk.text || '' *)
  usageMetadata : option Usage }.

(** Who aborted the controller: [cancel(key)], which also tells the
    client, or one of the two timers, which tell nobody. *)
Inductive AbortCause := UserCancel | Timer.

(** The abort controller of the request: its signal, and whether
    [abortControllers] still holds it ([cancel] removes it). *)
Record Controller := {
  signalAborted : bool;
  registered : bool }.

Definition freshController : Controller :=
  {| signalAborted := false; registered := true |}.

(** An abort, as the stream observer and the controller see it: [cancel]
    acts only on a registered controller and reports to the client. *)
Definition abortBy (key : jsstring) (c : AbortCause) (ctl : Controller)
  : list StreamEvent * Controller :=
  match c with
  | UserCancel =>
      if registered ctl
      then ([Error key (js "Canceled")],
            {| signalAborted := true; registered := false |})
      else ([], ctl)
  | Timer => ([], {| signalAborted := true; registered := registered ctl |})
  end.

(** One attempt, as the outside plays it. *)
Record Attempt := {
  t_pace : Z;                    (* Date.now() in pacing *)
  t_call : Z;                    (* Date.now() once pacing is over *)
  chunks : list Chunk;           (* what the stream yields *)
  ending : option JsError;       (* the stream throws after them *)
  abortAt : option (nat * AbortCause);
                                 (* abort before the n-th chunk is handled *)
  t_after : Clock;               (* the clock of afterResponse *)
  abortInBackoff : option AbortCause }.
                                 (* abort while the backoff delay runs *)

Definition hasFunctionCall (ps : list Part) : bool :=
  existsb (fun p => match functionCall p with Some _ => true | None => false end)
    ps.

Definition nonEmpty (t : jsstring) : bool :=
  match t with [] => false | _ => true end.

(** The body of the [for await] loop for one chunk: the events sent, the
    text accumulated and the function-call flag. *)
Definition onChunk (key : jsstring) (c : Chunk) (full : jsstring)
  (hasCalls : bool) : list StreamEvent * jsstring * bool :=
  let hasCalls' := hasCalls || hasFunctionCall (parts c) in
  if negb hasCalls' then
    if nonEmpty (chunkText c)
    then ([Delta key (StreamText (chunkText c))], full ++ chunkText c,
          hasCalls')
    else ([], full, hasCalls')
  else
    let texts := filter (fun t => nonEmpty t = true) (partText <$> parts c) in
    ((fun t => Delta key (StreamText t)) <$> texts, full ++ concat texts,
     hasCalls').

(** How the loop over the stream ends. *)
Inductive LoopEnd :=
| Exhausted      (* the stream is over *)
| Broke          (* controller.signal.aborted at the top of an iteration *)
| Threw (e : JsError).

Record LoopResult := {
  loop_events : list StreamEvent;
  loop_full : jsstring;
  loop_hasCalls : bool;
  loop_last : option Chunk;
  loop_end : LoopEnd;
  loop_ctl : Controller }.

(** The [for await] loop from chunk number [i] on. *)
Fixpoint streamLoop (key : jsstring) (a : Attempt) (cs : list Chunk)
  (i : nat) (ctl : Controller) (full : jsstring) (hasCalls : bool)
  (last : option Chunk) : LoopResult :=
  let '(abortEv, ctl') :=
    match abortAt a with
    | Some (n, cause) =>
        if decide (n = i) then abortBy key cause ctl else ([], ctl)
    | None => ([], ctl)
    end in
  match cs with
  | [] =>
      {| loop_events := abortEv; loop_full := full;
         loop_hasCalls := hasCalls; loop_last := last;
         loop_end := match ending a with
                     | Some e => Threw e
                     | None => Exhausted
                     end;
         loop_ctl := ctl' |}
  | c :: rest =>
      if signalAborted ctl' then
        {| loop_events := abortEv; loop_full := full;
           loop_hasCalls := hasCalls; loop_last := last;
           loop_end := Broke; loop_ctl := ctl' |}
      else
        let '(ev, full', hasCalls') := onChunk key c full hasCalls in
        let r := streamLoop key a rest (S i) ctl' full' hasCalls'
                   (Some c) in
        {| loop_events := abortEv ++ ev ++ loop_events r;
           loop_full := loop_full r; loop_hasCalls := loop_hasCalls r;
           loop_last := loop_last r; loop_end := loop_end r;
           loop_ctl := loop_ctl r |}
  end.

Definition plainError (msg : string) : JsError :=
  {| err_name := js "Error"; err_message := js msg; err_status := None;
     err_code := None; err_statusCode := None |}.

Definition responseOf (full : jsstring) (last : option Chunk) : Response :=
  let usage := last ≫= usageMetadata in
  {| text := full;
     requiresAction :=
       match last with
       | Some c => hasFunctionCall (parts c)
       | None => false
       end;
     meta := Some {| promptTokens := usage ≫= promptTokenCount;
                     candidatesTokens := usage ≫= candidatesTokenCount;
                     totalTokens := usage ≫= totalTokenCount;
                     queuedMs := None;
                     usedReservation := None |} |}.

(** [streamingCallImpl] raced against the request timeout: the events, the
    response or the error, and the controller when the call settles. *)
Definition streamingCall (key : jsstring) (a : Attempt) (ctl : Controller)
  : list StreamEvent * (Response + JsError) * Controller :=
  let r := streamLoop key a (chunks a) 0 ctl [] false None in
  match loop_end r with
  | Threw e => (loop_events r, inr e, loop_ctl r)
  | Broke => (loop_events r, inr (plainError "canceled"), loop_ctl r)
  | Exhausted =>
      if signalAborted (loop_ctl r)
      then (loop_events r, inr (plainError "canceled"), loop_ctl r)
      else if negb (nonEmpty (loop_full r)) && negb (loop_hasCalls r)
      then (loop_events r, inr (plainError "Gemini API returned no content."),
            loop_ctl r)
      else (loop_events r ++ [Done key],
            inl (responseOf (loop_full r) (loop_last r)), loop_ctl r)
  end.

(** [pacing]: the notice sent when the previous call of the model is less
    than the minimum spacing away. *)
Definition pacing (key : jsstring) (m : Model) (t : Z) (s : State)
  : list StreamEvent :=
  let since := t - default 0 (lastCallAt s !! m) in
  if since <? minSpacing m
  then [Delta key (PacingNotice (minSpacing m - since))]
  else [].

(** How the promise of the request settles. *)
Inductive Outcome :=
| Resolved (res : Response)
| Failed (msg : jsstring)
| ScriptExhausted.     (* the script gave fewer attempts than the loop used *)

Record Run := {
  run_events : list StreamEvent;
  run_outcome : Outcome;
  run_state : State }.

Definition andThen (ev : list StreamEvent) (r : Run) : Run :=
  {| run_events := ev ++ run_events r; run_outcome := run_outcome r;
     run_state := run_state r |}.

(** The [while (true)] loop of [executeStandardGeneration]. *)
Fixpoint retryLoop (key : jsstring) (m : Model) (reservation : Z)
  (script : list Attempt) (attempt : Z)
  (triedNoThinking triedNoGoogleSearch : bool) (ctl : Controller)
  (s : State) : Run :=
  match script with
  | [] => {| run_events := []; run_outcome := ScriptExhausted;
             run_state := s |}
  | a :: rest =>
      let paceEv := pacing key m (t_pace a) s in
      let s1 := markCallStart (t_call a) m s in
      let '(ev, result, ctl') := streamingCall key a ctl in
      let stop msg :=
        {| run_events := paceEv ++ ev; run_outcome := Failed msg;
           run_state := s1 |} in
      match result with
      | inl res =>
          let '(s2, res') := afterResponse (t_after a) m reservation res s1 in
          {| run_events := paceEv ++ ev; run_outcome := Resolved res';
             run_state := s2 |}
      | inr e =>
          match onFailure (signalAborted ctl') e attempt triedNoThinking
                  triedNoGoogleSearch with
          | ThrowCanceled => stop (js "Generation canceled.")
          | RetryWithoutThinking =>
              andThen (paceEv ++ ev)
                (retryLoop key m reservation rest attempt true
                   triedNoGoogleSearch ctl' s1)
          | RetryWithoutSearch =>
              andThen (paceEv ++ ev)
                (retryLoop key m reservation rest attempt triedNoThinking
                   true ctl' s1)
          | ThrowAuth => stop (js "Gemini authentication failed. Check API key.")
          | ThrowQuota => stop (js "Remote quota exhausted.")
          | Backoff svc d =>
              let notice := [Delta key (RetryNotice svc d)] in
              let '(abortEv, ctl'') :=
                match abortInBackoff a with
                | Some cause => abortBy key cause ctl'
                | None => ([], ctl')
                end in
              andThen (paceEv ++ ev ++ notice ++ abortEv)
                (retryLoop key m reservation rest (attempt + 1)
                   triedNoThinking triedNoGoogleSearch ctl'' s1)
          | ThrowFailed msg => stop (js "Gemini request failed: " ++ msg)
          end
      end
  end.

Definition executeStandardGeneration (key : jsstring) (m : Model)
  (reservation : Z) (script : list Attempt) (s : State) : Run :=
  retryLoop key m reservation script 0 false false freshController s.

(** No [cancel(key)] arrives during the attempt. *)
Definition noUserCancel (a : Attempt) : Prop :=
  (forall n, abortAt a <> Some (n, UserCancel))
  /\ abortInBackoff a <> Some UserCancel.

Definition isDelta (e : StreamEvent) : Prop := isTerminal e = false.

End Executor.

(** ** The conversation memory manager (memory-manager.ts)

    The types of memory-types.ts are read off their uses.  An [async]
    method runs to completion here, as it does when no other call touches
    the memory while it awaits: the auxiliary model call is a function
    from the request to its reply, and every method returns, next to the
    memory, the auxiliary requests it issued.  Calls that overlap are the
    matter of the module [Tasks] below, which cuts a call at its awaits. *)
Module Memory.

Import TokenCounter.

Inductive Role := user | assistant.

(** The identifiers built from [Date.now()] (and [Math.random()]). *)
Inductive Ident :=
| MsgId (t : Z) (rnd : jsstring)     (* `msg-${t}-${rnd}` *)
| SummaryId (t : Z)                  (* `summary-${t}` *)
| CompressedId (t : Z).              (* `compressed-${t}` *)

Inductive SummaryCategory :=
| code_change | configuration | debugging | learning | general.

Record RawMessage := {
  msg_id : Ident;
  msg_role : Role;
  msg_text : jsstring;
  msg_timestamp : Z;
  msg_estimatedTokens : option Z }.

Record SummaryEntry := {
  sum_id : Ident;
  summary : jsstring;
  originalMessageIds : list Ident;
  createdAt : Z;
  category : SummaryCategory;
  sum_estimatedTokens : option Z }.

Record MemoryBank := {
  summaries : list SummaryEntry;
  totalTokens : Z;
  version : Z;
  lastCompressedAt : option Z }.

(** [compressionTrigger.threshold] is a fraction, kept as
    [thresholdNum / thresholdDen]. *)
Record MemoryConfig := {
  maxRecentMessages : Z;
  memoryBankTokenCap : Z;
  minMessages : Z;        (* summarizationTrigger.minMessages *)
  maxTokens : Z;          (* summarizationTrigger.maxTokens *)
  thresholdNum : Z;
  thresholdDen : Z }.

(** The default configuration.  memory-types.ts is not among the sources;
    the values are those that the documentation of the repository lists
    for [DEFAULT_MEMORY_CONFIG]. *)
Definition DEFAULT_MEMORY_CONFIG : MemoryConfig :=
  {| maxRecentMessages := 40; memoryBankTokenCap := 100000;
     minMessages := 30; maxTokens := 25000;
     thresholdNum := 9; thresholdDen := 10 |}.

Record MemoryStats := {
  totalInteractions : Z;
  summarizationsPerformed : Z;
  lastSummarizedAt : option Z }.

Record ConversationMemory := {
  sessionId : jsstring;
  recentMessages : list RawMessage;
  memoryBank : MemoryBank;
  config : MemoryConfig;
  stats : MemoryStats }.

Definition createConversation (sessionId : jsstring) (cfg : MemoryConfig)
  : ConversationMemory :=
  {| sessionId := sessionId; recentMessages := [];
     memoryBank := {| summaries := []; totalTokens := 0; version := 1;
                      lastCompressedAt := None |};
     config := cfg;
     stats := {| totalInteractions := 0; summarizationsPerformed := 0;
                 lastSummarizedAt := None |} |}.

(** [Array.prototype.slice]: a negative index counts from the end, and
    both ends are clamped to the array. *)
Definition clampIndex (len i : Z) : Z :=
  if i <? 0 then Z.max (len + i) 0 else Z.min i len.

Definition slice {A} (l : list A) (start : Z) (finish : option Z) : list A :=
  let len := Z.of_nat (length l) in
  let k := clampIndex len start in
  let final := match finish with
               | Some e => clampIndex len e
               | None => len
               end in
  take (Z.to_nat (final - k)) (drop (Z.to_nat k) l).

(** The two auxiliary requests: the prompt is a fixed template around the
    rendered messages, respectively around the texts of the summaries. *)
Inductive AiRequest :=
| SummarizeRequest (messages : list RawMessage)
    (* gemini-2.5-flash-lite, maxOutputTokens 2048, temperature 0.2 *)
| CompressRequest (blocks : list jsstring).
    (* gemini-2.5-flash, maxOutputTokens 4096, temperature 0.1 *)

Inductive AiReply :=
| Rejects                      (* the promise rejects *)
| Replies (text : jsstring).   (* response.text, empty when absent *)

Section Manager.

(** The auxiliary model, and [categorizeSummary], which only decides the
    [category] field of a first-level summary. *)
Variable ai : AiRequest -> AiReply.
Variable categorizeSummary : jsstring -> SummaryCategory.

(** [response.text && response.text.trim() !== ''], with the trimmed text. *)
Definition usableText (r : AiReply) : option jsstring :=
  match r with
  | Rejects => None
  | Replies t =>
      match trim t with
      | [] => None
      | t' => Some t'
      end
  end.

Definition newMessage (t : Z) (rnd : jsstring) (r : Role) (txt : jsstring)
  : RawMessage :=
  {| msg_id := MsgId t rnd; msg_role := r; msg_text := txt;
     msg_timestamp := t;
     msg_estimatedTokens :=
       Some (estimate_as (match r with
                          | user => CtMixed
                          | assistant => CtNatural
                          end) txt) |}.

Definition generateSummary (t : Z) (messages : list RawMessage)
  : option SummaryEntry * list AiRequest :=
  match messages with
  | [] => (None, [])
  | _ :: _ =>
      let req := SummarizeRequest messages in
      let reply := ai req in
      (match usableText reply with
       | Some txt =>
           Some {| sum_id := SummaryId t; summary := txt;
                   originalMessageIds := msg_id <$> messages;
                   createdAt := t;
                   category :=
                     categorizeSummary
                       (match reply with Replies raw => raw | Rejects => [] end);
                   sum_estimatedTokens := Some (estimate_as CtNatural txt) |}
       | None => None
       end, [req])
  end.

Definition set_bank (b : MemoryBank) (m : ConversationMemory)
  : ConversationMemory :=
  {| sessionId := sessionId m; recentMessages := recentMessages m;
     memoryBank := b; config := config m; stats := stats m |}.

Definition compressMemoryBank (t : Z) (m : ConversationMemory)
  : ConversationMemory * list AiRequest :=
  let bank := memoryBank m in
  if Z.of_nat (length (summaries bank)) <? 3 then (m, [])
  else
    match last (summaries bank) with
    | None => (m, [])
    | Some recentSummary =>
        let oldSummaries := slice (summaries bank) 0 (Some (-1)) in
        let req := CompressRequest (summary <$> oldSummaries) in
        match usableText (ai req) with
        | Some txt =>
            let compressedSummary :=
              {| sum_id := CompressedId t; summary := txt;
                 originalMessageIds :=
                   concat (originalMessageIds <$> oldSummaries);
                 createdAt := t; category := general;
                 sum_estimatedTokens := Some (estimate_as CtNatural txt) |} in
            (set_bank
               {| summaries := [compressedSummary; recentSummary];
                  totalTokens :=
                    default 0 (sum_estimatedTokens compressedSummary)
                    + default 0 (sum_estimatedTokens recentSummary);
                  version := version bank;
                  lastCompressedAt := Some t |} m,
             [req])
        | None => (m, [req])
        end
    end.

(** [totalTokens > memoryBankTokenCap * threshold]. *)
Definition checkAndCompressMemoryBank (t : Z) (m : ConversationMemory)
  : ConversationMemory * list AiRequest :=
  let cfg := config m in
  if memoryBankTokenCap cfg * thresholdNum cfg
     <? totalTokens (memoryBank m) * thresholdDen cfg
  then compressMemoryBank t m
  else (m, []).

Definition summarizeOldMessages (t_sum t_comp : Z) (m : ConversationMemory)
  : ConversationMemory * list AiRequest :=
  let recent := recentMessages m in
  let len := Z.of_nat (length recent) in
  let keepCount := (3 * maxRecentMessages (config m)) / 5 in
  let toSummarize := slice recent 0 (Some (len - keepCount)) in
  match toSummarize with
  | [] => (m, [])
  | _ :: _ =>
      match generateSummary t_sum toSummarize with
      | (Some s, reqs) =>
          let bank := memoryBank m in
          let m1 :=
            {| sessionId := sessionId m;
               recentMessages := slice recent (len - keepCount) None;
               memoryBank :=
                 {| summaries := summaries bank ++ [s];
                    totalTokens :=
                      totalTokens bank + default 0 (sum_estimatedTokens s);
                    version := version bank;
                    lastCompressedAt := lastCompressedAt bank |};
               config := config m;
               stats :=
                 {| totalInteractions := totalInteractions (stats m);
                    summarizationsPerformed :=
                      summarizationsPerformed (stats m) + 1;
                    lastSummarizedAt := Some t_sum |} |} in
          let '(m2, reqs') := checkAndCompressMemoryBank t_comp m1 in
          (m2, reqs ++ reqs')
      | (None, reqs) => (m, reqs)
      end
  end.

Definition recentTokens (l : list RawMessage) : Z :=
  foldl (fun sum msg => sum + default 0 (msg_estimatedTokens msg)) 0 l.

(** The decision of [checkAndSummarize]. *)
Definition summarizationDue (m : ConversationMemory) : bool :=
  let len := Z.of_nat (length (recentMessages m)) in
  if len <? minMessages (config m) then false
  else
    (maxRecentMessages (config m) <? len)
    || (maxTokens (config m) <? recentTokens (recentMessages m)).

Definition checkAndSummarize (t_sum t_comp : Z) (m : ConversationMemory)
  : ConversationMemory * list AiRequest :=
  if summarizationDue m then summarizeOldMessages t_sum t_comp m
  else (m, []).

(** [addMessage] before its [await]: the push and the counter. *)
Definition pushMessage (t : Z) (rnd : jsstring) (r : Role) (txt : jsstring)
  (m : ConversationMemory) : ConversationMemory :=
  {| sessionId := sessionId m;
     recentMessages := recentMessages m ++ [newMessage t rnd r txt];
     memoryBank := memoryBank m; config := config m;
     stats :=
       {| totalInteractions := totalInteractions (stats m) + 1;
          summarizationsPerformed := summarizationsPerformed (stats m);
          lastSummarizedAt := lastSummarizedAt (stats m) |} |}.

Definition addMessage (t : Z) (rnd : jsstring) (t_sum t_comp : Z)
  (r : Role) (txt : jsstring) (m : ConversationMemory)
  : ConversationMemory * list AiRequest :=
  checkAndSummarize t_sum t_comp (pushMessage t rnd r txt m).

End Manager.

End Memory.

(** ** Runs of the scheduler

    The event loop calls the synchronous methods one after the other; a run
    is the list of these calls. *)
Module Scheduler.

Import Service.

Inductive Call :=
| Submit (clk : Clock) (p : PendingRequest)   (* generate *)
| Tick (clk : Clock)                          (* runQueueCycle *)
| Cancel (clk : Clock) (key : jsstring)       (* cancel *)
| CallStarts (t : Z) (m : Model).             (* lastCallAt[m] = t *)

Definition isCancel (c : Call) : bool :=
  match c with
  | Cancel _ _ => true
  | _ => false
  end.

(** What a run did with the requests, each list in the order of time. *)
Record Log := {
  direct : list PendingRequest;     (* started by generate itself *)
  enqueued : list PendingRequest;   (* pushed on the queue by generate *)
  dequeued : list PendingRequest }. (* started by a queue cycle *)

Definition noLog : Log := {| direct := []; enqueued := []; dequeued := [] |}.

Definition step (c : Call) (sl : State * Log) : State * Log :=
  let '(s, l) := sl in
  match c with
  | Submit clk p =>
      match generate clk p s with
      | (s', Some _) =>
          (s', {| direct := direct l ++ [p]; enqueued := enqueued l;
                  dequeued := dequeued l |})
      | (s', None) =>
          (s', {| direct := direct l; enqueued := enqueued l ++ [p];
                  dequeued := dequeued l |})
      end
  | Tick clk =>
      match runQueueCycle clk s with
      | (s', Some p) =>
          (s', {| direct := direct l; enqueued := enqueued l;
                  dequeued := dequeued l ++ [p] |})
      | (s', None) => (s', l)
      end
  | Cancel clk key => ((cancel clk key s).1, l)
  | CallStarts t m => (markCallStart t m s, l)
  end.

Definition run (cs : list Call) (s : State) : State * Log :=
  foldl (fun sl c => step c sl) (s, noLog) cs.

(** The queue discipline, as an invariant of the runs started with the
    queue [q0]: what the cycles took off the queue, followed by what is
    still on it, is [q0] followed by what was put on it; with
    cancellations, it is what is left of that list. *)
Definition inOrder (q0 : list PendingRequest) (sl : State * Log) : Prop :=
  dequeued sl.2 ++ queue sl.1 = q0 ++ enqueued sl.2.

Definition orderKept (q0 : list PendingRequest) (sl : State * Log) : Prop :=
  dequeued sl.2 ++ queue sl.1 `sublist_of` q0 ++ enqueued sl.2.

End Scheduler.

(** ** Concrete situations used below *)
Module Scenario.

Import Service Scheduler Executor.

(** One afternoon: the clock reads [T0 + d], Pacific midnight was ten
    hours before [T0]. *)
Definition T0 : Z := 1700000000000.

Definition at_ (d : Z) : Clock :=
  {| now := T0 + d; pacificMidnight := T0 - 36000000 |}.

Definition request (m : Model) (key : string) (r d : Z) : PendingRequest :=
  {| reservationTokens := r; model := m; abortKey := js key;
     enqueuedAt := T0 + d |}.

(** The [i]-th flash-lite request, reserving 1,000 tokens, under a key of
    its own. *)
Definition liteRequest (i d : Z) : PendingRequest :=
  {| reservationTokens := 1000; model := FlashLite;
     abortKey := js "lite-" ++ [Z.to_N (65 + i)]; enqueuedAt := T0 + d |}.

(** Three flash-lite requests arrive together, before the call of any of
    them has gone out; [pacing] lets the first call go at once and the two
    others 4,000 ms later.  Twelve more requests follow, each submitted
    4,000 ms after the last call went out, its own call going out 1 ms
    after its admission.  The sixteenth arrives 56.013 s after the first. *)
Definition burstOfThree : list Call :=
  [Submit (at_ 0) (liteRequest 0 0);
   Submit (at_ 0) (liteRequest 1 0);
   Submit (at_ 0) (liteRequest 2 0);
   CallStarts (T0 + 1) FlashLite;
   CallStarts (T0 + 4001) FlashLite;
   CallStarts (T0 + 4001) FlashLite].

Definition pacedLite (i : Z) : list Call :=
  [Submit (at_ (8001 + 4001 * i)) (liteRequest (i + 3) (8001 + 4001 * i));
   CallStarts (T0 + 8001 + 4001 * i + 1) FlashLite].

Definition fifteenLite : list Call :=
  burstOfThree ++ concat (pacedLite <$> seqZ 0 12).

Definition sixteenth : Call :=
  Submit (at_ 56013) (liteRequest 15 56013).

(** Flash-lite requests arriving in the same millisecond, before the call
    of any of them has gone out. *)
Definition burstLite (n : nat) : list Call :=
  (fun i => Submit (at_ 0) (liteRequest i 0)) <$> seqZ 0 (Z.of_nat n).

(** A flash request reserving the whole capacity has been admitted; a
    flash-lite request is submitted seven seconds later. *)
Definition flashFull : State :=
  (run [Submit (at_ 0) (request Flash "big" 250000 0);
        CallStarts (T0 + 1) Flash] initial).1.

(** Flash holds 200,000 tokens; [A] needs 100,000 and [B] needs 1,000. *)
Definition flashBusy : State :=
  (run [Submit (at_ 0) (request Flash "first" 200000 0);
        CallStarts (T0 + 1) Flash] initial).1.

Definition reqA : PendingRequest := request Flash "A" 100000 7000.
Definition reqB : PendingRequest := request Flash "B" 1000 7001.

(** The service once the request under key [k] has been admitted. *)
Definition inFlight : State :=
  (generate (at_ 0) (request Flash "k" 1000 0) initial).1.

(** An upstream failure with an HTTP status. *)
Definition upstreamError (msg : string) (status : Z) : JsError :=
  {| err_name := js "ApiError"; err_message := js msg;
     err_status := Some (NumStatus status); err_code := None;
     err_statusCode := None |}.

(** An attempt that yields no chunk and throws [e]: pacing is evaluated
    [d] ms after [T0], the call goes out [d'] ms after [T0]. *)
Definition failingAttempt (d d' : Z) (e : JsError)
  (inBackoff : option AbortCause) : Attempt :=
  {| t_pace := T0 + d; t_call := T0 + d'; chunks := []; ending := Some e;
     abortAt := None; t_after := at_ d'; abortInBackoff := inBackoff |}.

(** The key is rejected by the API. *)
Definition rejectedKey : list Attempt :=
  [failingAttempt 10 10
     (upstreamError "API key not valid. Please pass a valid API key." 400)
     None].

(** The connection fails, the user cancels during the backoff delay of one
    second, and the request issued once that delay and the pacing delay
    are over is refused by the aborted signal. *)
Definition canceledInBackoff : list Attempt :=
  [failingAttempt 10 10 (plainError "Error fetching from upstream")
     (Some UserCancel);
   failingAttempt 1510 6010 (plainError "The operation was aborted") None].

(** A stream of three pieces of text that ends normally. *)
Definition textChunk (t : string) : Chunk :=
  {| parts := [{| functionCall := None; partText := js t |}];
     chunkText := js t; usageMetadata := None |}.

Definition threeDeltas : list Attempt :=
  [{| t_pace := T0 + 10; t_call := T0 + 10;
      chunks := [textChunk "Use "; textChunk "pin "; textChunk "13."];
      ending := None; abortAt := None; t_after := at_ 900;
      abortInBackoff := None |}].

(** A conversation with the default configuration. *)
Definition freshMemory : Memory.ConversationMemory :=
  Memory.createConversation (js "session") Memory.DEFAULT_MEMORY_CONFIG.

Fixpoint doubled (n : nat) (t : jsstring) : jsstring :=
  match n with
  | O => t
  | S k => doubled k (t ++ t)
  end.

(** A text of 2^17 letters: 32,768 tokens at four characters per token. *)
Definition longText : jsstring := doubled 17 (js "a").

(** A memory bank of three summaries. *)
Definition summaryOf (i : Z) (t : string) : Memory.SummaryEntry :=
  {| Memory.sum_id := Memory.SummaryId (T0 + i);
     Memory.summary := js t;
     Memory.originalMessageIds := [Memory.MsgId (T0 + i) (js "r")];
     Memory.createdAt := T0 + i;
     Memory.category := Memory.general;
     Memory.sum_estimatedTokens :=
       Some (TokenCounter.estimate_as TokenCounter.CtNatural (js t)) |}.

Definition fullBank : Memory.ConversationMemory :=
  Memory.set_bank
    {| Memory.summaries :=
         [summaryOf 1 "Goal: blink"; summaryOf 2 "Hardware: Uno";
          summaryOf 3 "Code: loop"];
       Memory.totalTokens := 9; Memory.version := 1;
       Memory.lastCompressedAt := None |}
    freshMemory.

(** An auxiliary model that answers with two blanks, and one that answers
    with a text. *)
Definition blankReply (_ : Memory.AiRequest) : Memory.AiReply :=
  Memory.Replies (js "  ").

Definition projectMemoryReply (_ : Memory.AiRequest) : Memory.AiReply :=
  Memory.Replies (js " Project: blink on Uno ").

(** Zero or more deltas, then exactly one terminal event, then nothing. *)
Definition deltasThenTerminal (evs : list StreamEvent) : bool :=
  match rev evs with
  | [] => false
  | final :: before =>
      isTerminal final && forallb (fun e => negb (isTerminal e)) before
  end.

End Scenario.

(** ** Further methods of the service

    The availability estimate, the quota snapshots sent to the client, the
    output-token clamp and the reservation estimate of [generate]. *)
Module Quota.

Import Service.

Definition MAX_OUTPUT_TOKENS : Z := 65536.

(** A JavaScript number: a finite double, which is a rational number, one
    of the two infinities, or NaN. *)
Inductive JsNumber :=
| Finite (q : Q)
| PlusInfinity
| MinusInfinity
| NaN.

(** [a > 0]. *)
Definition positive (a : JsNumber) : bool :=
  match a with
  | Finite q => negb (Qle_bool q 0)
  | PlusInfinity => true
  | MinusInfinity | NaN => false
  end.

(** [Math.min(a, cap)] for an integer [cap]. *)
Definition minWith (cap : Z) (a : JsNumber) : JsNumber :=
  match a with
  | Finite q => if Qle_bool q (inject_Z cap) then Finite q
                else Finite (inject_Z cap)
  | PlusInfinity => Finite (inject_Z cap)
  | MinusInfinity => MinusInfinity
  | NaN => NaN
  end.

(** [clampOutputTokens]; [None] is a [requested] that is not of type
    number.  The second argument of the source is not used by it. *)
Definition clampOutputTokens (requested : option JsNumber) : JsNumber :=
  let val := match requested with
             | Some a => if positive a then a else Finite (inject_Z 16384)
             | None => Finite (inject_Z 16384)
             end in
  minWith MAX_OUTPUT_TOKENS val.

(** The loop of [computeNextAvailabilityMs] over the window of the head's
    model: the entries are given up one by one until the need fits. *)
Fixpoint tokenDelayFrom (nowT need cumulative : Z) (window : list TokenUsage)
  : Z :=
  match window with
  | [] => 0
  | entry :: rest =>
      let expiry := time entry + ROLLING_WINDOW_MS in
      let cumulative' := cumulative - tokens entry in
      if cumulative' + need <=? TOKEN_CAPACITY_PER_MINUTE
      then Z.max 0 (expiry - nowT)
      else tokenDelayFrom nowT need cumulative' rest
  end.

(** [list.filter((t) => now - t < ROLLING_WINDOW_MS)]. *)
Definition recentWithin (nowT : Z) (l : list Z) : list Z :=
  filter (fun t => nowT - t < ROLLING_WINDOW_MS) l.

(** [computeNextAvailabilityMs].  [rpmList[0]] is read only when the list
    has reached the limit, hence is not empty. *)
Definition computeNextAvailabilityMs (clk : Clock) (s : State) : Z :=
  match queue s with
  | [] => now clk
  | head :: _ =>
      let need := reservationTokens head in
      let used := currentUsedTokens s in
      let tokenDelay :=
        if TOKEN_CAPACITY_PER_MINUTE <? used + need
        then tokenDelayFrom (now clk) need used
               (default [] (tokenWindows s !! model head))
        else 0 in
      let rpmList :=
        recentWithin (now clk) (default [] (recentCalls s !! model head)) in
      let rpmDelay :=
        if rpmLimit (model head) <=? Z.of_nat (length rpmList)
        then default 0 (List.head rpmList) + ROLLING_WINDOW_MS - now clk
        else 0 in
      let spacingDelay :=
        Z.max 0 (default 0 (lastCallAt s !! model head)
                 + minSpacing (model head) - now clk) in
      now clk + Z.max (Z.max tokenDelay rpmDelay) spacingDelay
  end.

Record QuotaUpdate := {
  usedTokens : Z;
  capacity : Z;
  rpmUsed : Z;
  quotaRpmLimit : Z;
  queued : Z;
  nextAvailableMs : Z }.

(** The snapshot that [pushQuotaUpdate] hands to the client. *)
Definition quotaUpdate (clk : Clock) (modelForRpm : option Model) (s : State)
  : QuotaUpdate :=
  let s' := cleanWindows clk s in
  let m := match modelForRpm with
           | Some m => m
           | None => match queue s' with
                     | p :: _ => model p
                     | [] => lastUsedModel s'
                     end
           end in
  {| usedTokens := currentUsedTokens s';
     capacity := TOKEN_CAPACITY_PER_MINUTE;
     rpmUsed :=
       Z.of_nat (length (recentWithin (now clk)
                           (default [] (recentCalls s' !! m))));
     quotaRpmLimit := rpmLimit m;
     queued := Z.of_nat (length (queue s'));
     nextAvailableMs :=
       match queue s' with
       | [] => now clk
       | _ :: _ => computeNextAvailabilityMs clk s'
       end |}.

(** [getQuota]: the same snapshot, except that the calls of the minute are
    read from the cache. *)
Definition getQuota (clk : Clock) (name : option jsstring) (s : State)
  : QuotaUpdate :=
  let s' := cleanWindows clk s in
  let m := match name with
           | Some (c :: n) => mapModel (c :: n)
           | _ => match queue s with
                  | p :: _ => model p
                  | [] => Flash
                  end
           end in
  {| usedTokens := currentUsedTokens s';
     capacity := TOKEN_CAPACITY_PER_MINUTE;
     rpmUsed := Z.of_nat (length (default [] (cachedRpmLists s' !! m)));
     quotaRpmLimit := rpmLimit m;
     queued := Z.of_nat (length (queue s'));
     nextAvailableMs :=
       match queue s' with
       | [] => now clk
       | _ :: _ => computeNextAvailabilityMs clk s'
       end |}.

(** One turn of [request.context.conversation]: a message with a [text],
    a function result with [parts] (given by its [JSON.stringify]), or an
    object with neither. *)
Inductive ConversationEntry :=
| TextEntry (text : jsstring)
| PartsEntry (json : jsstring)
| OtherEntry.

Definition entryTokens (e : ConversationEntry) : Z :=
  match e with
  | TextEntry t => Backend.estimateTokens t
  | PartsEntry j => Backend.estimateTokens j
  | OtherEntry => 0
  end.

Definition counted (e : ConversationEntry) : bool :=
  match e with
  | OtherEntry => false
  | _ => true
  end.

Section Reservation.

(** The two system instructions are long constants of the source; the
    estimate is defined over them. *)
Variable BASIC_MODE_INSTRUCTION : jsstring.
Variable AGENT_MODE_INSTRUCTION : jsstring.

(** [promptEstimate] of [generate], which becomes the reservation. *)
Definition promptEstimate (enableAgentMode : bool)
  (conversation : list ConversationEntry) (prompt : jsstring) : Z :=
  let systemInstruction :=
    if enableAgentMode then AGENT_MODE_INSTRUCTION
    else BASIC_MODE_INSTRUCTION in
  foldl (fun acc msg => acc + entryTokens msg)
    (0 + Backend.estimateTokens systemInstruction) conversation
  + Backend.estimateTokens prompt.

End Reservation.

(** No array of the state is due for cleaning at [clk]. *)
Definition settled (clk : Clock) (s : State) : Prop :=
  anyCleaned time (now clk - ROLLING_WINDOW_MS) (tokenWindows s) = false
  /\ anyCleaned id (now clk - ROLLING_WINDOW_MS) (recentCalls s) = false
  /\ anyCleaned id (pacificMidnight clk) (dailyCalls s) = false.

End Quota.

(** ** Prompt assembly and statistics of the memory manager *)
Module Assembly.

Import TokenCounter Memory.

Record PromptAssemblyOptions := {
  currentPrompt : jsstring;
  additionalContext : option jsstring;
  targetTokenBudget : option Z }.

(** The sections of the assembled prompt, which the source joins with a
    separator line. *)
Inductive PromptPart :=
| HistoricalContext (texts : list jsstring)
| RecentConversation (turns : list RawMessage)
| AdditionalContext (t : jsstring)
| CurrentRequest (t : jsstring).

Record TokenCount := {
  total : Z;
  for_memoryBank : Z;
  for_recentMessages : Z;
  for_currentPrompt : Z;
  for_systemPrompt : Z }.

(** [msg.estimatedTokens || TokenCounter.fastEstimate(msg.text)]. *)
Definition msgTokens (msg : RawMessage) : Z :=
  match msg_estimatedTokens msg with
  | Some n => if n =? 0 then fastEstimate (msg_text msg) else n
  | None => fastEstimate (msg_text msg)
  end.

(** The loop over [recentMessages] from the newest to the oldest: the
    messages taken, in their original order, and the running estimate.
    [estimatedTokens + msgTokens > targetTokenBudget * 0.8] ends it. *)
Fixpoint takeRecent (budget est : Z) (newestFirst : list RawMessage)
  : list RawMessage * Z :=
  match newestFirst with
  | [] => ([], est)
  | msg :: older =>
      if 4 * budget <? 5 * (est + msgTokens msg) then ([], est)
      else
        let '(taken, est') := takeRecent budget (est + msgTokens msg) older in
        (taken ++ [msg], est')
  end.

Definition assemblePrompt (m : ConversationMemory)
  (options : PromptAssemblyOptions) : list PromptPart * TokenCount :=
  let budget := default 50000 (targetTokenBudget options) in
  let bank := memoryBank m in
  let '(parts1, est1) :=
    match summaries bank with
    | [] => ([], 0)
    | _ :: _ =>
        ([HistoricalContext (summary <$> summaries bank)],
         0 + totalTokens bank)
    end in
  let '(taken, est2) := takeRecent budget est1 (rev (recentMessages m)) in
  let parts2 :=
    match taken with
    | [] => parts1
    | _ :: _ => parts1 ++ [RecentConversation taken]
    end in
  let '(parts3, est3) :=
    match additionalContext options with
    | Some ctx =>
        match trim ctx with
        | [] => (parts2, est2)
        | _ :: _ =>
            let contextTokens := fastEstimate ctx in
            if 10 * (est2 + contextTokens) <? 9 * budget
            then (parts2 ++ [AdditionalContext ctx], est2 + contextTokens)
            else (parts2, est2)
        end
    | None => (parts2, est2)
    end in
  let currentTokens := estimate_as CtMixed (currentPrompt options) in
  let est4 := est3 + currentTokens in
  (parts3 ++ [CurrentRequest (currentPrompt options)],
   {| total := est4;
      for_memoryBank := totalTokens bank;
      for_recentMessages := est4 - totalTokens bank - currentTokens;
      for_currentPrompt := currentTokens;
      for_systemPrompt := 0 |}).

(** [TokenCounter.countConversation] of token-counter.ts: the figures are
    estimated anew from the texts. *)
Definition hintOf (r : Role) : ContentType :=
  match r with
  | assistant => CtNatural
  | user => CtMixed
  end.

Definition countConversation (recentMessages : list RawMessage)
  (memoryBankSummaries : list SummaryEntry) (currentPrompt : jsstring)
  (systemPrompt : option jsstring) : TokenCount :=
  let recentTokens :=
    foldl (fun acc msg =>
             acc + estimate_as (hintOf (msg_role msg)) (msg_text msg))
      0 recentMessages in
  let memoryTokens :=
    foldl (fun acc s => acc + estimate_as CtNatural (summary s))
      0 memoryBankSummaries in
  let currentTokens := estimate_as CtMixed currentPrompt in
  let systemTokens :=
    match systemPrompt with
    | Some (c :: p) => estimate_as CtNatural (c :: p)
    | _ => 0
    end in
  {| total := recentTokens + memoryTokens + currentTokens + systemTokens;
     for_memoryBank := memoryTokens;
     for_recentMessages := recentTokens;
     for_currentPrompt := currentTokens;
     for_systemPrompt := systemTokens |}.

(** Every cached estimate of the memory is the estimate of its text. *)
Definition cached (m : ConversationMemory) : Prop :=
  Forall (fun msg =>
            msg_estimatedTokens msg
            = Some (estimate_as (hintOf (msg_role msg)) (msg_text msg)))
    (recentMessages m)
  /\ Forall (fun s =>
               sum_estimatedTokens s
               = Some (estimate_as CtNatural (summary s)))
       (summaries (memoryBank m)).

(** What the messages of a list cost in the assembly. *)
Definition sumTokens (l : list RawMessage) : Z :=
  foldr (fun msg acc => msgTokens msg + acc) 0 l.

(** What the memory bank costs in the assembly: nothing when it has no
    summary. *)
Definition bankShare (m : ConversationMemory) : Z :=
  match summaries (memoryBank m) with
  | [] => 0
  | _ :: _ => totalTokens (memoryBank m)
  end.

(** The recent messages that made it into the prompt. *)
Definition recentIn (parts : list PromptPart) : list RawMessage :=
  concat ((fun p => match p with
                    | RecentConversation turns => turns
                    | _ => []
                    end) <$> parts).


(** The running total of the bank is the sum of the cached estimates of
    its summaries. *)
Definition bankTokens (l : list SummaryEntry) : Z :=
  foldr (fun s acc => default 0 (sum_estimatedTokens s) + acc) 0 l.

Definition bankConsistent (m : ConversationMemory) : Prop :=
  totalTokens (memoryBank m) = bankTokens (summaries (memoryBank m)).

End Assembly.

(** ** Overlapping calls of [addMessage]

    [addMessage] hands control back while it awaits the auxiliary model,
    and the widget starts calls that it does not await, so that a second
    call can run while the first one waits.  Here a call is cut at its
    awaits: it runs up to the first one, and goes on when the reply
    arrives, on the memory as it is then.  What [memory.recentMessages]
    holds is an array object of a store, because [summarizeOldMessages]
    keeps the array it read before the await and cuts that array
    afterwards, with the length it has by then. *)
Module Tasks.

Import TokenCounter Memory.

Record Store := {
  arrays : gmap nat (list RawMessage);   (* the array objects *)
  nextArray : nat;                       (* the next array to be created *)
  recentRef : nat;                       (* memory.recentMessages *)
  s_sessionId : jsstring;
  s_bank : MemoryBank;                   (* memory.memoryBank *)
  s_config : MemoryConfig;
  s_stats : MemoryStats }.

Definition arrayAt (s : Store) (ref : nat) : list RawMessage :=
  default [] (arrays s !! ref).

(** The memory as a caller reads it. *)
Definition view (s : Store) : ConversationMemory :=
  {| sessionId := s_sessionId s;
     recentMessages := arrayAt s (recentRef s);
     memoryBank := s_bank s; config := s_config s; stats := s_stats s |}.

Definition load (m : ConversationMemory) : Store :=
  {| arrays := {[ 0%nat := recentMessages m ]}; nextArray := 1;
     recentRef := 0; s_sessionId := sessionId m; s_bank := memoryBank m;
     s_config := config m; s_stats := stats m |}.

(** A call that waits for the auxiliary model, with the constants it
    holds across the await. *)
Inductive Pending :=
| AwaitSummary (captured : nat) (keepCount : Z)
    (toSummarize : list RawMessage)
    (* in [generateSummary]: [recentMessages], [keepCount], [toSummarize] *)
| AwaitCompression (oldSummaries : list SummaryEntry)
    (recentSummary : SummaryEntry).
    (* in [compressMemoryBank]: [oldSummaries], [recentSummary] *)


(** [memory.recentMessages.push(message); memory.stats.totalInteractions++]. *)
Definition push (msg : RawMessage) (s : Store) : Store :=
  {| arrays := <[recentRef s := arrayAt s (recentRef s) ++ [msg]]> (arrays s);
     nextArray := nextArray s; recentRef := recentRef s;
     s_sessionId := s_sessionId s; s_bank := s_bank s;
     s_config := s_config s;
     s_stats :=
       {| totalInteractions := totalInteractions (s_stats s) + 1;
          summarizationsPerformed := summarizationsPerformed (s_stats s);
          lastSummarizedAt := lastSummarizedAt (s_stats s) |} |}.

(** [checkAndCompressMemoryBank] and [compressMemoryBank] up to the await
    of the latter. *)
Definition beginCompression (s : Store) : option Pending :=
  let cfg := s_config s in
  let bank := s_bank s in
  if memoryBankTokenCap cfg * thresholdNum cfg
     <? totalTokens bank * thresholdDen cfg
  then
    if Z.of_nat (length (summaries bank)) <? 3 then None
    else
      match last (summaries bank) with
      | None => None
      | Some recentSummary =>
          Some (AwaitCompression (slice (summaries bank) 0 (Some (-1)))
                  recentSummary)
      end
  else None.

(** [addMessage] up to the await in [generateSummary], if it gets there. *)
Definition beginCall (t : Z) (rnd : jsstring) (r : Role) (txt : jsstring)
  (s : Store) : Store * option Pending :=
  let s1 := push (newMessage t rnd r txt) s in
  if summarizationDue (view s1) then
    let recent := arrayAt s1 (recentRef s1) in
    let len := Z.of_nat (length recent) in
    let keepCount := (3 * maxRecentMessages (s_config s1)) / 5 in
    match slice recent 0 (Some (len - keepCount)) with
    | [] => (s1, None)
    | toSummarize =>
        (s1, Some (AwaitSummary (recentRef s1) keepCount toSummarize))
    end
  else (s1, None).

Section Resume.

Variable categorizeSummary : jsstring -> SummaryCategory.

(** What [generateSummary] makes of the reply. *)
Definition summaryFrom (t : Z) (messages : list RawMessage) (reply : AiReply)
  : option SummaryEntry :=
  match usableText reply with
  | Some txt =>
      Some {| sum_id := SummaryId t; summary := txt;
              originalMessageIds := msg_id <$> messages;
              createdAt := t;
              category :=
                categorizeSummary
                  (match reply with Replies raw => raw | Rejects => [] end);
              sum_estimatedTokens := Some (estimate_as CtNatural txt) |}
  | None => None
  end.

(** The call goes on when the reply arrives at instant [t]. *)
Definition resume (t : Z) (reply : AiReply) (p : Pending) (s : Store)
  : Store * option Pending :=
  match p with
  | AwaitSummary captured keepCount toSummarize =>
      match summaryFrom t toSummarize reply with
      | Some entry =>
          let recentMessages := arrayAt s captured in
          let bank := s_bank s in
          let s1 :=
            {| arrays :=
                 <[nextArray s :=
                     slice recentMessages
                       (Z.of_nat (length recentMessages) - keepCount) None]>
                   (arrays s);
               nextArray := S (nextArray s);
               recentRef := nextArray s;
               s_sessionId := s_sessionId s;
               s_bank :=
                 {| summaries := summaries bank ++ [entry];
                    totalTokens :=
                      totalTokens bank
                      + default 0 (sum_estimatedTokens entry);
                    version := version bank;
                    lastCompressedAt := lastCompressedAt bank |};
               s_config := s_config s;
               s_stats :=
                 {| totalInteractions := totalInteractions (s_stats s);
                    summarizationsPerformed :=
                      summarizationsPerformed (s_stats s) + 1;
                    lastSummarizedAt := Some t |} |} in
          (s1, beginCompression s1)
      | None => (s, None)
      end
  | AwaitCompression oldSummaries recentSummary =>
      match usableText reply with
      | Some txt =>
          let compressedSummary :=
            {| sum_id := CompressedId t; summary := txt;
               originalMessageIds :=
                 concat (originalMessageIds <$> oldSummaries);
               createdAt := t; category := general;
               sum_estimatedTokens := Some (estimate_as CtNatural txt) |} in
          ({| arrays := arrays s; nextArray := nextArray s;
              recentRef := recentRef s; s_sessionId := s_sessionId s;
              s_bank :=
                {| summaries := [compressedSummary; recentSummary];
                   totalTokens :=
                     default 0 (sum_estimatedTokens compressedSummary)
                     + default 0 (sum_estimatedTokens recentSummary);
                   version := version (s_bank s);
                   lastCompressedAt := Some t |};
              s_config := s_config s; s_stats := s_stats s |}, None)
      | None => (s, None)
      end
  end.

(** What happens to a memory: [addMessage] is called, or the auxiliary
    call of the [call]-th of the calls made so far settles. *)
Inductive Event :=
| Call (t : Z) (rnd : jsstring) (r : Role) (txt : jsstring)
| Reply (call : nat) (t : Z) (reply : AiReply).

Record World := {
  store : Store;
  waiting : list (option Pending) }.   (* one entry per call, in order *)

Definition step (w : World) (ev : Event) : World :=
  match ev with
  | Call t rnd r txt =>
      let '(s, p) := beginCall t rnd r txt (store w) in
      {| store := s; waiting := waiting w ++ [p] |}
  | Reply call t reply =>
      match waiting w !! call with
      | Some (Some p) =>
          let '(s, p') := resume t reply p (store w) in
          {| store := s; waiting := <[call := p']> (waiting w) |}
      | _ => w
      end
  end.

Definition run (events : list Event) (m : ConversationMemory) : World :=
  foldl step {| store := load m; waiting := [] |} events.


End Resume.




End Tasks.

(** ** The request log of the chat widget

    The widget keeps its own log of requests for the figures it displays.
    [logRequest], [calculateCurrentRpm] and the interval of the clock
    ticker are modelled on the three fields of [stateData] they use;
    persisting and re-rendering are left out. *)
Module Widget.

Record RequestLog := {
  timestamp : Z;
  tokensUsed : Z;
  logModel : jsstring;
  success : bool }.

Record DailyTracker := {
  date : jsstring;          (* YYYY-MM-DD in Pacific Time *)
  requestCount : Z;
  tokenCount : Z }.

Record Tracking := {
  shownNow : Z;             (* stateData.now *)
  requestLogs : list RequestLog;
  dailyTracker : DailyTracker }.

(** What one call reads from the environment: [Date.now()] and
    [getPacificDate()]. *)
Record WidgetClock := {
  w_now : Z;
  pacificDate : jsstring }.

(** The tracker is replaced when the Pacific date has changed. *)
Definition resetIfNewDay (currentDate : jsstring) (t : DailyTracker)
  : DailyTracker :=
  if decide (date t = currentDate) then t
  else {| date := currentDate; requestCount := 0; tokenCount := 0 |}.

Definition LOG_CLEANUP_THRESHOLD : Z := 200.

(** [log.timestamp > sixtySecondsAgo]. *)
Definition recentLogs (nowT : Z) (logs : list RequestLog) : list RequestLog :=
  filter (fun log => nowT - 60 * 1000 < timestamp log) logs.

Definition logRequest (clk : WidgetClock) (tokens : Z) (model : jsstring)
  (ok : bool) (s : Tracking) : Tracking :=
  let tracker := resetIfNewDay (pacificDate clk) (dailyTracker s) in
  let logs :=
    requestLogs s
    ++ [{| timestamp := w_now clk; tokensUsed := tokens; logModel := model;
           success := ok |}] in
  let tracker' :=
    {| date := date tracker; requestCount := requestCount tracker + 1;
       tokenCount := tokenCount tracker + tokens |} in
  let logs' :=
    if LOG_CLEANUP_THRESHOLD <? Z.of_nat (length logs)
    then recentLogs (w_now clk) logs else logs in
  {| shownNow := shownNow s; requestLogs := logs';
     dailyTracker := tracker' |}.

Definition calculateCurrentRpm (nowT : Z) (s : Tracking) : Z :=
  Z.of_nat
    (length
       (filter (fun log => nowT - 60 * 1000 < timestamp log
                           /\ success log = true)
          (requestLogs s))).

(** The body of the interval of [startClock], once a second. *)
Definition clockTick (clk : WidgetClock) (s : Tracking) : Tracking :=
  {| shownNow := w_now clk;
     requestLogs := recentLogs (w_now clk) (requestLogs s);
     dailyTracker := resetIfNewDay (pacificDate clk) (dailyTracker s) |}.

End Widget.

(** ** Further situations used below *)
Module Probe.

Import Service Executor Scenario.

(** The text of the [StreamText] deltas of a list of events. *)
Definition streamedText (evs : list StreamEvent) : jsstring :=
  concat ((fun e => match e with
                    | Delta _ (StreamText t) => t
                    | _ => []
                    end) <$> evs).

(** The delays of the retry notices of a list of events, in order. *)
Definition retryNotices (evs : list StreamEvent) : list Z :=
  omap (fun e => match e with
                 | Delta _ (RetryNotice _ d) => Some d
                 | _ => None
                 end) evs.

Definition sumZ (l : list Z) : Z := foldr Z.add 0 l.

(** Seven attempts that all end with an overload. *)
Definition alwaysOverloaded : list Attempt :=
  (fun i =>
     failingAttempt (10 + 100000 * i) (10 + 100000 * i)
       (upstreamError "The model is overloaded. Please try again later." 503)
       None) <$> seqZ 0 7.

(** The user cancels after the first of three pieces of text; the stream
    would have ended with an overload. *)
Definition canceledMidStream : Attempt :=
  {| t_pace := T0 + 10; t_call := T0 + 10;
     chunks := [textChunk "Use "; textChunk "pin "; textChunk "13."];
     ending :=
       Some (upstreamError "The model is overloaded. Please try again later."
               503);
     abortAt := Some (1%nat, UserCancel); t_after := at_ 900;
     abortInBackoff := None |}.

(** A conversation that summarizes early: at most five recent messages,
    of which three are kept. *)
Definition smallConfig : Memory.MemoryConfig :=
  {| Memory.maxRecentMessages := 5; Memory.memoryBankTokenCap := 100000;
     Memory.minMessages := 2; Memory.maxTokens := 25000;
     Memory.thresholdNum := 9; Memory.thresholdDen := 10 |}.

Definition turn (i : Z) : Memory.RawMessage :=
  Memory.newMessage (T0 + i) (js "r") Memory.user (js "blink the LED").

(** Five messages have been added, none summarized yet. *)
Definition chatty : Memory.ConversationMemory :=
  {| Memory.sessionId := js "session";
     Memory.recentMessages := turn <$> seqZ 0 5;
     Memory.memoryBank :=
       {| Memory.summaries := []; Memory.totalTokens := 0;
          Memory.version := 1; Memory.lastCompressedAt := None |};
     Memory.config := smallConfig;
     Memory.stats :=
       {| Memory.totalInteractions := 5; Memory.summarizationsPerformed := 0;
          Memory.lastSummarizedAt := None |} |}.

(** The next prompt with a sketch as additional context, under the
    default budget and under a budget of ten tokens. *)
Definition roomyOptions : Assembly.PromptAssemblyOptions :=
  {| Assembly.currentPrompt := js "and now?";
     Assembly.additionalContext := Some (js "int led = 13;");
     Assembly.targetTokenBudget := None |}.

Definition tightOptions : Assembly.PromptAssemblyOptions :=
  {| Assembly.currentPrompt := js "and now?";
     Assembly.additionalContext := Some (js "int led = 13;");
     Assembly.targetTokenBudget := Some 10 |}.


(** An auxiliary model that is down. *)
Definition noReply (_ : Memory.AiRequest) : Memory.AiReply := Memory.Rejects.



(** The log of the widget after a request that failed and one that
    succeeded half a minute later. *)
Definition loggedTwice : Widget.Tracking :=
  Widget.logRequest
    {| Widget.w_now := T0 + 30000; Widget.pacificDate := js "2023-11-14" |}
    900 (js "gemini-2.5-flash") true
    (Widget.logRequest
       {| Widget.w_now := T0; Widget.pacificDate := js "2023-11-14" |}
       1200 (js "gemini-2.5-flash") false
       {| Widget.shownNow := T0; Widget.requestLogs := [];
          Widget.dailyTracker :=
            {| Widget.date := js "2023-11-13"; Widget.requestCount := 7;
               Widget.tokenCount := 5000 |} |}).

(** A service with one flash-lite request in flight and a second one
    queued a second later. *)
Definition oneQueued : State :=
  (Scheduler.run
     [Scheduler.Submit (at_ 0) (liteRequest 0 0);
      Scheduler.CallStarts (T0 + 1) FlashLite;
      Scheduler.Submit (at_ 1000) (liteRequest 1 1000)] initial).1.

End Probe.

(* ================================================================== *)
(** * Properties *)

(** ** The estimators *)

Section EstimatorFacts.

Import Backend TokenCounter.

Lemma ceil_div_pos a b : 0 < a -> 0 < b -> 1 <= ceil_div a b.
Proof.
  intros Ha Hb. unfold ceil_div.
  assert (0 < (a + b - 1) / b) by (apply Z.div_str_pos; lia).
  lia.
Qed.

Lemma space_runs_nonneg b s : 0 <= space_runs b s.
Proof.
  revert b. induction s as [|c r IH]; intros b; simpl; [lia|].
  destruct (is_space c).
  - specialize (IH true). destruct b; lia.
  - apply IH.
Qed.

Lemma split_spaces_length_pos s : 1 <= split_spaces_length s.
Proof. unfold split_spaces_length. pose proof (space_runs_nonneg false s). lia. Qed.

Lemma jslength_cons c s : jslength (c :: s) = 1 + jslength s.
Proof. unfold jslength. simpl length. lia. Qed.

Lemma jslength_nonneg s : 0 <= jslength s.
Proof. unfold jslength. lia. Qed.

(** Two words of natural language: max(ceil(2.6), ceil(11 / 4.5)) + 5. *)
Example estimateTokens_prose : estimateTokens (js "hello world") = 8.
Proof. reflexivity. Qed.

(** Twenty characters of code: ceil(20 / 3.5) + 5. *)
Example estimateTokens_code :
  estimateTokens (js "if (x) { return 1; }") = 11.
Proof. reflexivity. Qed.

(** Nine characters of JSON: ceil(9 / 3) + 5. *)
Example estimateTokens_json : estimateTokens (js "[1, 2, 3]") = 8.
Proof. reflexivity. Qed.

(** Blank input is trimmed to nothing. *)
Example estimateTokens_blank : estimateTokens (js "   ") = 4.
Proof. reflexivity. Qed.

(** [" a ".split(/\s+/)] has three pieces. *)
Example split_spaces_length_padded : split_spaces_length (js " a ") = 3.
Proof. reflexivity. Qed.

Lemma estimateTokens_at_least_4 text : 4 <= estimateTokens text.
Proof.
  unfold estimateTokens. destruct (trim text); [lia|].
  cbv zeta. apply Z.le_max_l.
Qed.

Lemma estimate_nonempty det c text hint :
  1 <= estimate det (c :: text) hint.
Proof.
  unfold estimate. cbv zeta.
  pose proof (jslength_nonneg text) as Hl.
  rewrite jslength_cons.
  pose proof (split_spaces_length_pos (c :: text)) as Hw.
  destruct (match hint with Some ct => ct | None => det (c :: text) end);
    apply ceil_div_pos; lia.
Qed.

(** C6, as amended: the backend estimator [estimateTokens] never returns
    less than 4, and returns 4 on the empty string; the memory-side
    [TokenCounter.estimate] has no such floor: it returns 0 on the empty
    string, and at least 1 on every non-empty one. *)
Theorem estimator_floors det (text : jsstring) hint :
  4 <= estimateTokens text
  /\ estimateTokens [] = 4
  /\ estimate det [] hint = 0
  /\ (text <> [] -> 1 <= estimate det text hint).
Proof.
  split; [apply estimateTokens_at_least_4|].
  split; [reflexivity|].
  split; [reflexivity|].
  intros Hne. destruct text as [|c r]; [congruence|].
  apply estimate_nonempty.
Qed.

Lemma estimator_floors_witness :
  js "hi" <> [] /\ 1 <= estimate (fun _ => CtMixed) (js "hi") None.
Proof.
  split; [discriminate|].
  apply (estimator_floors (fun _ => CtMixed) (js "hi") None).
  discriminate.
Defined.

(** C6 as stated fails on [TokenCounter.estimate]: the empty string is
    estimated at zero tokens, and a short non-empty text below 4. *)
Lemma token_counter_has_no_floor :
  estimate (fun _ => CtMixed) [] (Some CtMixed) = 0
  /\ estimate (fun _ => CtMixed) (js "hi") (Some CtMixed) = 1
  /\ ~ (forall text hint, 0 < estimate (fun _ => CtMixed) text hint).
Proof.
  split; [reflexivity|]. split; [reflexivity|].
  intros H. specialize (H [] None). vm_compute in H. discriminate.
Qed.

End EstimatorFacts.

(** ** The quota ledger *)

Section LedgerFacts.

Import Service Scheduler Scenario.

Lemma tokenWindows_cleanWindows clk s :
  tokenWindows (cleanWindows clk s)
  = cleanAll time (now clk - ROLLING_WINDOW_MS) (tokenWindows s).
Proof. reflexivity. Qed.

Lemma queue_cleanWindows clk s : queue (cleanWindows clk s) = queue s.
Proof. reflexivity. Qed.

Lemma lookup_cleanAll {A} (stamp : A -> Z) cutoff
  (m : gmap Model (list A)) k :
  cleanAll stamp cutoff m !! k = m !! k ≫= cleanList stamp cutoff.
Proof. unfold cleanAll. apply lookup_omap. Qed.

Lemma live_app {A} (stamp : A -> Z) cutoff (l k : list A) :
  live stamp cutoff (l ++ k) = live stamp cutoff l ++ live stamp cutoff k.
Proof. unfold live. apply filter_app. Qed.

Lemma live_idem {A} (stamp : A -> Z) cutoff (l : list A) :
  live stamp cutoff (live stamp cutoff l) = live stamp cutoff l.
Proof.
  unfold live. rewrite list_filter_filter.
  apply list_filter_iff. intros x. tauto.
Qed.

Lemma live_sublist {A} (stamp : A -> Z) cutoff (l : list A) :
  live stamp cutoff l `sublist_of` l.
Proof. unfold live. apply sublist_filter. Qed.

(** Cleaning keeps the entries of the trailing window, in their order. *)
Lemma live_cleanList {A} (stamp : A -> Z) cutoff (l : list A) :
  live stamp cutoff (default [] (cleanList stamp cutoff l))
  = live stamp cutoff l.
Proof.
  unfold cleanList. destruct (shouldClean stamp cutoff l); [|reflexivity].
  destruct (live stamp cutoff l) as [|x l'] eqn:E; [reflexivity|].
  simpl default. rewrite <- E. apply live_idem.
Qed.

(** Cleaning never adds an entry. *)
Lemma cleanList_sublist {A} (stamp : A -> Z) cutoff (l : list A) :
  default [] (cleanList stamp cutoff l) `sublist_of` l.
Proof.
  unfold cleanList. destruct (shouldClean stamp cutoff l); [|reflexivity].
  pose proof (live_sublist stamp cutoff l) as H.
  destruct (live stamp cutoff l); [apply sublist_nil_l|exact H].
Qed.

Lemma lookup_pushWindow m e s :
  tokenWindows (pushWindow m e s) !! m
  = Some (default [] (tokenWindows s !! m) ++ [e]).
Proof. unfold pushWindow. simpl. apply lookup_insert_eq. Qed.

(** The sum that [canStartNow] compares with the capacity is the sum of
    the windows of both models. *)
Lemma currentUsedTokens_both s :
  currentUsedTokens s
  = windowTokens (default [] (tokenWindows s !! Flash))
    + windowTokens (default [] (tokenWindows s !! FlashLite)).
Proof.
  unfold currentUsedTokens.
  set (f := fun (_ : Model) (w : list TokenUsage) (total : Z) =>
              total + windowTokens w).
  assert (Hcomm : forall (m : gmap Model (list TokenUsage)) j1 j2 z1 z2 y,
             j1 <> j2 -> m !! j1 = Some z1 -> m !! j2 = Some z2 ->
             f j1 z1 (f j2 z2 y) = f j2 z2 (f j1 z1 y)).
  { intros. unfold f. lia. }
  assert (Hempty : forall m : gmap Model (list TokenUsage),
             m !! Flash = None -> m !! FlashLite = None -> m = ∅).
  { intros m H1 H2. apply map_eq. intros [|]; by rewrite lookup_empty. }
  assert (Hlite : forall m : gmap Model (list TokenUsage),
             m !! Flash = None ->
             map_fold f 0 m = windowTokens (default [] (m !! FlashLite))).
  { intros m H1. destruct (m !! FlashLite) as [w|] eqn:E.
    - rewrite (map_fold_delete_L f 0 FlashLite w m (Hcomm m) E).
      rewrite (Hempty (delete FlashLite m)).
      + rewrite map_fold_empty. unfold f. simpl. lia.
      + by rewrite lookup_delete_ne.
      + apply lookup_delete_eq.
    - rewrite (Hempty m H1 E). rewrite map_fold_empty. reflexivity. }
  destruct (tokenWindows s !! Flash) as [w|] eqn:E.
  - rewrite (map_fold_delete_L f 0 Flash w _ (Hcomm _) E).
    rewrite Hlite by apply lookup_delete_eq.
    rewrite lookup_delete_ne by discriminate. unfold f. simpl. lia.
  - rewrite (Hlite _ E). simpl default.
    change (windowTokens []) with 0. lia.
Qed.

(** C1: the token check of [canStartNow] adds the windows of both models
    before comparing with the 250,000 ceiling, so the claim fails on the
    code.  After a flash request reserving 250,000 tokens, the window of
    flash-lite is empty, its RPM, RPD and spacing checks pass, and still a
    flash-lite request of 1,000 tokens is refused by the token check and
    queued. *)
Theorem token_ceiling_is_shared :
  (forall s r,
      tokensOk r s
      = negb (TOKEN_CAPACITY_PER_MINUTE
              <? windowTokens (default [] (tokenWindows s !! Flash))
                 + windowTokens (default [] (tokenWindows s !! FlashLite))
                 + r))
  /\ (let s := cleanWindows (at_ 7000) flashFull in
      tokenWindows s !! FlashLite = None
      /\ windowTokens (default [] (tokenWindows s !! Flash)) = 250000
      /\ rpmOk FlashLite s = true
      /\ rpdOk FlashLite s = true
      /\ spacingOk (at_ 7000) FlashLite s = true
      /\ tokensOk 1000 s = false)
  /\ (canStartNow (at_ 7000) FlashLite 1000 flashFull).1 = false
  /\ (generate (at_ 7000) (request FlashLite "lite" 1000 7000) flashFull).2
     = None.
Proof.
  split.
  { intros s r. unfold tokensOk. by rewrite currentUsedTokens_both. }
  split; [|split]; vm_compute; repeat split; reflexivity.
Qed.

Lemma cachedRpmLists_recordRpm clk m s :
  cachedRpmLists (recordRpm clk m s) = cachedRpmLists s.
Proof. reflexivity. Qed.

Lemma cachedRpmLists_pushWindow m e s :
  cachedRpmLists (pushWindow m e s) = cachedRpmLists s.
Proof. reflexivity. Qed.

(** As long as no array is due for cleaning, a cache that has an entry is
    handed on as it is, whatever [recentCalls] has become. *)
Lemma rpm_cache_not_refreshed clk s :
  anyCleaned time (now clk - ROLLING_WINDOW_MS) (tokenWindows s) = false ->
  anyCleaned id (now clk - ROLLING_WINDOW_MS) (recentCalls s) = false ->
  anyCleaned id (pacificMidnight clk) (dailyCalls s) = false ->
  size (cachedRpmLists s) <> 0%nat ->
  cachedRpmLists (cleanWindows clk s) = cachedRpmLists s.
Proof.
  intros H1 H2 H3 Hsize. unfold cleanWindows. simpl.
  rewrite H1, H2, H3. simpl.
  destruct (decide (size (cachedRpmLists s) = 0%nat)); [contradiction|].
  reflexivity.
Qed.

(** C3: the RPM check reads [cachedRpmLists], which [cleanWindows] fills
    once and then leaves alone until some array is actually cleaned, so it
    still holds the first call only.  Fifteen flash-lite requests are
    admitted within 52.1 s; when the sixteenth arrives 56.013 s after the
    first, all fifteen call timestamps are inside the trailing 60 s, and it
    is admitted instead of queued.  Sixteen requests arriving in one
    millisecond are all admitted as well. *)
Theorem sixteenth_lite_request_started :
  (let '(s, l) := run fifteenLite initial in
   length (direct l) = 15%nat
   /\ queue s = []
   /\ length (live id (now (at_ 56013) - ROLLING_WINDOW_MS)
                (default [] (recentCalls s !! FlashLite))) = 15%nat
   /\ cachedRpmLists (cleanWindows (at_ 56013) s) !! FlashLite = Some [T0]
   /\ (canStartNow (at_ 56013) FlashLite 1000 s).1 = true)
  /\ (let '(s, l) := run (fifteenLite ++ [sixteenth]) initial in
      length (direct l) = 16%nat /\ enqueued l = [] /\ queue s = [])
  /\ (let '(s, l) := run (burstLite 16) initial in
      length (direct l) = 16%nat /\ enqueued l = [] /\ queue s = []).
Proof. vm_compute. repeat split; reflexivity. Qed.

Lemma live_all {A} (stamp : A -> Z) cutoff (k : list A) :
  Forall (fun x => cutoff <= stamp x) k -> live stamp cutoff k = k.
Proof.
  unfold live. induction 1 as [|x k Hx Hk IH]; [reflexivity|].
  rewrite filter_cons_True by exact Hx. by rewrite IH.
Qed.

(** Entries inside the window at the end of an array stay where they are,
    behind what is left of the older ones. *)
Lemma cleanList_live_suffix {A} (stamp : A -> Z) cutoff (l k : list A) :
  Forall (fun x => cutoff <= stamp x) k -> k <> [] ->
  exists older,
    cleanList stamp cutoff (l ++ k) = Some (older ++ k)
    /\ older `sublist_of` l.
Proof.
  intros Hk Hne. unfold cleanList.
  destruct (shouldClean stamp cutoff (l ++ k)).
  - rewrite live_app, (live_all stamp cutoff k Hk).
    exists (live stamp cutoff l). split; [|apply live_sublist].
    destruct (live stamp cutoff l); destruct k; try congruence; reflexivity.
  - exists l. split; reflexivity.
Qed.

Lemma lookup_recordReservation clk m r s :
  exists older,
    tokenWindows (recordReservation clk m r s) !! m
    = Some (older ++ [{| time := now clk; tokens := r; reservation := true |}])
    /\ older `sublist_of` default [] (tokenWindows s !! m).
Proof.
  unfold recordReservation.
  rewrite tokenWindows_cleanWindows, lookup_cleanAll, lookup_pushWindow.
  simpl. apply cleanList_live_suffix; [|discriminate].
  constructor; [|constructor]. simpl. unfold ROLLING_WINDOW_MS. lia.
Qed.

(** C4, as amended: when the adjustment is recorded no more than 60 s
    after the reservation, the window of the model holds the reservation
    entry as it was pushed, directly followed, when [a] differs from [r],
    by one entry of [a - r]; what precedes them is what is left of the
    older entries, and the two entries of the request add up to [a]. *)
Theorem reserve_then_adjust s c1 c2 m r a :
  now c2 - ROLLING_WINDOW_MS <= now c1 ->
  let res := {| time := now c1; tokens := r; reservation := true |} in
  let adj :=
    if decide (a - r = 0) then []
    else [{| time := now c2; tokens := a - r; reservation := false |}] in
  exists older,
    tokenWindows (adjustReservation c2 m a r (recordReservation c1 m r s))
      !! m = Some (older ++ res :: adj)
    /\ older `sublist_of` default [] (tokenWindows s !! m)
    /\ windowTokens (res :: adj) = a.
Proof.
  intros Hlate res adj.
  destruct (lookup_recordReservation c1 m r s) as (o1 & Hw1 & Hsub1).
  fold res in Hw1. unfold adjustReservation. subst adj.
  destruct (decide (a - r = 0)) as [Heq|Hne].
  - exists o1. split; [exact Hw1|]. split; [exact Hsub1|].
    unfold windowTokens. simpl. lia.
  - rewrite tokenWindows_cleanWindows, lookup_cleanAll, lookup_pushWindow.
    rewrite Hw1. simpl.
    set (delta := {| time := now c2; tokens := a - r; reservation := false |}).
    destruct (cleanList_live_suffix time (now c2 - ROLLING_WINDOW_MS) o1
                [res; delta]) as (o2 & Hw2 & Hsub2).
    + repeat constructor; simpl; unfold ROLLING_WINDOW_MS in *; lia.
    + discriminate.
    + exists o2. split.
      * rewrite <- Hw2. f_equal. by rewrite <- app_assoc.
      * split; [by etrans|]. unfold windowTokens. simpl. lia.
Qed.

Lemma reserve_then_adjust_witness :
  now (at_ 3000) - ROLLING_WINDOW_MS <= now (at_ 0)
  /\ exists older,
       tokenWindows (adjustReservation (at_ 3000) Flash 640 1000
                       (recordReservation (at_ 0) Flash 1000 initial))
         !! Flash
       = Some (older
               ++ [{| time := T0; tokens := 1000; reservation := true |};
                   {| time := T0 + 3000; tokens := -360;
                      reservation := false |}])
       /\ older `sublist_of` default [] (tokenWindows initial !! Flash)
       /\ windowTokens
            [{| time := T0; tokens := 1000; reservation := true |};
             {| time := T0 + 3000; tokens := -360; reservation := false |}]
          = 640.
Proof.
  split; [vm_compute; discriminate|].
  apply (reserve_then_adjust initial (at_ 0) (at_ 3000) Flash 1000 640).
  vm_compute. discriminate.
Defined.

(** C4 as stated fails when the answer takes more than 60 s: the cleanup
    that [adjustReservation] runs removes the reservation entry, the delta
    alone is left, and the window of the request counts -500 tokens
    instead of 500. *)
Lemma late_adjustment_drops_reservation :
  let s := adjustReservation (at_ 61000) Flash 500 1000
             (recordReservation (at_ 0) Flash 1000 initial) in
  tokenWindows s !! Flash
  = Some [{| time := T0 + 61000; tokens := -500; reservation := false |}]
  /\ ({| time := T0; tokens := 1000; reservation := true |}
      ∉ default [] (tokenWindows s !! Flash))
  /\ currentUsedTokens s = -500.
Proof.
  vm_compute. split; [reflexivity|]. split; [|reflexivity].
  intros H. apply list_elem_of_singleton in H. discriminate.
Qed.

Lemma afterResponse_unchanged clk m r res s :
  actualPromptTokens res <= 0 ->
  afterResponse clk m r res s = (cleanWindows clk s, res).
Proof.
  intros H. unfold afterResponse.
  destruct (0 <? actualPromptTokens res) eqn:E; [lia|reflexivity].
Qed.

(** C10: when the response carries no positive [promptTokens],
    [afterResponse] leaves the response as it is ([usedReservation] stays
    unset) and does to the token windows what a cleanup alone does: no
    entry is added to any window, and every entry of the trailing 60 s,
    the reservation among them, stays in place. *)
Theorem afterResponse_without_prompt_tokens clk m r res s :
  (forall n, meta res ≫= promptTokens = Some n -> n <= 0) ->
  let cutoff := now clk - ROLLING_WINDOW_MS in
  (afterResponse clk m r res s).2 = res
  /\ tokenWindows (afterResponse clk m r res s).1
     = tokenWindows (cleanWindows clk s)
  /\ forall k,
       default [] (tokenWindows (afterResponse clk m r res s).1 !! k)
         `sublist_of` default [] (tokenWindows s !! k)
       /\ live time cutoff
            (default [] (tokenWindows (afterResponse clk m r res s).1 !! k))
          = live time cutoff (default [] (tokenWindows s !! k)).
Proof.
  intros Hnone cutoff.
  assert (Hact : actualPromptTokens res <= 0).
  { unfold actualPromptTokens.
    destruct (meta res ≫= promptTokens) as [n|] eqn:E; simpl; [|lia].
    by apply Hnone. }
  rewrite afterResponse_unchanged by exact Hact. cbn [fst snd].
  split; [reflexivity|]. split; [reflexivity|].
  intros k. rewrite tokenWindows_cleanWindows, lookup_cleanAll.
  destruct (tokenWindows s !! k) as [w|]; simpl.
  - split; [apply cleanList_sublist|apply live_cleanList].
  - split; reflexivity.
Qed.

Lemma afterResponse_without_prompt_tokens_witness :
  let res := {| text := js "ok"; requiresAction := false;
                meta := Some {| promptTokens := None;
                                candidatesTokens := Some 12;
                                totalTokens := Some 12; queuedMs := None;
                                usedReservation := None |} |} in
  (forall n, meta res ≫= promptTokens = Some n -> n <= 0)
  /\ (afterResponse (at_ 9000) Flash 200000 res flashBusy).2 = res
  /\ tokenWindows (afterResponse (at_ 9000) Flash 200000 res flashBusy).1
     = tokenWindows (cleanWindows (at_ 9000) flashBusy).
Proof.
  intros res.
  assert (H : forall n, meta res ≫= promptTokens = Some n -> n <= 0)
    by (intros n Hn; discriminate Hn).
  split; [exact H|].
  pose proof (afterResponse_without_prompt_tokens
                (at_ 9000) Flash 200000 res flashBusy H) as (H1 & H2 & _).
  split; [exact H1|exact H2].
Defined.

End LedgerFacts.

(** ** The queue *)

Section QueueFacts.

Import Service Scheduler Scenario.

Lemma generate_queue clk p s :
  match generate clk p s with
  | (s', Some p') => p' = p /\ queue s' = queue s
  | (s', None) => queue s' = queue s ++ [p]
  end.
Proof.
  unfold generate, canStartNow.
  destruct (rpmOk _ _ && rpdOk _ _ && tokensOk _ _ && spacingOk _ _ _);
    simpl; auto.
Qed.

Lemma runQueueCycle_queue clk s :
  match runQueueCycle clk s with
  | (s', Some p) => queue s = p :: queue s'
  | (s', None) => queue s' = queue s
  end.
Proof.
  unfold runQueueCycle. rewrite queue_cleanWindows.
  destruct (queue s) as [|next rest] eqn:E.
  - simpl. rewrite E. reflexivity.
  - unfold canStartNow.
    destruct (rpmOk _ _ && rpdOk _ _ && tokensOk _ _ && spacingOk _ _ _);
      simpl; [reflexivity|]. by rewrite E.
Qed.

Lemma step_inOrder q0 c sl :
  isCancel c = false -> inOrder q0 sl -> inOrder q0 (step c sl).
Proof.
  destruct sl as [s l]. unfold inOrder, step. simpl. intros Hc H.
  destruct c as [clk p|clk|clk key|t m].
  - pose proof (generate_queue clk p s) as G.
    destruct (generate clk p s) as [s' [p'|]]; simpl.
    + destruct G as [_ ->]. exact H.
    + rewrite G. by rewrite !app_assoc, H.
  - pose proof (runQueueCycle_queue clk s) as G.
    destruct (runQueueCycle clk s) as [s' [p|]]; simpl.
    + rewrite G in H. rewrite <- H. by rewrite <- app_assoc.
    + by rewrite G.
  - discriminate.
  - exact H.
Qed.

Lemma foldl_inOrder q0 cs sl :
  forallb (fun c => negb (isCancel c)) cs = true ->
  inOrder q0 sl -> inOrder q0 (foldl (fun sl c => step c sl) sl cs).
Proof.
  revert sl. induction cs as [|c cs IH]; intros sl Hcs H; simpl; [exact H|].
  simpl in Hcs. apply andb_true_iff in Hcs as [Hc Hcs].
  apply IH; [exact Hcs|]. apply step_inOrder; [|exact H].
  by destruct (isCancel c).
Qed.

Lemma spliceFirst_sublist key q e rest :
  spliceFirst key q = Some (e, rest) -> rest `sublist_of` q.
Proof.
  revert e rest. induction q as [|p q IH]; intros e rest; simpl;
    [discriminate|].
  destruct (decide (abortKey p = key)).
  - intros [= _ <-]. by apply sublist_cons.
  - destruct (spliceFirst key q) as [[e' rest']|]; [|discriminate].
    intros [= _ <-]. apply sublist_skip. by eapply IH.
Qed.

Lemma cancel_queue clk key s :
  queue (cancel clk key s).1 `sublist_of` queue s.
Proof.
  unfold cancel.
  destruct (decide (key ∈ abortControllers s)) as [Hin|Hin]; simpl;
    (destruct (spliceFirst key (queue s)) as [[entry rest]|] eqn:E; simpl;
     [by eapply spliceFirst_sublist|reflexivity]).
Qed.

Lemma step_orderKept q0 c sl : orderKept q0 sl -> orderKept q0 (step c sl).
Proof.
  destruct sl as [s l]. unfold orderKept, step. simpl. intros H.
  destruct c as [clk p|clk|clk key|t m].
  - pose proof (generate_queue clk p s) as G.
    destruct (generate clk p s) as [s' [p'|]]; simpl.
    + destruct G as [_ ->]. exact H.
    + rewrite G. rewrite !app_assoc. by apply sublist_app.
  - pose proof (runQueueCycle_queue clk s) as G.
    destruct (runQueueCycle clk s) as [s' [p|]]; simpl.
    + rewrite G in H. by rewrite <- app_assoc.
    + by rewrite G.
  - simpl. etrans; [|exact H].
    apply sublist_app; [reflexivity|apply cancel_queue].
  - exact H.
Qed.

Lemma foldl_orderKept q0 cs sl :
  orderKept q0 sl -> orderKept q0 (foldl (fun sl c => step c sl) sl cs).
Proof.
  revert sl. induction cs as [|c cs IH]; intros sl H; simpl; [exact H|].
  apply IH. by apply step_orderKept.
Qed.

Lemma generate_starts_at_once clk p s :
  (canStartNow clk (model p) (reservationTokens p) s).1 = true ->
  (generate clk p s).2 = Some p /\ queue (generate clk p s).1 = queue s.
Proof.
  unfold generate.
  destruct (canStartNow clk (model p) (reservationTokens p) s) as [ok s1] eqn:E.
  simpl. intros ->. simpl. split; [reflexivity|].
  unfold canStartNow in E. injection E as _ <-. reflexivity.
Qed.

Lemma spliceFirst_absent key q :
  Forall (fun p => abortKey p <> key) q -> spliceFirst key q = None.
Proof.
  induction 1 as [|p q Hp Hq IH]; simpl; [reflexivity|].
  destruct (decide (abortKey p = key)); [contradiction|]. by rewrite IH.
Qed.


(** [cancel] on a running request unregisters its controller and tells the
    client once. *)
Lemma cancel_running clk key s :
  key ∈ abortControllers s ->
  Forall (fun p => abortKey p <> key) (queue s) ->
  cancel clk key s
  = (set_running (abortControllers s ∖ {[key]}) (lastUsedModel s) s,
     [StreamCanceled key]).
Proof.
  intros Hk Hq. unfold cancel.
  destruct (decide (key ∈ abortControllers s)); [|contradiction].
  simpl. by rewrite spliceFirst_absent.
Qed.

(** C2, as amended: the requests that wait in the queue are started in the
    order in which they were enqueued, whatever their model: after any run
    of submissions, queue cycles and cancellations, the requests started by
    the cycles, followed by those still queued, are in the order of the
    requests queued at the beginning followed by those enqueued since, and
    without cancellation they are exactly these.  A new submission does not
    wait behind them: [generate] starts it at once whenever [canStartNow]
    accepts it, and leaves the queue as it is. *)
Theorem queued_requests_start_in_order cs s :
  (let '(s', l) := run cs s in
   dequeued l ++ queue s' `sublist_of` queue s ++ enqueued l)
  /\ (forallb (fun c => negb (isCancel c)) cs = true ->
      let '(s', l) := run cs s in
      dequeued l ++ queue s' = queue s ++ enqueued l)
  /\ (forall clk p,
        (canStartNow clk (model p) (reservationTokens p) s).1 = true ->
        (generate clk p s).2 = Some p
        /\ queue (generate clk p s).1 = queue s).
Proof.
  split; [|split].
  - pose proof (foldl_orderKept (queue s) cs (s, noLog)) as H.
    unfold run. destruct (foldl _ _ cs) as [s' l].
    unfold orderKept in H. simpl in H. apply H. by rewrite app_nil_r.
  - intros Hcs.
    pose proof (foldl_inOrder (queue s) cs (s, noLog) Hcs) as H.
    unfold run. destruct (foldl _ _ cs) as [s' l].
    unfold inOrder in H. simpl in H. apply H. by rewrite app_nil_r.
  - intros clk p. apply generate_starts_at_once.
Qed.

Lemma queued_requests_start_in_order_witness :
  let s := (generate (at_ 7000) reqA flashBusy).1 in
  let cs := [Submit (at_ 7001) reqB; Tick (at_ 61000)] in
  (canStartNow (at_ 7001) (model reqB) (reservationTokens reqB) s).1 = true
  /\ forallb (fun c => negb (isCancel c)) cs = true
  /\ ((generate (at_ 7001) reqB s).2 = Some reqB
      /\ queue (generate (at_ 7001) reqB s).1 = queue s)
  /\ (let '(s', l) := run cs s in
      dequeued l ++ queue s' = queue s ++ enqueued l).
Proof.
  intros s cs.
  assert (H : (canStartNow (at_ 7001) (model reqB) (reservationTokens reqB)
                 s).1 = true) by (vm_compute; reflexivity).
  assert (Hcs : forallb (fun c => negb (isCancel c)) cs = true)
    by reflexivity.
  destruct (queued_requests_start_in_order cs s) as (_ & Hrun & Hgen).
  split; [exact H|]. split; [exact Hcs|].
  split; [exact (Hgen (at_ 7001) reqB H)|exact (Hrun Hcs)].
Defined.

(** C2 as stated fails: with 200,000 tokens of flash in use, request A
    (flash, 100,000 tokens) is queued; request B (flash, 1,000 tokens),
    submitted a millisecond later, is started at once while A is still in
    the queue. *)
Lemma later_request_overtakes_queued_one :
  let '(s, l) := run [Submit (at_ 7000) reqA; Submit (at_ 7001) reqB]
                   flashBusy in
  model reqA = model reqB
  /\ enqueuedAt reqA < enqueuedAt reqB
  /\ enqueued l = [reqA]
  /\ direct l = [reqB]
  /\ queue s = [reqA].
Proof. vm_compute. repeat split; reflexivity. Qed.

End QueueFacts.

(** ** The conversation memory *)

Section MemoryFacts.

Import Memory TokenCounter Scenario.

Variable ai : AiRequest -> AiReply.
Variable categorizeSummary : jsstring -> SummaryCategory.

(** C5, as amended: [addMessage] runs the summarization exactly when the
    buffer, the new message included, holds at least
    [summarizationTrigger.minMessages] messages and, in addition, holds
    more than [maxRecentMessages] messages or more than
    [summarizationTrigger.maxTokens] estimated tokens; otherwise it only
    appends the message and issues no auxiliary request. *)
Theorem summarization_trigger t rnd ts tc r txt m :
  let m1 := pushMessage t rnd r txt m in
  let len := Z.of_nat (length (recentMessages m1)) in
  addMessage ai categorizeSummary t rnd ts tc r txt m
  = if (minMessages (config m) <=? len)
       && ((maxRecentMessages (config m) <? len)
           || (maxTokens (config m) <? recentTokens (recentMessages m1)))
    then summarizeOldMessages ai categorizeSummary ts tc m1
    else (m1, []).
Proof.
  intros m1 len. unfold addMessage, checkAndSummarize, summarizationDue.
  fold m1. change (config m1) with (config m). fold len.
  destruct (len <? minMessages (config m)) eqn:E1;
    destruct (minMessages (config m) <=? len) eqn:E2; try lia; reflexivity.
Qed.

Lemma length_doubled n t : length (doubled n t) = (2 ^ n * length t)%nat.
Proof.
  revert t. induction n as [|n IH]; intros t; simpl doubled.
  - simpl. lia.
  - rewrite IH, length_app. rewrite Nat.pow_succ_r'. lia.
Qed.

Lemma doubled_cons n c t : exists r, doubled n (c :: t) = c :: r.
Proof.
  revert c t. induction n as [|n IH]; intros c t; simpl; eauto.
Qed.

Lemma longText_tokens : estimate_as CtMixed longText = 32768.
Proof.
  unfold longText. destruct (doubled_cons 17 97%N []) as [r Hr].
  change (js "a") with [97%N]. unfold estimate_as, estimate.
  assert (Hlen : jslength (doubled 17 [97%N]) = 131072).
  { unfold jslength. rewrite length_doubled. reflexivity. }
  rewrite Hr in *. cbv zeta. rewrite Hlen. reflexivity.
Qed.

(** C5 as stated fails: one message of 32,768 estimated tokens, above the
    25,000 of the default configuration, is added to an empty conversation
    and no summarization runs, the buffer being below [minMessages]. *)
Lemma token_threshold_alone_does_not_trigger :
  let m1 := pushMessage T0 (js "x") user longText freshMemory in
  maxTokens (config m1) < recentTokens (recentMessages m1)
  /\ Z.of_nat (length (recentMessages m1)) < minMessages (config m1)
  /\ addMessage projectMemoryReply (fun _ => general) T0 (js "x")
       (T0 + 1) (T0 + 2) user longText freshMemory
     = (m1, []).
Proof.
  intros m1.
  assert (Htok : recentTokens (recentMessages m1) = 32768).
  { change (recentTokens (recentMessages m1))
      with (0 + estimate_as CtMixed longText).
    rewrite longText_tokens. reflexivity. }
  split; [rewrite Htok; reflexivity|].
  split; [reflexivity|].
  unfold addMessage, checkAndSummarize, summarizationDue. fold m1.
  reflexivity.
Qed.

Lemma slice_all_but_last {A} (l : list A) :
  slice l 0 (Some (-1)) = take (length l - 1) l.
Proof.
  unfold slice, clampIndex. simpl.
  replace (Z.to_nat (Z.max (Z.of_nat (length l) + -1) 0
                     - Z.min 0 (Z.of_nat (length l))))
    with (length l - 1)%nat by lia.
  replace (Z.to_nat (Z.min 0 (Z.of_nat (length l)))) with 0%nat by lia.
  reflexivity.
Qed.

Lemma compressMemoryBank_small t m :
  (length (summaries (memoryBank m)) < 3)%nat ->
  compressMemoryBank ai t m = (m, []).
Proof.
  intros H. unfold compressMemoryBank.
  destruct (Z.of_nat (length (summaries (memoryBank m))) <? 3) eqn:E;
    [reflexivity|lia].
Qed.

Lemma compressMemoryBank_large t m :
  (3 <= length (summaries (memoryBank m)))%nat ->
  let old := take (length (summaries (memoryBank m)) - 1)
               (summaries (memoryBank m)) in
  exists newest,
    last (summaries (memoryBank m)) = Some newest
    /\ compressMemoryBank ai t m
       = match usableText (ai (CompressRequest (summary <$> old))) with
         | Some txt =>
             let compressed :=
               {| sum_id := CompressedId t; summary := txt;
                  originalMessageIds := concat (originalMessageIds <$> old);
                  createdAt := t; category := general;
                  sum_estimatedTokens := Some (estimate_as CtNatural txt) |} in
             (set_bank
                {| summaries := [compressed; newest];
                   totalTokens :=
                     estimate_as CtNatural txt
                     + default 0 (sum_estimatedTokens newest);
                   version := version (memoryBank m);
                   lastCompressedAt := Some t |} m,
              [CompressRequest (summary <$> old)])
         | None => (m, [CompressRequest (summary <$> old)])
         end.
Proof.
  intros H old. unfold compressMemoryBank.
  destruct (Z.of_nat (length (summaries (memoryBank m))) <? 3) eqn:E; [lia|].
  destruct (last (summaries (memoryBank m))) as [newest|] eqn:El.
  - exists newest. split; [reflexivity|].
    rewrite slice_all_but_last. fold old.
    destruct (usableText (ai (CompressRequest (summary <$> old))));
      reflexivity.
  - apply last_None in El. rewrite El in H. simpl in H. lia.
Qed.

(** C7, as amended: with fewer than 3 summaries [compressMemoryBank]
    leaves the memory as it is and calls nobody; with at least 3 summaries
    and an auxiliary reply whose text is not blank (non-empty once
    trimmed), the bank afterwards holds exactly two entries: the
    meta-summary, made of the trimmed reply and of the message ids of all
    summaries but the newest, and the previously newest summary, as it
    was. *)
Theorem compression_outcome t m raw :
  let old := take (length (summaries (memoryBank m)) - 1)
               (summaries (memoryBank m)) in
  ((length (summaries (memoryBank m)) < 3)%nat ->
   compressMemoryBank ai t m = (m, []))
  /\ ((3 <= length (summaries (memoryBank m)))%nat ->
      ai (CompressRequest (summary <$> old)) = Replies raw ->
      trim raw <> [] ->
      exists newest,
        last (summaries (memoryBank m)) = Some newest
        /\ summaries (memoryBank (compressMemoryBank ai t m).1)
           = [{| sum_id := CompressedId t; summary := trim raw;
                 originalMessageIds := concat (originalMessageIds <$> old);
                 createdAt := t; category := general;
                 sum_estimatedTokens :=
                   Some (estimate_as CtNatural (trim raw)) |};
              newest]).
Proof.
  intros old. split; [apply compressMemoryBank_small|].
  intros Hlen Hreply Htext.
  destruct (compressMemoryBank_large t m Hlen) as (newest & Hlast & Heq).
  exists newest. split; [exact Hlast|].
  rewrite Heq. fold old. rewrite Hreply. unfold usableText.
  destruct (trim raw) eqn:Et; [congruence|]. reflexivity.
Qed.

End MemoryFacts.

Section MemoryExamples.

Import Memory TokenCounter Scenario.

Lemma compression_outcome_witness :
  let old := take 2 (summaries (memoryBank fullBank)) in
  (3 <= length (summaries (memoryBank fullBank)))%nat
  /\ projectMemoryReply (CompressRequest (summary <$> old))
     = Replies (js " Project: blink on Uno ")
  /\ trim (js " Project: blink on Uno ") <> []
  /\ exists newest,
       last (summaries (memoryBank fullBank)) = Some newest
       /\ summaries
            (memoryBank (compressMemoryBank projectMemoryReply T0 fullBank).1)
          = [{| sum_id := CompressedId T0;
                summary := trim (js " Project: blink on Uno ");
                originalMessageIds := concat (originalMessageIds <$> old);
                createdAt := T0; category := general;
                sum_estimatedTokens :=
                  Some (estimate_as CtNatural
                          (trim (js " Project: blink on Uno "))) |};
             newest].
Proof.
  intros old.
  assert (H1 : (3 <= length (summaries (memoryBank fullBank)))%nat)
    by (vm_compute; lia).
  assert (H3 : trim (js " Project: blink on Uno ") <> [])
    by (vm_compute; discriminate).
  split; [exact H1|]. split; [reflexivity|]. split; [exact H3|].
  exact (proj2 (compression_outcome projectMemoryReply T0 fullBank
                  (js " Project: blink on Uno "))
           H1 eq_refl H3).
Defined.

(** C7 as stated fails: with three summaries and a reply that is not
    empty but blank, the bank keeps its three entries. *)
Lemma blank_reply_leaves_bank :
  blankReply (CompressRequest (summary <$> take 2 (summaries (memoryBank fullBank))))
  = Replies (js "  ")
  /\ js "  " <> []
  /\ (compressMemoryBank blankReply T0 fullBank).1 = fullBank
  /\ length (summaries (memoryBank (compressMemoryBank blankReply T0 fullBank).1))
     = 3%nat.
Proof.
  split; [reflexivity|]. split; [discriminate|].
  split; vm_compute; reflexivity.
Qed.

End MemoryExamples.

(** ** The executor *)

Section ExecutorFacts.

Import Service Executor Scenario.

(** The quota message of the API is classified as quota, not as rate
    limit, although its status is 429. *)
Example classify_quota_429 :
  classifyError
    (upstreamError "Resource has been exhausted (e.g. check quota)." 429)
  = {| retryable := false; category := quota;
       message := js "Resource has been exhausted (e.g. check quota)." |}.
Proof. reflexivity. Qed.

Example classify_overloaded :
  classifyError
    (upstreamError "The model is overloaded. Please try again later." 503)
  = {| retryable := true; category := other;
       message := js "Gemini API overloaded - retrying..." |}.
Proof. reflexivity. Qed.

(** A parse failure is retried with the network delay: its rewritten
    message matches none of the service patterns. *)
Example classify_stream_parse :
  let c := classifyError (plainError "Failed to parse stream") in
  retryable c = true /\ baseDelay (message c) = NETWORK_RETRY_BASE_DELAY.
Proof. split; reflexivity. Qed.

Lemma retryable_classes e :
  retryable (classifyError e) = negb (fatalClass e) && retryClass e.
Proof.
  unfold classifyError, fatalClass, retryClass.
  destruct (isAbort e); [reflexivity|].
  destruct (isAuth e); [reflexivity|].
  destruct (isQuota e); [reflexivity|].
  destruct (isRate e); [reflexivity|].
  destruct (isOverloaded e); [reflexivity|].
  destruct (isStreamParse e); [reflexivity|].
  destruct (isFetch e); [reflexivity|].
  destruct (is5xx e); reflexivity.
Qed.


Lemma auth_quota_not_retryable e :
  retryable (classifyError e) = true ->
  category (classifyError e) <> auth /\ category (classifyError e) <> quota.
Proof.
  unfold classifyError.
  repeat match goal with
         | |- context [if ?b then _ else _] => destruct b
         end; simpl; intros H; split; congruence.
Qed.


Lemma fatal_never_backs_off e attempt tnt tns :
  fatalClass e = true -> isBackoff (onFailure false e attempt tnt tns) = false.
Proof.
  intros Hf. unfold onFailure.
  destruct (negb tnt && rejectsThinking (errorText e)); [reflexivity|].
  destruct (negb tns && rejectsSearch (errorText e)); [reflexivity|].
  pose proof (retryable_classes e) as Hr. rewrite Hf in Hr. simpl in Hr.
  rewrite Hr. simpl. destruct (category (classifyError e)); reflexivity.
Qed.







Lemma pacing_deltas key m t s : Forall isDelta (pacing key m t s).
Proof.
  unfold pacing. destruct (_ <? _); repeat constructor.
Qed.

Lemma onChunk_deltas key c full hc :
  Forall isDelta (onChunk key c full hc).1.1.
Proof.
  unfold onChunk.
  destruct (negb (hc || hasFunctionCall (parts c))).
  - destruct (nonEmpty (chunkText c)); simpl; repeat constructor.
  - simpl. apply Forall_fmap. apply Forall_true. intros t. reflexivity.
Qed.

Lemma abortBy_timer_only key a i ctl :
  (forall n, abortAt a <> Some (n, UserCancel)) ->
  (match abortAt a with
   | Some (n, cause) =>
       if decide (n = i) then abortBy key cause ctl else ([], ctl)
   | None => ([], ctl)
   end).1 = [].
Proof.
  intros H. destruct (abortAt a) as [[n cause]|] eqn:E; [|reflexivity].
  destruct (decide (n = i)); [|reflexivity].
  destruct cause; [exfalso; by eapply H|reflexivity].
Qed.

Lemma streamLoop_deltas key a cs :
  (forall n, abortAt a <> Some (n, UserCancel)) ->
  forall i ctl full hc last,
    Forall isDelta (loop_events (streamLoop key a cs i ctl full hc last)).
Proof.
  intros H. induction cs as [|c cs IH]; intros i ctl full hc last;
    simpl; pose proof (abortBy_timer_only key a i ctl H) as Hab;
    destruct (match abortAt a with
              | Some (n, cause) =>
                  if decide (n = i) then abortBy key cause ctl else ([], ctl)
              | None => ([], ctl)
              end) as [abortEv ctl']; simpl in Hab; subst abortEv.
  - constructor.
  - destruct (signalAborted ctl'); simpl; [constructor|].
    pose proof (onChunk_deltas key c full hc) as Hc.
    destruct (onChunk key c full hc) as [[ev full'] hc']. simpl in *.
    apply Forall_app. split; [exact Hc|apply IH].
Qed.

Lemma streamingCall_events key a ctl :
  (forall n, abortAt a <> Some (n, UserCancel)) ->
  match (streamingCall key a ctl).1.2 with
  | inl _ =>
      exists ds, (streamingCall key a ctl).1.1 = ds ++ [Done key]
                 /\ Forall isDelta ds
  | inr _ => Forall isDelta (streamingCall key a ctl).1.1
  end.
Proof.
  intros H. unfold streamingCall.
  pose proof (streamLoop_deltas key a (chunks a) H 0%nat ctl [] false None)
    as Hd.
  destruct (loop_end _); simpl; try exact Hd.
  destruct (signalAborted _); simpl; [exact Hd|].
  destruct (negb _ && negb _); simpl; [exact Hd|].
  eexists. split; [reflexivity|exact Hd].
Qed.

(** Unless [cancel(key)] is called, a run sends deltas only, followed by
    one done event when, and only when, the promise resolves: a failure
    is never announced on the stream. *)
Lemma stream_events_without_cancel key m reservation script :
  Forall noUserCancel script ->
  forall attempt tnt tns ctl s,
    let r := retryLoop key m reservation script attempt tnt tns ctl s in
    match run_outcome r with
    | Resolved _ =>
        exists ds, run_events r = ds ++ [Done key] /\ Forall isDelta ds
    | _ => Forall isDelta (run_events r)
    end.
Proof.
  induction 1 as [|a rest [Ha Hb] Hrest IH]; intros attempt tnt tns ctl s;
    [constructor|].
  simpl.
  pose proof (pacing_deltas key m (t_pace a) s) as Hp.
  pose proof (streamingCall_events key a ctl Ha) as Hs.
  destruct (streamingCall key a ctl) as [[ev result] ctl']. simpl in Hs.
  destruct result as [res|e].
  - destruct Hs as (ds & -> & Hds).
    destruct (afterResponse _ _ _ _ _) as [s2 res']. simpl.
    exists (pacing key m (t_pace a) s ++ ds).
    split; [by rewrite app_assoc|]. by apply Forall_app.
  - assert (Hpe : Forall isDelta (pacing key m (t_pace a) s ++ ev))
      by (by apply Forall_app).
    assert (Hcont : forall pre (r : Run),
               Forall isDelta pre ->
               match run_outcome r with
               | Resolved _ =>
                   exists ds, run_events r = ds ++ [Done key]
                              /\ Forall isDelta ds
               | _ => Forall isDelta (run_events r)
               end ->
               match run_outcome (andThen pre r) with
               | Resolved _ =>
                   exists ds, run_events (andThen pre r) = ds ++ [Done key]
                              /\ Forall isDelta ds
               | _ => Forall isDelta (run_events (andThen pre r))
               end).
    { intros pre r Hpre Hr. unfold andThen. simpl.
      destruct (run_outcome r).
      - destruct Hr as (ds & -> & Hds). exists (pre ++ ds).
        split; [by rewrite app_assoc|]. by apply Forall_app.
      - by apply Forall_app.
      - by apply Forall_app. }
    destruct (onFailure _ _ _ _ _); simpl; try exact Hpe.
    + apply Hcont; [exact Hpe|apply IH].
    + apply Hcont; [exact Hpe|apply IH].
    + assert (Hnotice :
                forall svc d,
                  Forall isDelta
                    (pacing key m (t_pace a) s
                     ++ ev ++ [Delta key (RetryNotice svc d)] ++ [])).
      { intros svc d. rewrite app_nil_r.
        apply Forall_app. split; [exact Hp|].
        apply Forall_app. split; [exact Hs|repeat constructor]. }
      destruct (abortInBackoff a) as [[|]|] eqn:E; [congruence| |]; simpl;
        (apply Hcont; [apply Hnotice|apply IH]).
Qed.

Lemma onFailure_retry_inv ab e n tnt tns :
  match onFailure ab e n tnt tns with
  | RetryWithoutThinking => tnt = false
  | RetryWithoutSearch => tns = false
  | Backoff _ _ => n < maxRetries
  | _ => True
  end.
Proof.
  unfold onFailure. destruct ab; [exact I|].
  destruct tnt, tns; simpl;
    repeat match goal with
           | |- context [if ?b then _ else _] => destruct b eqn:?
           | |- context [match category ?c with _ => _ end] =>
               destruct (category c)
           end; try exact I; try reflexivity;
    match goal with
    | H : _ && (_ <? _) = true |- _ =>
        apply andb_true_iff in H as [_ H]; lia
    end.
Qed.

(** The loop settles the promise within seven attempts: at most four
    backoffs and the two one-shot retries come before the last one. *)
Lemma retryLoop_settles key m reservation script :
  forall attempt (tnt tns : bool) ctl s,
    (Z.to_nat (maxRetries - attempt)
     + (if tnt then 0 else 1) + (if tns then 0 else 1) < length script)%nat ->
    run_outcome (retryLoop key m reservation script attempt tnt tns ctl s)
    <> ScriptExhausted.
Proof.
  induction script as [|a rest IH]; intros attempt tnt tns ctl s Hlen;
    [simpl in Hlen; lia|].
  simpl. simpl in Hlen.
  destruct (streamingCall key a ctl) as [[ev result] ctl'].
  destruct result as [res|e].
  - destruct (afterResponse _ _ _ _ _). simpl. discriminate.
  - pose proof (onFailure_retry_inv (signalAborted ctl') e attempt tnt tns)
      as Hinv.
    destruct (onFailure _ _ _ _ _); simpl; try discriminate.
    + subst tnt. apply IH. destruct tns; lia.
    + subst tns. apply IH. destruct tnt; lia.
    + destruct (match abortInBackoff a with
                | Some cause => abortBy key cause ctl'
                | None => ([], ctl')
                end) as [abortEv ctl'']. simpl.
      apply IH. destruct tnt, tns; lia.
Qed.

(** C8: the executor reports a failure by rejecting the promise and sends
    no terminal event for it, and a cancellation that arrives during a
    backoff delay is followed by a further delta.  With a rejected API key
    the client receives no event at all; with a connection failure
    canceled during the backoff it receives the retry notice, the
    'Canceled' error, and then the pacing notice of the next attempt.  A
    stream of three pieces that ends normally gives three deltas and one
    done. *)
Theorem stream_contract_violated :
  let k := js "k" in
  let r1 := executeStandardGeneration k Flash 1000 rejectedKey inFlight in
  let r2 := executeStandardGeneration k Flash 1000 canceledInBackoff inFlight in
  let r3 := executeStandardGeneration k Flash 1000 threeDeltas inFlight in
  (run_events r1 = []
   /\ run_outcome r1 = Failed (js "Gemini authentication failed. Check API key.")
   /\ deltasThenTerminal (run_events r1) = false)
  /\ (run_events r2
      = [Delta k (RetryNotice false 1000); Error k (js "Canceled");
         Delta k (PacingNotice 4500)]
      /\ run_outcome r2 = Failed (js "Generation canceled.")
      /\ deltasThenTerminal (run_events r2) = false)
  /\ (run_events r3
      = [Delta k (StreamText (js "Use ")); Delta k (StreamText (js "pin "));
         Delta k (StreamText (js "13.")); Done k]
      /\ deltasThenTerminal (run_events r3) = true).
Proof. vm_compute. repeat split; reflexivity. Qed.

End ExecutorFacts.

(** ** The cleanup and the admission *)

Section CleanupFacts.

Import Service Scheduler Scenario Quota.

Lemma expiredCount_live {A} (stamp : A -> Z) cutoff (l : list A) :
  expiredCount stamp cutoff (live stamp cutoff l) = 0.
Proof.
  unfold expiredCount, live.
  induction l as [|x l IH]; [reflexivity|].
  destruct (decide (cutoff <= stamp x)) as [H|H].
  - rewrite filter_cons_True by exact H.
    rewrite filter_cons_False by lia. exact IH.
  - rewrite filter_cons_False by exact H. exact IH.
Qed.

Lemma shouldClean_live {A} (stamp : A -> Z) cutoff (l : list A) :
  shouldClean stamp cutoff (live stamp cutoff l) = false.
Proof.
  unfold shouldClean. destruct (live stamp cutoff l) as [|x k] eqn:E;
    [reflexivity|].
  rewrite <- E, expiredCount_live. apply Z.ltb_ge. lia.
Qed.

Lemma cleanList_settled {A} (stamp : A -> Z) cutoff (l l' : list A) :
  cleanList stamp cutoff l = Some l' -> shouldClean stamp cutoff l' = false.
Proof.
  unfold cleanList. destruct (shouldClean stamp cutoff l) eqn:E.
  - destruct (live stamp cutoff l) as [|x k] eqn:El; [discriminate|].
    intros [= <-]. rewrite <- El. apply shouldClean_live.
  - intros [= <-]. exact E.
Qed.

Lemma anyCleaned_false {A} (stamp : A -> Z) cutoff (m : gmap Model (list A)) :
  anyCleaned stamp cutoff m = false
  <-> forall k l, m !! k = Some l -> shouldClean stamp cutoff l = false.
Proof.
  unfold anyCleaned. split.
  - intros H k l Hk.
    destruct (shouldClean stamp cutoff l) eqn:E; [|reflexivity].
    assert (existsb (fun kv => shouldClean stamp cutoff kv.2) (map_to_list m)
            = true) as Ht.
    { apply existsb_exists. exists (k, l). split; [|exact E].
      apply list_elem_of_In, elem_of_map_to_list. exact Hk. }
    congruence.
  - intros H.
    destruct (existsb _ _) eqn:E; [|reflexivity].
    apply existsb_exists in E as [[k l] [Hin Hc]].
    apply list_elem_of_In, elem_of_map_to_list in Hin.
    simpl in Hc. rewrite (H k l Hin) in Hc. discriminate.
Qed.

Lemma cleanAll_settled {A} (stamp : A -> Z) cutoff (m : gmap Model (list A)) :
  anyCleaned stamp cutoff (cleanAll stamp cutoff m) = false.
Proof.
  apply anyCleaned_false. intros k l. rewrite lookup_cleanAll.
  destruct (m !! k) as [l0|]; [|discriminate]. simpl.
  apply cleanList_settled.
Qed.

Lemma cleanAll_id {A} (stamp : A -> Z) cutoff (m : gmap Model (list A)) :
  anyCleaned stamp cutoff m = false -> cleanAll stamp cutoff m = m.
Proof.
  intros H. apply map_eq. intros k. rewrite lookup_cleanAll.
  destruct (m !! k) as [l|] eqn:E; [|reflexivity]. simpl.
  unfold cleanList.
  rewrite (proj1 (anyCleaned_false stamp cutoff m) H k l E). reflexivity.
Qed.

Lemma settled_cleanWindows clk s : settled clk (cleanWindows clk s).
Proof. repeat split; apply cleanAll_settled. Qed.

Lemma cleanWindows_settled clk s :
  settled clk s ->
  tokenWindows (cleanWindows clk s) = tokenWindows s
  /\ recentCalls (cleanWindows clk s) = recentCalls s
  /\ dailyCalls (cleanWindows clk s) = dailyCalls s.
Proof.
  intros (H1 & H2 & H3). repeat split; cbn; apply cleanAll_id; assumption.
Qed.

Lemma cleanWindows_twice clk s :
  cleanWindows clk (cleanWindows clk s) = cleanWindows clk s.
Proof.
  destruct (cleanWindows_settled clk _ (settled_cleanWindows clk s))
    as (Hw & Hr & Hd).
  destruct (settled_cleanWindows clk s) as (S1 & S2 & S3).
  unfold cleanWindows at 1.
  rewrite S1, S2, S3. cbn [orb].
  change (cleanAll time (now clk - ROLLING_WINDOW_MS)
            (tokenWindows (cleanWindows clk s)))
    with (tokenWindows (cleanWindows clk (cleanWindows clk s))).
  change (cleanAll id (now clk - ROLLING_WINDOW_MS)
            (recentCalls (cleanWindows clk s)))
    with (recentCalls (cleanWindows clk (cleanWindows clk s))).
  change (cleanAll id (pacificMidnight clk)
            (dailyCalls (cleanWindows clk s)))
    with (dailyCalls (cleanWindows clk (cleanWindows clk s))).
  rewrite Hw, Hr, Hd.
  assert (Hc1 : (if decide (size (cachedRpmLists (cleanWindows clk s)) = 0%nat)
                 then live id (now clk - ROLLING_WINDOW_MS)
                        <$> recentCalls (cleanWindows clk s)
                 else cachedRpmLists (cleanWindows clk s))
                = cachedRpmLists (cleanWindows clk s)).
  { destruct (decide (size (cachedRpmLists (cleanWindows clk s)) = 0%nat))
      as [Hz|]; [|reflexivity].
    revert Hz. cbn.
    destruct (_ || _); [reflexivity|].
    destruct (decide (size (cachedRpmLists s) = 0%nat)); [reflexivity|].
    intros; contradiction. }
  assert (Hc2 : (if decide (size (cachedDailyLists (cleanWindows clk s)) = 0%nat)
                 then live id (pacificMidnight clk)
                        <$> dailyCalls (cleanWindows clk s)
                 else cachedDailyLists (cleanWindows clk s))
                = cachedDailyLists (cleanWindows clk s)).
  { destruct (decide (size (cachedDailyLists (cleanWindows clk s)) = 0%nat))
      as [Hz|]; [|reflexivity].
    revert Hz. cbn.
    destruct (_ || _); [reflexivity|].
    destruct (decide (size (cachedDailyLists s) = 0%nat)); [reflexivity|].
    intros; contradiction. }
  rewrite Hc1, Hc2. destruct (cleanWindows clk s); reflexivity.
Qed.


Lemma live_lookup_cleanAll {A} (stamp : A -> Z) cutoff
  (m : gmap Model (list A)) k :
  live stamp cutoff (default [] (cleanAll stamp cutoff m !! k))
  = live stamp cutoff (default [] (m !! k)).
Proof.
  rewrite lookup_cleanAll. destruct (m !! k) as [l|]; [|reflexivity].
  apply live_cleanList.
Qed.

Lemma windowTokens_snoc l e : windowTokens (l ++ [e]) = windowTokens l + tokens e.
Proof. unfold windowTokens. rewrite foldl_app. reflexivity. Qed.

Lemma currentUsedTokens_pushWindow m e s :
  currentUsedTokens (pushWindow m e s) = currentUsedTokens s + tokens e.
Proof.
  rewrite !currentUsedTokens_both.
  destruct m; cbn [pushWindow set_tokenWindows tokenWindows];
    rewrite lookup_insert_eq, lookup_insert_ne by discriminate;
    change (default [] (Some ?x)) with x; rewrite windowTokens_snoc;
    cbn [tokenWindows]; lia.
Qed.

Lemma shouldClean_snoc {A} (stamp : A -> Z) cutoff (l : list A) e :
  shouldClean stamp cutoff l = false -> cutoff <= stamp e ->
  shouldClean stamp cutoff (l ++ [e]) = false.
Proof.
  intros Hl He.
  assert (Hexp : expiredCount stamp cutoff (l ++ [e])
                 = expiredCount stamp cutoff l).
  { unfold expiredCount. rewrite filter_app, filter_cons_False by lia.
    rewrite filter_nil, app_nil_r. reflexivity. }
  unfold shouldClean in *.
  destruct l as [|x l]; cbn [app].
  - change ([e]) with ([] ++ [e]). rewrite Hexp. reflexivity.
  - change (x :: l ++ [e]) with ((x :: l) ++ [e]). rewrite Hexp.
    apply Z.ltb_ge in Hl. apply Z.ltb_ge.
    rewrite length_app. cbn [length] in *. lia.
Qed.

Lemma anyCleaned_insert_snoc {A} (stamp : A -> Z) cutoff
  (m : gmap Model (list A)) k e :
  anyCleaned stamp cutoff m = false -> cutoff <= stamp e ->
  anyCleaned stamp cutoff (<[k := default [] (m !! k) ++ [e]]> m) = false.
Proof.
  intros Hm He. apply anyCleaned_false. intros j l.
  destruct (decide (j = k)) as [->|Hne].
  - rewrite lookup_insert_eq. intros [= <-].
    apply shouldClean_snoc; [|exact He].
    destruct (m !! k) as [l0|] eqn:E; [|reflexivity].
    exact (proj1 (anyCleaned_false stamp cutoff m) Hm k l0 E).
  - rewrite lookup_insert_ne by congruence.
    apply (proj1 (anyCleaned_false stamp cutoff m) Hm).
Qed.

(** The windows after an admission on a state just cleaned: the
    reservation is appended, nothing is pruned. *)
Lemma tokenWindows_startRequest clk p s :
  anyCleaned time (now clk - ROLLING_WINDOW_MS) (tokenWindows s) = false ->
  tokenWindows (startRequest clk p s)
  = tokenWindows
      (pushWindow (model p)
         {| time := now clk; tokens := reservationTokens p;
            reservation := true |} s).
Proof.
  intros Hs. unfold startRequest, pushQuotaUpdate, recordReservation.
  set (e := {| time := now clk; tokens := reservationTokens p;
               reservation := true |}).
  assert (He : anyCleaned time (now clk - ROLLING_WINDOW_MS)
                 (tokenWindows (pushWindow (model p) e s)) = false).
  { cbn [pushWindow set_tokenWindows tokenWindows].
    apply anyCleaned_insert_snoc; [exact Hs|]. unfold ROLLING_WINDOW_MS.
    cbn. lia. }
  rewrite tokenWindows_cleanWindows.
  change (tokenWindows (recordRpm clk (model p) ?x)) with (tokenWindows x).
  rewrite tokenWindows_cleanWindows.
  change (tokenWindows (pushWindow (model p) e (set_running ?a ?m s)))
    with (tokenWindows (pushWindow (model p) e s)).
  rewrite (cleanAll_id _ _ _ He). apply cleanAll_id, He.
Qed.

Lemma currentUsedTokens_eq s s' :
  tokenWindows s = tokenWindows s' -> currentUsedTokens s = currentUsedTokens s'.
Proof. unfold currentUsedTokens. intros ->. reflexivity. Qed.

Lemma currentUsedTokens_cleanWindows clk s :
  anyCleaned time (now clk - ROLLING_WINDOW_MS) (tokenWindows s) = false ->
  currentUsedTokens (cleanWindows clk s) = currentUsedTokens s.
Proof.
  intros Hs. apply currentUsedTokens_eq. rewrite tokenWindows_cleanWindows.
  apply cleanAll_id, Hs.
Qed.

Lemma currentUsedTokens_startRequest clk p s :
  anyCleaned time (now clk - ROLLING_WINDOW_MS) (tokenWindows s) = false ->
  currentUsedTokens (startRequest clk p s)
  = currentUsedTokens s + reservationTokens p.
Proof.
  intros Hs.
  rewrite (currentUsedTokens_eq _ _ (tokenWindows_startRequest clk p s Hs)).
  apply currentUsedTokens_pushWindow.
Qed.

(** X1: whenever [generate] or a queue cycle starts a request, the tokens
    booked in the rolling window afterwards are those left by the cleanup
    plus the reservation of the request, and they do not exceed the
    capacity of 250,000 tokens per minute. *)
Theorem admission_keeps_token_ceiling clk p s s' q :
  generate clk p s = (s', Some q) \/ runQueueCycle clk s = (s', Some q) ->
  currentUsedTokens s'
  = currentUsedTokens (cleanWindows clk s) + reservationTokens q
  /\ currentUsedTokens s' <= TOKEN_CAPACITY_PER_MINUTE.
Proof.
  assert (Hfit : forall r s0,
             tokensOk r s0 = true ->
             currentUsedTokens s0 + r <= TOKEN_CAPACITY_PER_MINUTE).
  { intros r s0 H. unfold tokensOk in H.
    apply negb_true_iff, Z.ltb_ge in H. exact H. }
  destruct (settled_cleanWindows clk s) as (Hset & _ & _).
  intros [H|H].
  - unfold generate, canStartNow in H.
    destruct (rpmOk _ _ && rpdOk _ _ && tokensOk _ _ && spacingOk _ _ _)
      eqn:Hok; [|discriminate].
    injection H as <- <-.
    apply andb_prop in Hok as [Hok _]. apply andb_prop in Hok as [_ Htok].
    rewrite currentUsedTokens_startRequest by exact Hset.
    split; [reflexivity|]. apply Hfit, Htok.
  - unfold runQueueCycle in H. rewrite queue_cleanWindows in H.
    destruct (queue s) as [|next rest]; [discriminate|].
    unfold canStartNow in H. rewrite cleanWindows_twice in H.
    destruct (rpmOk _ _ && rpdOk _ _ && tokensOk _ _ && spacingOk _ _ _)
      eqn:Hok; [|discriminate].
    injection H as <- <-.
    apply andb_prop in Hok as [Hok _]. apply andb_prop in Hok as [_ Htok].
    change (pushQuotaUpdate clk ?x) with (cleanWindows clk x).
    rewrite currentUsedTokens_cleanWindows
      by (unfold startRequest, pushQuotaUpdate; apply cleanAll_settled).
    rewrite currentUsedTokens_startRequest by exact Hset.
    change (currentUsedTokens (set_queue rest ?x)) with (currentUsedTokens x).
    split; [reflexivity|]. apply Hfit, Htok.
Qed.

Lemma admission_keeps_token_ceiling_witness :
  (generate (at_ 7001) reqB flashBusy
   = ((generate (at_ 7001) reqB flashBusy).1, Some reqB)
   \/ runQueueCycle (at_ 7001) flashBusy
      = ((generate (at_ 7001) reqB flashBusy).1, Some reqB))
  /\ currentUsedTokens (generate (at_ 7001) reqB flashBusy).1 = 201000
  /\ currentUsedTokens (generate (at_ 7001) reqB flashBusy).1
     <= TOKEN_CAPACITY_PER_MINUTE.
Proof.
  assert (H : generate (at_ 7001) reqB flashBusy
              = ((generate (at_ 7001) reqB flashBusy).1, Some reqB))
    by (vm_compute; reflexivity).
  split; [left; exact H|].
  destruct (admission_keeps_token_ceiling (at_ 7001) reqB flashBusy _ reqB
              (or_introl H)) as [_ Hle].
  split; [vm_compute; reflexivity|exact Hle].
Defined.


Lemma live_now_snoc clk (l : list Z) :
  live id (now clk - ROLLING_WINDOW_MS) (l ++ [now clk])
  = live id (now clk - ROLLING_WINDOW_MS) l ++ [now clk].
Proof.
  rewrite live_app. f_equal. unfold live.
  rewrite filter_cons_True, filter_nil; [reflexivity|].
  unfold ROLLING_WINDOW_MS. cbn. lia.
Qed.

(** X2: an admission books exactly one entry in each rolling window of the
    model of the request: among the entries of the last minute, its token
    window gains the reservation and its call list gains the present
    instant; the live entries of every other model are as they were.  The
    request is registered for cancellation and becomes the last used
    model; the queue is not touched. *)
Theorem startRequest_books_one_entry clk p s k :
  let cutoff := now clk - ROLLING_WINDOW_MS in
  let s' := startRequest clk p s in
  live time cutoff (default [] (tokenWindows s' !! k))
  = live time cutoff (default [] (tokenWindows s !! k))
    ++ (if decide (k = model p)
        then [{| time := now clk; tokens := reservationTokens p;
                 reservation := true |}]
        else [])
  /\ live id cutoff (default [] (recentCalls s' !! k))
     = live id cutoff (default [] (recentCalls s !! k))
       ++ (if decide (k = model p) then [now clk] else [])
  /\ abortKey p ∈ abortControllers s'
  /\ lastUsedModel s' = model p
  /\ queue s' = queue s.
Proof.
  intros cutoff s'. subst s'. unfold startRequest, pushQuotaUpdate.
  repeat split.
  - rewrite tokenWindows_cleanWindows, live_lookup_cleanAll.
    change (tokenWindows (recordRpm clk (model p) ?x)) with (tokenWindows x).
    unfold recordReservation.
    rewrite tokenWindows_cleanWindows, live_lookup_cleanAll.
    cbn [pushWindow set_tokenWindows set_running tokenWindows].
    destruct (decide (k = model p)) as [->|Hne].
    + rewrite lookup_insert_eq. change (default [] (Some ?x)) with x.
      rewrite live_app. f_equal. unfold live.
      rewrite filter_cons_True, filter_nil; [reflexivity|].
      unfold cutoff, ROLLING_WINDOW_MS. cbn. lia.
    + rewrite lookup_insert_ne by congruence. rewrite app_nil_r. reflexivity.
  - change (recentCalls (cleanWindows clk ?x))
      with (cleanAll id cutoff (recentCalls x)).
    rewrite live_lookup_cleanAll.
    cbn [recordRpm set_calls recentCalls].
    assert (Hprev : forall j,
               live id cutoff
                 (default []
                    (recentCalls
                       (recordReservation clk (model p) (reservationTokens p)
                          (set_running ({[abortKey p]} ∪ abortControllers s)
                             (model p) s)) !! j))
               = live id cutoff (default [] (recentCalls s !! j))).
    { intros j. unfold recordReservation.
      change (recentCalls (cleanWindows clk ?x))
        with (cleanAll id cutoff (recentCalls x)).
      rewrite live_lookup_cleanAll. reflexivity. }
    destruct (decide (k = model p)) as [->|Hne].
    + rewrite lookup_insert_eq. change (default [] (Some ?x)) with x.
      rewrite <- Hprev.
      destruct (RPM_CLEANUP_THRESHOLD <? _).
      * rewrite live_idem. apply live_now_snoc.
      * apply live_now_snoc.
    + rewrite lookup_insert_ne by congruence. rewrite app_nil_r. apply Hprev.
  - cbn. set_solver.
Qed.


Lemma sublist_lookup_cleanAll {A} (stamp : A -> Z) cutoff
  (m : gmap Model (list A)) k :
  default [] (cleanAll stamp cutoff m !! k) `sublist_of` default [] (m !! k).
Proof.
  rewrite lookup_cleanAll. destruct (m !! k) as [l|]; [|reflexivity].
  apply cleanList_sublist.
Qed.

(** X3: the lazy cleanup drops only what has left its window.  In each of
    the three dictionaries, the token windows and the calls of the last
    minute and of the day, the array of every model afterwards is what is
    left of the former one in the same order, and its entries that are
    still inside the window are all there; the queue, the last call
    instants and the running requests are not touched; and a second
    cleanup at the same instant changes nothing. *)
Theorem cleanWindows_drops_only_expired clk s k :
  let s' := cleanWindows clk s in
  let cutoff := now clk - ROLLING_WINDOW_MS in
  (default [] (tokenWindows s' !! k) `sublist_of` default [] (tokenWindows s !! k)
   /\ live time cutoff (default [] (tokenWindows s' !! k))
      = live time cutoff (default [] (tokenWindows s !! k)))
  /\ (default [] (recentCalls s' !! k) `sublist_of` default [] (recentCalls s !! k)
      /\ live id cutoff (default [] (recentCalls s' !! k))
         = live id cutoff (default [] (recentCalls s !! k)))
  /\ (default [] (dailyCalls s' !! k) `sublist_of` default [] (dailyCalls s !! k)
      /\ live id (pacificMidnight clk) (default [] (dailyCalls s' !! k))
         = live id (pacificMidnight clk) (default [] (dailyCalls s !! k)))
  /\ lastCallAt s' = lastCallAt s
  /\ queue s' = queue s
  /\ abortControllers s' = abortControllers s
  /\ cleanWindows clk s' = s'.
Proof.
  intros s' cutoff. subst s'.
  split; [split; [apply sublist_lookup_cleanAll|apply live_lookup_cleanAll]|].
  split; [split; [apply sublist_lookup_cleanAll|apply live_lookup_cleanAll]|].
  split; [split; [apply sublist_lookup_cleanAll|apply live_lookup_cleanAll]|].
  split; [reflexivity|]. split; [reflexivity|]. split; [reflexivity|].
  apply cleanWindows_twice.
Qed.

End CleanupFacts.

(** ** The queue cycle *)

Section CycleFacts.

Import Service Scheduler Scenario Quota Probe.



End CycleFacts.

(** ** Availability, output limit and reservation *)

Section AvailabilityFacts.

Import Service Scheduler Scenario Quota Probe.

Lemma tokenDelayFrom_nonneg nowT need window :
  forall cumulative, 0 <= tokenDelayFrom nowT need cumulative window.
Proof.
  induction window as [|e w IH]; intros c; cbn [tokenDelayFrom]; [lia|].
  destruct (_ <=? _); [lia|apply IH].
Qed.

(** X5: the instant that [computeNextAvailabilityMs] announces for the head
    of the queue is never in the past and never earlier than the minimum
    spacing after the last call of its model; with an empty queue it is
    the present instant; and when the head fits the token capacity, the
    calls of the last minute are under the limit and the spacing has
    passed, it is the present instant as well.  The two quota snapshots
    carry an instant that is not in the past either. *)
Theorem next_availability_not_in_the_past clk s :
  now clk <= computeNextAvailabilityMs clk s
  /\ (queue s = [] -> computeNextAvailabilityMs clk s = now clk)
  /\ (forall head rest,
        queue s = head :: rest ->
        default 0 (lastCallAt s !! model head) + minSpacing (model head)
        <= computeNextAvailabilityMs clk s
        /\ (tokensOk (reservationTokens head) s = true ->
            Z.of_nat (length (recentWithin (now clk)
                                (default [] (recentCalls s !! model head))))
            < rpmLimit (model head) ->
            spacingOk clk (model head) s = true ->
            computeNextAvailabilityMs clk s = now clk))
  /\ (forall m, now clk <= nextAvailableMs (quotaUpdate clk m s))
  /\ (forall name, now clk <= nextAvailableMs (getQuota clk name s)).
Proof.
  assert (Hge : forall s0, now clk <= computeNextAvailabilityMs clk s0).
  { intros s0. unfold computeNextAvailabilityMs.
    destruct (queue s0) as [|head rest]; [lia|].
    set (td := if _ <? _ then _ else 0).
    set (rl := recentWithin _ _).
    assert (0 <= td).
    { subst td. destruct (_ <? _); [apply tokenDelayFrom_nonneg|lia]. }
    lia. }
  split; [apply Hge|]. split.
  { unfold computeNextAvailabilityMs. intros ->. reflexivity. }
  split.
  { intros head rest Hq. unfold computeNextAvailabilityMs. rewrite Hq.
    split; [lia|].
    intros Htok Hrpm Hsp.
    unfold tokensOk in Htok. apply negb_true_iff in Htok. rewrite Htok.
    apply Z.leb_gt in Hrpm. rewrite Hrpm.
    unfold spacingOk in Hsp. apply negb_true_iff, Z.ltb_ge in Hsp. lia. }
  split.
  - intros m. unfold quotaUpdate. cbn [nextAvailableMs].
    destruct (queue (cleanWindows clk s)) eqn:E; [lia|]. apply Hge.
  - intros name. unfold getQuota. cbn [nextAvailableMs].
    destruct (queue (cleanWindows clk s)) eqn:E; [lia|]. apply Hge.
Qed.

Lemma next_availability_not_in_the_past_witness :
  queue oneQueued = [liteRequest 1 1000]
  /\ default 0 (lastCallAt oneQueued !! FlashLite) + minSpacing FlashLite
     <= computeNextAvailabilityMs (at_ 2000) oneQueued
  /\ computeNextAvailabilityMs (at_ 2000) oneQueued = T0 + 4001.
Proof.
  assert (Hq : queue oneQueued = [liteRequest 1 1000])
    by (vm_compute; reflexivity).
  split; [exact Hq|].
  destruct (next_availability_not_in_the_past (at_ 2000) oneQueued)
    as (_ & _ & H & _).
  split; [exact (proj1 (H _ _ Hq))|vm_compute; reflexivity].
Defined.

Lemma Qle_bool_false a b : Qle_bool a b = false -> (b < a)%Q.
Proof.
  intros H. apply Qnot_le_lt. intros Hle.
  apply Qle_bool_iff in Hle. congruence.
Qed.

(** X6: the output-token limit sent upstream is always a finite number
    above 0 and at most 65,536.  A requested number in that range is
    passed on unchanged, a fraction included, so that the limit can be
    below 1 and need not be an integer; a larger one, plus infinity
    included, is cut to 65,536; and a request that is no number, NaN, zero
    or negative becomes 16,384. *)
Theorem clampOutputTokens_range requested :
  (exists q, clampOutputTokens requested = Finite q
             /\ (0 < q)%Q /\ (q <= inject_Z MAX_OUTPUT_TOKENS)%Q)
  /\ (forall q, requested = Some (Finite q) ->
                (0 < q)%Q -> (q <= inject_Z MAX_OUTPUT_TOKENS)%Q ->
                clampOutputTokens requested = Finite q)
  /\ (forall q, requested = Some (Finite q) ->
                (inject_Z MAX_OUTPUT_TOKENS < q)%Q ->
                clampOutputTokens requested
                = Finite (inject_Z MAX_OUTPUT_TOKENS))
  /\ (requested = Some PlusInfinity ->
      clampOutputTokens requested = Finite (inject_Z MAX_OUTPUT_TOKENS))
  /\ (forall q, requested = Some (Finite q) -> (q <= 0)%Q ->
                clampOutputTokens requested = Finite (inject_Z 16384))
  /\ (requested = None \/ requested = Some NaN
      \/ requested = Some MinusInfinity ->
      clampOutputTokens requested = Finite (inject_Z 16384)).
Proof.
  assert (Hcap : (0 < inject_Z MAX_OUTPUT_TOKENS)%Q) by reflexivity.
  assert (Hdef : clampOutputTokens None = Finite (inject_Z 16384))
    by reflexivity.
  assert (Hpos : forall q, (0 < q)%Q -> Qle_bool q 0 = false).
  { intros q Hq. destruct (Qle_bool q 0) eqn:E; [|reflexivity].
    apply Qle_bool_iff in E. exfalso. exact (Qlt_not_le _ _ Hq E). }
  assert (Hin : forall q, (0 < q)%Q -> (q <= inject_Z MAX_OUTPUT_TOKENS)%Q ->
                          clampOutputTokens (Some (Finite q)) = Finite q).
  { intros q Hq Hle. unfold clampOutputTokens, positive, minWith.
    rewrite (Hpos q Hq). cbn [negb].
    rewrite (proj2 (Qle_bool_iff _ _) Hle). reflexivity. }
  assert (Hover : forall q, (inject_Z MAX_OUTPUT_TOKENS < q)%Q ->
                            clampOutputTokens (Some (Finite q))
                            = Finite (inject_Z MAX_OUTPUT_TOKENS)).
  { intros q Hq. unfold clampOutputTokens, positive, minWith.
    rewrite (Hpos q (Qlt_trans _ _ _ Hcap Hq)). cbn [negb].
    destruct (Qle_bool q (inject_Z MAX_OUTPUT_TOKENS)) eqn:E; [|reflexivity].
    apply Qle_bool_iff in E. exfalso. exact (Qlt_not_le _ _ Hq E). }
  assert (Hneg : forall q, (q <= 0)%Q ->
                           clampOutputTokens (Some (Finite q))
                           = Finite (inject_Z 16384)).
  { intros q Hq. unfold clampOutputTokens, positive.
    rewrite (proj2 (Qle_bool_iff _ _) Hq). reflexivity. }
  split.
  { destruct requested as [[q| | |]|];
      try (exists (inject_Z 16384); repeat split; discriminate).
    - destruct (Qle_bool q 0) eqn:E0.
      + apply Qle_bool_iff in E0. rewrite (Hneg q E0).
        exists (inject_Z 16384). repeat split; discriminate.
      + apply Qle_bool_false in E0.
        destruct (Qle_bool q (inject_Z MAX_OUTPUT_TOKENS)) eqn:E1.
        * apply Qle_bool_iff in E1. rewrite (Hin q E0 E1).
          exists q. split; [reflexivity|]. split; assumption.
        * apply Qle_bool_false in E1. rewrite (Hover q E1).
          exists (inject_Z MAX_OUTPUT_TOKENS).
          split; [reflexivity|]. split; [exact Hcap|apply Qle_refl].
    - exists (inject_Z MAX_OUTPUT_TOKENS).
      split; [reflexivity|]. split; [exact Hcap|apply Qle_refl]. }
  split; [intros q -> Hq Hle; exact (Hin q Hq Hle)|].
  split; [intros q -> Hq; exact (Hover q Hq)|].
  split; [intros ->; reflexivity|].
  split; [intros q -> Hq; exact (Hneg q Hq)|].
  intros [->|[->| ->]]; reflexivity.
Qed.

Lemma clampOutputTokens_range_witness :
  clampOutputTokens (Some (Finite (1 # 2))) = Finite (1 # 2)
  /\ clampOutputTokens (Some (Finite (inject_Z 2048))) = Finite (inject_Z 2048)
  /\ clampOutputTokens (Some (Finite (inject_Z 100000)))
     = Finite (inject_Z MAX_OUTPUT_TOKENS)
  /\ clampOutputTokens (Some (Finite (inject_Z (-5))))
     = Finite (inject_Z 16384)
  /\ clampOutputTokens (Some NaN) = Finite (inject_Z 16384).
Proof.
  destruct (clampOutputTokens_range (Some (Finite (1 # 2))))
    as (_ & H1 & _).
  destruct (clampOutputTokens_range (Some (Finite (inject_Z 2048))))
    as (_ & H2 & _).
  destruct (clampOutputTokens_range (Some (Finite (inject_Z 100000))))
    as (_ & _ & H3 & _).
  destruct (clampOutputTokens_range (Some (Finite (inject_Z (-5)))))
    as (_ & _ & _ & _ & H4 & _).
  destruct (clampOutputTokens_range (Some NaN)) as (_ & _ & _ & _ & _ & H5).
  assert (Hhalf : (0 < 1 # 2)%Q) by reflexivity.
  assert (Hhalf' : (1 # 2 <= inject_Z MAX_OUTPUT_TOKENS)%Q) by discriminate.
  assert (Hk : (0 < inject_Z 2048)%Q) by reflexivity.
  assert (Hk' : (inject_Z 2048 <= inject_Z MAX_OUTPUT_TOKENS)%Q)
    by discriminate.
  assert (Hbig : (inject_Z MAX_OUTPUT_TOKENS < inject_Z 100000)%Q)
    by reflexivity.
  assert (Hminus : (inject_Z (-5) <= 0)%Q) by discriminate.
  split; [exact (H1 (1 # 2) eq_refl Hhalf Hhalf')|].
  split; [exact (H2 (inject_Z 2048) eq_refl Hk Hk')|].
  split; [exact (H3 (inject_Z 100000) eq_refl Hbig)|].
  split; [exact (H4 (inject_Z (-5)) eq_refl Hminus)|].
  apply H5. right. left. reflexivity.
Defined.

Section ReservationFacts.

Variable BASIC_MODE_INSTRUCTION : jsstring.
Variable AGENT_MODE_INSTRUCTION : jsstring.

Lemma foldl_entryTokens conversation :
  forall acc,
    acc + 4 * Z.of_nat (length (filter (fun e => counted e = true) conversation))
    <= foldl (fun acc msg => acc + entryTokens msg) acc conversation.
Proof.
  induction conversation as [|e c IH]; intros acc; cbn [foldl].
  - rewrite filter_nil. cbn. lia.
  - pose proof (IH (acc + entryTokens e)) as H.
    destruct e as [t|j|].
    + rewrite filter_cons_True by reflexivity.
      pose proof (estimateTokens_at_least_4 t). cbn [entryTokens length] in *.
      lia.
    + rewrite filter_cons_True by reflexivity.
      pose proof (estimateTokens_at_least_4 j). cbn [entryTokens length] in *.
      lia.
    + rewrite filter_cons_False by discriminate. cbn [entryTokens] in *. lia.
Qed.

(** X7: the reservation that [generate] computes for a request is at least
    8 tokens, the floors of the system instruction and of the prompt, plus
    4 for every message of the conversation that has a text or parts; so
    no request is ever booked with an empty reservation. *)
Theorem promptEstimate_floor agent conversation prompt :
  8 + 4 * Z.of_nat (length (filter (fun e => counted e = true) conversation))
  <= promptEstimate BASIC_MODE_INSTRUCTION AGENT_MODE_INSTRUCTION agent
       conversation prompt.
Proof.
  unfold promptEstimate.
  pose proof (foldl_entryTokens conversation
                (0 + Backend.estimateTokens
                       (if agent then AGENT_MODE_INSTRUCTION
                        else BASIC_MODE_INSTRUCTION))) as H.
  pose proof (estimateTokens_at_least_4
                (if agent then AGENT_MODE_INSTRUCTION
                 else BASIC_MODE_INSTRUCTION)).
  pose proof (estimateTokens_at_least_4 prompt).
  lia.
Qed.

End ReservationFacts.

End AvailabilityFacts.

(** ** Cancellation *)

Section CancelFacts.

Import Service Scheduler Scenario Quota Probe.






End CancelFacts.

(** ** White space and the backend estimate *)

Section WhitespaceFacts.

Import Backend.

Lemma skip_spaces_app_spaces ws s :
  forallb is_space ws = true -> skip_spaces (ws ++ s) = skip_spaces s.
Proof.
  induction ws as [|c ws IH]; cbn [forallb app skip_spaces]; [reflexivity|].
  intros [Hc Hws]%andb_prop. rewrite Hc. apply IH, Hws.
Qed.

Lemma skip_spaces_all ws :
  forallb is_space ws = true -> skip_spaces ws = [].
Proof.
  intros H. rewrite <- (app_nil_r ws), skip_spaces_app_spaces by exact H.
  reflexivity.
Qed.

Lemma skip_spaces_split s :
  exists sp, forallb is_space sp = true /\ s = sp ++ skip_spaces s
             /\ match skip_spaces s with
                | c :: _ => is_space c = false
                | [] => True
                end.
Proof.
  induction s as [|c s IH]; [exists []; repeat split|].
  cbn [skip_spaces]. destruct (is_space c) eqn:E.
  - destruct IH as (sp & Hsp & Hs & Hc). exists (c :: sp).
    cbn [forallb app]. rewrite E, Hsp. split; [reflexivity|].
    split; [f_equal; exact Hs|exact Hc].
  - exists []. repeat split. exact E.
Qed.

Lemma skip_spaces_app_nonspace s t :
  skip_spaces s <> [] -> skip_spaces (s ++ t) = skip_spaces s ++ t.
Proof.
  induction s as [|c s IH]; cbn [skip_spaces app]; [congruence|].
  destruct (is_space c); [exact IH|reflexivity].
Qed.

Lemma forallb_rev {A} (f : A -> bool) l :
  forallb f l = true -> forallb f (rev l) = true.
Proof.
  intros H. apply forallb_forall. intros x Hx%in_rev.
  exact (proj1 (forallb_forall f l) H x Hx).
Qed.

Lemma trim_padded ws t ws' :
  forallb is_space ws = true -> forallb is_space ws' = true ->
  trim (ws ++ t ++ ws') = trim t.
Proof.
  intros Hws Hws'. unfold trim. rewrite skip_spaces_app_spaces by exact Hws.
  destruct (skip_spaces t) as [|c u] eqn:E.
  - destruct (skip_spaces_split t) as (sp & Hsp & Ht & _).
    rewrite E, app_nil_r in Ht. subst t.
    rewrite (skip_spaces_all (sp ++ ws')); [reflexivity|].
    rewrite forallb_app, Hsp, Hws'. reflexivity.
  - rewrite skip_spaces_app_nonspace by (rewrite E; discriminate).
    rewrite E, rev_app_distr.
    rewrite skip_spaces_app_spaces by (apply forallb_rev, Hws').
    reflexivity.
Qed.

(** X9: white space around a text does not change what the backend
    estimates for it: [estimateTokens] of the text padded with white space
    on both sides is [estimateTokens] of the text. *)
Theorem estimateTokens_ignores_padding ws t ws' :
  forallb is_space ws = true -> forallb is_space ws' = true ->
  estimateTokens (ws ++ t ++ ws') = estimateTokens t.
Proof.
  intros Hws Hws'. unfold estimateTokens.
  rewrite (trim_padded ws t ws' Hws Hws'). reflexivity.
Qed.

Lemma estimateTokens_ignores_padding_witness :
  forallb is_space (js "  ") = true
  /\ estimateTokens (js "  " ++ js "hello world" ++ js "  ")
     = estimateTokens (js "hello world").
Proof.
  split; [reflexivity|].
  apply estimateTokens_ignores_padding; reflexivity.
Defined.

End WhitespaceFacts.

(** ** Runs of the executor *)

Section RunFacts.

Import Service Executor Scenario Probe.

Lemma retryNotices_app l k :
  retryNotices (l ++ k) = retryNotices l ++ retryNotices k.
Proof. apply omap_app. Qed.

Lemma streamedText_app l k :
  streamedText (l ++ k) = streamedText l ++ streamedText k.
Proof. unfold streamedText. rewrite fmap_app, concat_app. reflexivity. Qed.

Lemma retryNotices_pacing key m t s : retryNotices (pacing key m t s) = [].
Proof. unfold pacing. destruct (_ <? _); reflexivity. Qed.

Lemma streamedText_pacing key m t s : streamedText (pacing key m t s) = [].
Proof. unfold pacing. destruct (_ <? _); reflexivity. Qed.

Lemma abortBy_quiet key c ctl :
  retryNotices (abortBy key c ctl).1 = []
  /\ streamedText (abortBy key c ctl).1 = [].
Proof. destruct c; cbn; [destruct (registered ctl)|]; split; reflexivity. Qed.

Lemma onChunk_text key c full hc :
  retryNotices (onChunk key c full hc).1.1 = []
  /\ (onChunk key c full hc).1.2
     = full ++ streamedText (onChunk key c full hc).1.1.
Proof.
  unfold onChunk. destruct (negb (hc || hasFunctionCall (parts c))).
  - destruct (nonEmpty (chunkText c)); cbn; rewrite ?app_nil_r; split;
      reflexivity.
  - cbn [fst snd]. generalize (filter (fun t => nonEmpty t = true)
                                 (partText <$> parts c)).
    intros texts. split.
    + induction texts as [|t texts IH]; [reflexivity|exact IH].
    + f_equal. unfold streamedText.
      induction texts as [|t texts IH]; [reflexivity|].
      cbn. f_equal. exact IH.
Qed.

Lemma streamLoop_text key a cs :
  forall i ctl full hc last,
    let r := streamLoop key a cs i ctl full hc last in
    retryNotices (loop_events r) = []
    /\ loop_full r = full ++ streamedText (loop_events r).
Proof.
  induction cs as [|c cs IH]; intros i ctl full hc last; cbn [streamLoop];
    assert (Hab : retryNotices
                    (match abortAt a with
                     | Some (n, cause) =>
                         if decide (n = i) then abortBy key cause ctl
                         else ([], ctl)
                     | None => ([], ctl)
                     end).1 = []
                  /\ streamedText
                       (match abortAt a with
                        | Some (n, cause) =>
                            if decide (n = i) then abortBy key cause ctl
                            else ([], ctl)
                        | None => ([], ctl)
                        end).1 = [])
      by (destruct (abortAt a) as [[n cause]|];
          [destruct (decide (n = i)); [apply abortBy_quiet|]|];
          split; reflexivity);
    destruct (match abortAt a with
              | Some (n, cause) =>
                  if decide (n = i) then abortBy key cause ctl else ([], ctl)
              | None => ([], ctl)
              end) as [abortEv ctl']; cbn [fst] in Hab;
    destruct Hab as [Hn Ht].
  - cbn [loop_events loop_full]. rewrite Hn, Ht, app_nil_r.
    split; reflexivity.
  - destruct (signalAborted ctl').
    + cbn [loop_events loop_full]. rewrite Hn, Ht, app_nil_r.
      split; reflexivity.
    + pose proof (onChunk_text key c full hc) as [Hcn Hct].
      destruct (onChunk key c full hc) as [[ev full'] hc'].
      cbn [fst snd] in Hcn, Hct.
      destruct (IH (S i) ctl' full' hc' (Some c)) as [IHn IHt].
      cbn [loop_events loop_full].
      rewrite !retryNotices_app, !streamedText_app, Hn, Ht, Hcn, IHn, IHt, Hct.
      split; [reflexivity|]. cbn [app]. rewrite app_assoc. reflexivity.
Qed.

Lemma streamingCall_text key a ctl :
  retryNotices (streamingCall key a ctl).1.1 = []
  /\ match (streamingCall key a ctl).1.2 with
     | inl res => streamedText (streamingCall key a ctl).1.1 = text res
     | inr _ => True
     end.
Proof.
  unfold streamingCall.
  destruct (streamLoop_text key a (chunks a) 0%nat ctl [] false None)
    as [Hn Ht].
  destruct (loop_end _); cbn [fst snd]; try (split; [exact Hn|exact I]).
  destruct (signalAborted _); cbn [fst snd]; [split; [exact Hn|exact I]|].
  destruct (negb _ && negb _); cbn [fst snd]; [split; [exact Hn|exact I]|].
  rewrite retryNotices_app, streamedText_app, Hn. cbn.
  rewrite app_nil_r. split; [reflexivity|]. rewrite Ht. reflexivity.
Qed.

Lemma text_afterResponse clk m r res s :
  text (afterResponse clk m r res s).2 = text res.
Proof.
  unfold afterResponse. destruct (0 <? actualPromptTokens res); reflexivity.
Qed.

(** The backoffs of a run: from attempt [n] on, what is left of the four
    backoffs and of the 45 seconds they add up to at most. *)
Lemma retryLoop_backoffs key m reservation script :
  forall attempt (tnt tns : bool) ctl s,
    0 <= attempt <= maxRetries ->
    let r := retryLoop key m reservation script attempt tnt tns ctl s in
    Z.of_nat (length (retryNotices (run_events r))) <= maxRetries - attempt
    /\ Forall (fun d => NETWORK_RETRY_BASE_DELAY <= d
                        <= SERVICE_OVERLOAD_BASE_DELAY * 8)
         (retryNotices (run_events r))
    /\ sumZ (retryNotices (run_events r))
       <= SERVICE_OVERLOAD_BASE_DELAY * (16 - 2 ^ attempt).
Proof.
  unfold maxRetries, NETWORK_RETRY_BASE_DELAY, SERVICE_OVERLOAD_BASE_DELAY.
  assert (Hpow : forall n, 0 <= n <= 4 -> 1 <= 2 ^ n <= 16).
  { intros n Hn.
    assert (n = 0 \/ n = 1 \/ n = 2 \/ n = 3 \/ n = 4) as Hc by lia.
    destruct Hc as [->|[->|[->|[->| ->]]]]; cbn; lia. }
  induction script as [|a rest IH]; intros attempt tnt tns ctl s Hat.
  { cbn. pose proof (Hpow attempt Hat). split; [lia|]. split; [constructor|lia]. }
  cbn [retryLoop].
  pose proof (retryNotices_pacing key m (t_pace a) s) as Hp.
  pose proof (streamingCall_text key a ctl) as [Hs _].
  destruct (streamingCall key a ctl) as [[ev result] ctl']. cbn [fst snd] in Hs.
  assert (Hquiet : retryNotices (pacing key m (t_pace a) s ++ ev) = [])
    by (rewrite retryNotices_app, Hp, Hs; reflexivity).
  assert (Hnone : Z.of_nat (length (@nil Z)) <= 4 - attempt
                  /\ Forall (fun d => 1000 <= d <= 3000 * 8) []
                  /\ sumZ [] <= 3000 * (16 - 2 ^ attempt)).
  { pose proof (Hpow attempt Hat). cbn. split; [lia|].
    split; [constructor|lia]. }
  destruct result as [res|e].
  - destruct (afterResponse _ _ _ _ _) as [s2 res']. cbn [run_events].
    rewrite Hquiet. exact Hnone.
  - pose proof (onFailure_retry_inv (signalAborted ctl') e attempt tnt tns)
      as Hinv.
    destruct (onFailure (signalAborted ctl') e attempt tnt tns)
      as [| | | | |svc d|msg] eqn:Hact;
      cbn [run_events andThen]; try (rewrite Hquiet; exact Hnone).
    + rewrite retryNotices_app, Hquiet. apply IH, Hat.
    + rewrite retryNotices_app, Hquiet. apply IH, Hat.
    + assert (Hd : d = (if svc then 3000 else 1000) * 2 ^ attempt).
      { revert Hact. unfold onFailure.
        destruct (signalAborted ctl'); [discriminate|].
        destruct (_ && rejectsThinking _); [discriminate|].
        destruct (_ && rejectsSearch _); [discriminate|].
        unfold baseDelay, SERVICE_OVERLOAD_BASE_DELAY,
          NETWORK_RETRY_BASE_DELAY.
        destruct (category _); try discriminate;
          (destruct (_ && _); [|discriminate]); intros [= <- <-];
          reflexivity. }
      unfold maxRetries in Hinv.
      destruct (match abortInBackoff a with
                | Some cause => abortBy key cause ctl'
                | None => ([], ctl')
                end) as [abortEv ctl''] eqn:Hab.
      assert (Habq : retryNotices abortEv = []).
      { destruct (abortInBackoff a) as [cause|].
        - pose proof (abortBy_quiet key cause ctl') as [Hq _].
          rewrite Hab in Hq. exact Hq.
        - injection Hab as <- _. reflexivity. }
      cbn [run_events andThen].
      rewrite !retryNotices_app, Hp, Hs, Habq.
      change (retryNotices [Delta key (RetryNotice svc d)]) with [d].
      cbn [app].
      destruct (IH (attempt + 1) tnt tns ctl''
                  (markCallStart (t_call a) m s) ltac:(lia))
        as (IH1 & IH2 & IH3).
      pose proof (Hpow attempt Hat) as Hp2.
      assert (Hp3 : 2 ^ (attempt + 1) = 2 * 2 ^ attempt)
        by (rewrite Z.pow_add_r by lia; lia).
      assert (Hp4 : 2 ^ attempt <= 8).
      { assert (attempt = 0 \/ attempt = 1 \/ attempt = 2 \/ attempt = 3)
          as Hc by lia.
        destruct Hc as [->|[->|[-> | ->]]]; cbn; lia. }
      cbn [length sumZ foldr].
      change (foldr Z.add 0 ?l) with (sumZ l).
      split; [lia|]. split.
      * constructor; [|exact IH2]. destruct svc; lia.
      * destruct svc; lia.
Qed.


(** X10: whatever the stream and the failures are, a generation makes at
    most seven attempts and waits at most four times between them, each
    wait lasting between 1 and 24 seconds and all of them together at most
    45 seconds. *)
Theorem generation_settles_within_seven_attempts key m reservation script s :
  let r := executeStandardGeneration key m reservation script s in
  ((7 <= length script)%nat -> run_outcome r <> ScriptExhausted)
  /\ (length (retryNotices (run_events r)) <= 4)%nat
  /\ Forall (fun d => 1000 <= d <= 24000) (retryNotices (run_events r))
  /\ sumZ (retryNotices (run_events r)) <= 45000.
Proof.
  intros r. subst r. unfold executeStandardGeneration. split.
  { intros Hlen. apply retryLoop_settles.
    change (Z.to_nat (maxRetries - 0)) with 4%nat. lia. }
  destruct (retryLoop_backoffs key m reservation script 0 false false
              freshController s ltac:(unfold maxRetries; lia))
    as (H1 & H2 & H3).
  unfold maxRetries, NETWORK_RETRY_BASE_DELAY, SERVICE_OVERLOAD_BASE_DELAY
    in *.
  split; [lia|]. split; [exact H2|exact H3].
Qed.

Lemma generation_settles_within_seven_attempts_witness :
  let r := executeStandardGeneration (js "k") Flash 1000 alwaysOverloaded
             inFlight in
  (7 <= length alwaysOverloaded)%nat
  /\ run_outcome r <> ScriptExhausted
  /\ retryNotices (run_events r) = [3000; 6000; 12000; 24000].
Proof.
  assert (Hlen : (7 <= length alwaysOverloaded)%nat) by (vm_compute; lia).
  split; [exact Hlen|]. split; [|vm_compute; reflexivity].
  exact (proj1 (generation_settles_within_seven_attempts (js "k") Flash 1000
                  alwaysOverloaded inFlight) Hlen).
Defined.

(** X11: unless the user cancels, a generation that fails, for whatever
    reason and after whatever retries, puts no terminal event on the
    stream, and one that resolves ends the stream with exactly one [done]
    event, which nothing follows. *)
Theorem failure_is_not_streamed key m reservation script s :
  Forall noUserCancel script ->
  let r := executeStandardGeneration key m reservation script s in
  match run_outcome r with
  | Resolved _ =>
      exists ds, run_events r = ds ++ [Done key] /\ Forall isDelta ds
  | _ => Forall isDelta (run_events r)
  end.
Proof.
  intros H. apply stream_events_without_cancel, H.
Qed.

Lemma failure_is_not_streamed_witness :
  Forall noUserCancel alwaysOverloaded
  /\ Forall isDelta
       (run_events (executeStandardGeneration (js "k") Flash 1000
                      alwaysOverloaded inFlight)).
Proof.
  assert (H : Forall noUserCancel alwaysOverloaded).
  { repeat constructor; try discriminate. }
  split; [exact H|].
  exact (failure_is_not_streamed (js "k") Flash 1000 alwaysOverloaded inFlight
           H).
Defined.

Lemma retryLoop_text key m reservation script :
  forall attempt (tnt tns : bool) ctl s res,
    let r := retryLoop key m reservation script attempt tnt tns ctl s in
    run_outcome r = Resolved res ->
    exists earlier, streamedText (run_events r) = earlier ++ text res.
Proof.
  induction script as [|a rest IH]; intros attempt tnt tns ctl s res;
    [discriminate|].
  cbn [retryLoop].
  pose proof (streamingCall_text key a ctl) as [_ Hs].
  destruct (streamingCall key a ctl) as [[ev result] ctl']. cbn [fst snd] in Hs.
  destruct result as [res0|e].
  - pose proof (text_afterResponse (t_after a) m reservation res0
                  (markCallStart (t_call a) m s)) as Ht.
    destruct (afterResponse _ _ _ _ _) as [s2 res']. cbn [snd] in Ht.
    cbn [run_outcome run_events]. intros [= <-].
    exists []. rewrite streamedText_app, streamedText_pacing, Hs, Ht.
    reflexivity.
  - assert (Hcont : forall pre (r : Run),
               run_outcome (andThen pre r) = Resolved res ->
               (run_outcome r = Resolved res ->
                exists earlier,
                  streamedText (run_events r) = earlier ++ text res) ->
               exists earlier,
                 streamedText (run_events (andThen pre r))
                 = earlier ++ text res).
    { intros pre r Hr Hex. destruct (Hex Hr) as [earlier Heq].
      exists (streamedText pre ++ earlier). cbn [andThen run_events].
      rewrite streamedText_app, Heq, app_assoc. reflexivity. }
    destruct (onFailure _ _ _ _ _); cbn [run_outcome]; try discriminate.
    + intros Hr. apply Hcont; [exact Hr|apply IH].
    + intros Hr. apply Hcont; [exact Hr|apply IH].
    + destruct (match abortInBackoff a with
                | Some cause => abortBy key cause ctl'
                | None => ([], ctl')
                end) as [abortEv ctl''].
      intros Hr. apply Hcont; [exact Hr|apply IH].
Qed.

(** X12: the text of a response is what was streamed: one streaming call
    that succeeds returns exactly the concatenation of the text deltas it
    sent, and the text of a resolved generation is the end of all the text
    streamed under its key, what precedes it being the pieces that failed
    attempts had sent before they were retried. *)
Theorem resolved_text_was_streamed key :
  (forall a ctl res,
      (streamingCall key a ctl).1.2 = inl res ->
      streamedText (streamingCall key a ctl).1.1 = text res)
  /\ (forall m reservation script s res,
         let r := executeStandardGeneration key m reservation script s in
         run_outcome r = Resolved res ->
         exists earlier, streamedText (run_events r) = earlier ++ text res).
Proof.
  split.
  - intros a ctl res H. pose proof (streamingCall_text key a ctl) as [_ Hs].
    rewrite H in Hs. exact Hs.
  - intros m reservation script s res. apply retryLoop_text.
Qed.

Lemma resolved_text_was_streamed_witness :
  let r := executeStandardGeneration (js "k") Flash 1000 threeDeltas inFlight in
  exists res,
    run_outcome r = Resolved res
    /\ text res = js "Use pin 13."
    /\ exists earlier, streamedText (run_events r) = earlier ++ text res.
Proof.
  eexists. split; [vm_compute; reflexivity|]. split; [reflexivity|].
  apply (proj2 (resolved_text_was_streamed (js "k")) Flash 1000 threeDeltas
           inFlight).
  vm_compute. reflexivity.
Defined.

Lemma retryLoop_ledger key m reservation script :
  forall attempt (tnt tns : bool) ctl s msg,
    let r := retryLoop key m reservation script attempt tnt tns ctl s in
    run_outcome r = Failed msg ->
    tokenWindows (run_state r) = tokenWindows s
    /\ recentCalls (run_state r) = recentCalls s
    /\ dailyCalls (run_state r) = dailyCalls s
    /\ queue (run_state r) = queue s.
Proof.
  induction script as [|a rest IH]; intros attempt tnt tns ctl s msg;
    [discriminate|].
  cbn [retryLoop].
  destruct (streamingCall key a ctl) as [[ev result] ctl'].
  destruct result as [res0|e].
  - destruct (afterResponse _ _ _ _ _) as [s2 res']. discriminate.
  - destruct (onFailure _ _ _ _ _); cbn [run_outcome run_state andThen];
      try (intros _; repeat split; reflexivity).
    + intros H. apply (IH _ _ _ _ (markCallStart (t_call a) m s) msg H).
    + intros H. apply (IH _ _ _ _ (markCallStart (t_call a) m s) msg H).
    + destruct (match abortInBackoff a with
                | Some cause => abortBy key cause ctl'
                | None => ([], ctl')
                end) as [abortEv ctl''].
      intros H. apply (IH _ _ _ _ (markCallStart (t_call a) m s) msg H).
Qed.

(** X13: a generation that fails, a canceled one included, gives nothing
    back to the ledger: the token windows, with the reservation that was
    booked at the admission, and the call lists are as they were when the
    executor started, so that the reservation weighs on the capacity until
    it leaves the rolling window. *)
Theorem failed_generation_keeps_reservation key m reservation script s msg :
  let r := executeStandardGeneration key m reservation script s in
  run_outcome r = Failed msg ->
  tokenWindows (run_state r) = tokenWindows s
  /\ recentCalls (run_state r) = recentCalls s
  /\ dailyCalls (run_state r) = dailyCalls s
  /\ currentUsedTokens (run_state r) = currentUsedTokens s.
Proof.
  intros r H. subst r. unfold executeStandardGeneration in *.
  destruct (retryLoop_ledger key m reservation script 0 false false
              freshController s msg H) as (H1 & H2 & H3 & _).
  repeat split; try assumption.
  unfold currentUsedTokens. rewrite H1. reflexivity.
Qed.

Lemma failed_generation_keeps_reservation_witness :
  let r := executeStandardGeneration (js "k") Flash 1000 rejectedKey inFlight in
  run_outcome r = Failed (js "Gemini authentication failed. Check API key.")
  /\ currentUsedTokens (run_state r) = currentUsedTokens inFlight
  /\ currentUsedTokens inFlight = 1000.
Proof.
  assert (H : run_outcome (executeStandardGeneration (js "k") Flash 1000
                             rejectedKey inFlight)
              = Failed (js "Gemini authentication failed. Check API key."))
    by (vm_compute; reflexivity).
  split; [exact H|]. split; [|vm_compute; reflexivity].
  exact (proj2 (proj2 (proj2
           (failed_generation_keeps_reservation (js "k") Flash 1000
              rejectedKey inFlight _ H)))).
Defined.


Lemma streamLoop_abort key a n cause cs :
  abortAt a = Some (n, cause) ->
  forall i ctl full hc last,
    (i <= n)%nat -> (n - i <= length cs)%nat ->
    signalAborted ctl = true \/ registered ctl = true \/ cause = Timer ->
    signalAborted (loop_ctl (streamLoop key a cs i ctl full hc last)) = true.
Proof.
  intros Ha.
  assert (Hby : forall ctl,
             signalAborted ctl = true \/ registered ctl = true
             \/ cause = Timer ->
             signalAborted (abortBy key cause ctl).2 = true).
  { intros ctl [H|[H|H]].
    - destruct cause; cbn; [destruct (registered ctl)|]; cbn; auto.
    - destruct cause; cbn; [rewrite H|]; reflexivity.
    - subst cause. reflexivity. }
  induction cs as [|c cs IH]; intros i ctl full hc last Hi Hn Hctl;
    cbn [streamLoop]; rewrite Ha.
  - cbn [length] in Hn. destruct (decide (n = i)) as [_|Hne]; [|lia].
    pose proof (Hby ctl Hctl) as Hab.
    destruct (abortBy key cause ctl) as [abortEv ctl']. exact Hab.
  - destruct (decide (n = i)) as [->|Hne].
    + pose proof (Hby ctl Hctl) as Hab.
      destruct (abortBy key cause ctl) as [abortEv ctl']. cbn [snd] in Hab.
      rewrite Hab. exact Hab.
    + destruct (signalAborted ctl) eqn:Hs; [exact Hs|].
      destruct (onChunk key c full hc) as [[ev full'] hc'].
      cbn [loop_ctl]. cbn [length] in Hn. apply IH; [lia|lia|].
      destruct Hctl as [H|H]; [discriminate|right; exact H].
Qed.

Lemma streamLoop_user_cancel key a n cs :
  abortAt a = Some (n, UserCancel) ->
  forall i ctl full hc last,
    (i <= n)%nat -> (n - i <= length cs)%nat ->
    signalAborted ctl = false -> registered ctl = true ->
    exists ds,
      loop_events (streamLoop key a cs i ctl full hc last)
      = ds ++ [Error key (js "Canceled")]
      /\ Forall isDelta ds.
Proof.
  intros Ha.
  induction cs as [|c cs IH]; intros i ctl full hc last Hi Hn Hs Hr;
    cbn [streamLoop]; rewrite Ha.
  - cbn [length] in Hn. destruct (decide (n = i)) as [_|Hne]; [|lia].
    cbn [abortBy]. rewrite Hr. exists []. split; [reflexivity|constructor].
  - destruct (decide (n = i)) as [->|Hne].
    + cbn [abortBy]. rewrite Hr. cbn [signalAborted loop_events].
      exists []. split; [reflexivity|constructor].
    + rewrite Hs.
      pose proof (onChunk_deltas key c full hc) as Hc.
      destruct (onChunk key c full hc) as [[ev full'] hc'].
      cbn [fst] in Hc. cbn [length] in Hn.
      destruct (IH (S i) ctl full' hc' (Some c) ltac:(lia) ltac:(lia) Hs Hr)
        as (ds & Heq & Hds).
      cbn [loop_events app]. rewrite Heq. exists (ev ++ ds).
      split; [apply app_assoc|]. apply Forall_app. split; assumption.
Qed.

(** X14: an abort that arrives while the stream is read, the user's cancel
    or one of the two timers, ends the generation with 'Generation
    canceled.', whatever the stream would have thrown and without any
    retry; the state is the one of the call's start.  After the user's
    cancel the stream ends with the one error event [Canceled]; after a
    timer's abort no terminal event is sent. *)
Theorem abort_during_stream_cancels key m reservation a rest s n cause :
  abortAt a = Some (n, cause) -> (n <= length (chunks a))%nat ->
  let r := executeStandardGeneration key m reservation (a :: rest) s in
  run_outcome r = Failed (js "Generation canceled.")
  /\ run_state r = markCallStart (t_call a) m s
  /\ match cause with
     | UserCancel =>
         exists ds, run_events r = ds ++ [Error key (js "Canceled")]
                    /\ Forall isDelta ds
     | Timer => Forall isDelta (run_events r)
     end.
Proof.
  intros Ha Hn r. subst r. unfold executeStandardGeneration.
  cbn [retryLoop]. unfold streamingCall.
  pose proof (streamLoop_abort key a n cause (chunks a) Ha 0%nat
                freshController [] false None ltac:(lia) ltac:(lia)
                ltac:(right; left; reflexivity)) as Hctl.
  assert (Hev : match cause with
                | UserCancel =>
                    exists ds,
                      loop_events (streamLoop key a (chunks a) 0
                                     freshController [] false None)
                      = ds ++ [Error key (js "Canceled")]
                      /\ Forall isDelta ds
                | Timer =>
                    Forall isDelta
                      (loop_events (streamLoop key a (chunks a) 0
                                      freshController [] false None))
                end).
  { destruct cause.
    - apply (streamLoop_user_cancel key a n (chunks a) Ha); try lia;
        reflexivity.
    - apply streamLoop_deltas. intros k. rewrite Ha. discriminate. }
  pose proof (pacing_deltas key m (t_pace a) s) as Hp.
  set (lp := streamLoop key a (chunks a) 0 freshController [] false None)
    in *.
  assert (Hshape : forall ev,
             ev = loop_events lp ->
             match cause with
             | UserCancel =>
                 exists ds,
                   pacing key m (t_pace a) s ++ ev
                   = ds ++ [Error key (js "Canceled")]
                   /\ Forall isDelta ds
             | Timer => Forall isDelta (pacing key m (t_pace a) s ++ ev)
             end).
  { intros ev ->. destruct cause.
    - destruct Hev as (ds & -> & Hds).
      exists (pacing key m (t_pace a) s ++ ds).
      split; [apply app_assoc|]. apply Forall_app. split; assumption.
    - apply Forall_app. split; assumption. }
  destruct (loop_end lp); [rewrite Hctl| |]; cbn [onFailure];
    rewrite Hctl; cbn [run_outcome run_state run_events];
    (split; [reflexivity|]); (split; [reflexivity|]);
    apply Hshape; reflexivity.
Qed.

Lemma abort_during_stream_cancels_witness :
  let r := executeStandardGeneration (js "k") Flash 1000
             [canceledMidStream] inFlight in
  abortAt canceledMidStream = Some (1%nat, UserCancel)
  /\ (1 <= length (chunks canceledMidStream))%nat
  /\ run_outcome r = Failed (js "Generation canceled.")
  /\ run_events r
     = [Delta (js "k") (StreamText (js "Use "));
        Error (js "k") (js "Canceled")].
Proof.
  split; [reflexivity|]. split; [vm_compute; lia|].
  split; [|vm_compute; reflexivity].
  apply (abort_during_stream_cancels (js "k") Flash 1000 canceledMidStream
           [] inFlight 1 UserCancel); [reflexivity|vm_compute; lia].
Defined.

End RunFacts.

(** ** Invariants of the conversation memory *)

Section MemoryInvariants.

Import TokenCounter Memory Assembly Scenario Probe.

Variable ai : AiRequest -> AiReply.
Variable categorizeSummary : jsstring -> SummaryCategory.

Lemma clampIndex_range len i : 0 <= len -> 0 <= clampIndex len i <= len.
Proof.
  unfold clampIndex. destruct (i <? 0) eqn:E; [apply Z.ltb_lt in E|]; lia.
Qed.

Lemma slice_prefix {A} (l : list A) k :
  slice l 0 (Some k)
  = take (Z.to_nat (clampIndex (Z.of_nat (length l)) k)) l.
Proof.
  unfold slice. change (clampIndex (Z.of_nat (length l)) 0)
    with (Z.min 0 (Z.of_nat (length l))).
  rewrite Z.min_l by lia. rewrite Z.sub_0_r. reflexivity.
Qed.

Lemma slice_suffix {A} (l : list A) k :
  slice l k None = drop (Z.to_nat (clampIndex (Z.of_nat (length l)) k)) l.
Proof.
  unfold slice. apply take_ge. rewrite length_drop.
  pose proof (clampIndex_range (Z.of_nat (length l)) k ltac:(lia)). lia.
Qed.



Lemma recentMessages_compress t m :
  recentMessages (compressMemoryBank ai t m).1 = recentMessages m.
Proof.
  unfold compressMemoryBank. destruct (_ <? 3); [reflexivity|].
  destruct (last _); [|reflexivity].
  destruct (usableText _); reflexivity.
Qed.

Lemma recentMessages_checkAndCompress t m :
  recentMessages (checkAndCompressMemoryBank ai t m).1 = recentMessages m.
Proof.
  unfold checkAndCompressMemoryBank. destruct (_ <? _); [|reflexivity].
  apply recentMessages_compress.
Qed.






Lemma bankTokens_snoc l s :
  bankTokens (l ++ [s]) = bankTokens l + default 0 (sum_estimatedTokens s).
Proof.
  unfold bankTokens. induction l as [|x l IH]; cbn [app foldr]; [lia|].
  rewrite IH. lia.
Qed.

Lemma bankConsistent_compress t m :
  bankConsistent m -> bankConsistent (compressMemoryBank ai t m).1.
Proof.
  intros H. unfold compressMemoryBank. destruct (_ <? 3); [exact H|].
  destruct (last _); [|exact H].
  destruct (usableText _); [|exact H].
  unfold bankConsistent. cbn. lia.
Qed.

Lemma bankConsistent_checkAndCompress t m :
  bankConsistent m -> bankConsistent (checkAndCompressMemoryBank ai t m).1.
Proof.
  intros H. unfold checkAndCompressMemoryBank. destruct (_ <? _); [|exact H].
  apply bankConsistent_compress, H.
Qed.

(** X16: the running total of the memory bank never drifts from its
    summaries: a new conversation has a total equal to the sum of the
    cached estimates of its summaries, and [addMessage] keeps it so
    through every summarization and compression. *)
Theorem bank_total_is_sum_of_summaries t rnd ts tc r txt m :
  (forall sessionId cfg, bankConsistent (createConversation sessionId cfg))
  /\ (bankConsistent m ->
      bankConsistent (addMessage ai categorizeSummary t rnd ts tc r txt m).1).
Proof.
  split; [reflexivity|]. intros H.
  unfold addMessage, checkAndSummarize.
  destruct (summarizationDue _); [|exact H].
  unfold summarizeOldMessages.
  destruct (slice _ 0 _) as [|x xs]; [exact H|].
  unfold generateSummary.
  destruct (usableText _) as [txt'|]; [|exact H].
  match goal with
  | |- bankConsistent (let '(m2, reqs') := checkAndCompressMemoryBank ai tc ?m1
                       in _).1 =>
      pose proof (bankConsistent_checkAndCompress tc m1) as Hc;
      destruct (checkAndCompressMemoryBank ai tc m1) as [m2 reqs']
  end.
  apply Hc. unfold bankConsistent in *.
  cbn [memoryBank summaries totalTokens pushMessage] in *.
  rewrite bankTokens_snoc, H. reflexivity.
Qed.

Lemma summarize_without_reply ts tc m :
  (forall req, usableText (ai req) = None) ->
  (summarizeOldMessages ai categorizeSummary ts tc m).1 = m.
Proof.
  intros Hno. unfold summarizeOldMessages.
  destruct (slice _ 0 _) as [|x xs]; [reflexivity|].
  unfold generateSummary. rewrite Hno. reflexivity.
Qed.

(** X17: when the auxiliary model gives no usable text, be it that the
    call fails or that the reply is blank, [addMessage] only appends the
    message and counts it: nothing is summarized away, the bank is not
    touched, and the rolling buffer grows by one, past
    [maxRecentMessages] if need be. *)
Theorem addMessage_without_summarizer t rnd ts tc r txt m :
  (forall req, usableText (ai req) = None) ->
  (addMessage ai categorizeSummary t rnd ts tc r txt m).1
  = pushMessage t rnd r txt m
  /\ length (recentMessages
               (addMessage ai categorizeSummary t rnd ts tc r txt m).1)
     = S (length (recentMessages m)).
Proof.
  intros Hno.
  assert (H : (addMessage ai categorizeSummary t rnd ts tc r txt m).1
              = pushMessage t rnd r txt m).
  { unfold addMessage, checkAndSummarize.
    destruct (summarizationDue _); [|reflexivity].
    apply summarize_without_reply, Hno. }
  split; [exact H|]. rewrite H. cbn [pushMessage recentMessages].
  rewrite length_app. cbn. lia.
Qed.

Lemma summaries_checkAndCompress t m :
  (length (summaries (memoryBank (checkAndCompressMemoryBank ai t m).1))
   <= length (summaries (memoryBank m)))%nat.
Proof.
  unfold checkAndCompressMemoryBank.
  destruct (_ * _ <? _ * _); [|apply Nat.le_refl].
  unfold compressMemoryBank.
  destruct (Z.of_nat _ <? 3) eqn:E3; [apply Nat.le_refl|].
  destruct (last _); [|apply Nat.le_refl].
  destruct (usableText _); [|apply Nat.le_refl].
  apply Z.ltb_ge in E3. cbn [fst set_bank memoryBank summaries length] in *.
  lia.
Qed.

(** X18: a summarization that the message count triggers and that the
    auxiliary model serves leaves in the rolling buffer exactly the newest
    messages, three fifths of [maxRecentMessages] of them, rounded down. *)
Theorem summarization_keeps_newest t rnd ts tc r txt m :
  let m1 := pushMessage t rnd r txt m in
  let len := Z.of_nat (length (recentMessages m1)) in
  let keepCount := 3 * maxRecentMessages (config m) / 5 in
  0 <= maxRecentMessages (config m) < len ->
  minMessages (config m) <= len ->
  usableText
    (ai (SummarizeRequest (take (Z.to_nat (len - keepCount))
                             (recentMessages m1)))) <> None ->
  let m' := (addMessage ai categorizeSummary t rnd ts tc r txt m).1 in
  recentMessages m' = drop (Z.to_nat (len - keepCount)) (recentMessages m1)
  /\ Z.of_nat (length (recentMessages m')) = keepCount
  /\ (length (summaries (memoryBank m'))
      <= S (length (summaries (memoryBank m))))%nat.
Proof.
  intros m1 len keepCount Hmax Hmin Hai m'. subst m'.
  assert (Hkeep : 0 <= keepCount <= maxRecentMessages (config m)).
  { subst keepCount. split; [apply Z.div_pos; lia|].
    apply Z.div_le_upper_bound; lia. }
  unfold addMessage, checkAndSummarize, summarizationDue.
  fold m1. change (config m1) with (config m). fold len.
  destruct (len <? minMessages (config m)) eqn:E1;
    [apply Z.ltb_lt in E1; lia|].
  assert (E2 : (maxRecentMessages (config m) <? len) = true)
    by (apply Z.ltb_lt; lia).
  rewrite E2. cbn [orb].
  unfold summarizeOldMessages. change (config m1) with (config m).
  fold len. fold keepCount.
  assert (Hc : clampIndex len (len - keepCount) = len - keepCount).
  { unfold clampIndex. destruct (_ <? 0) eqn:E; [apply Z.ltb_lt in E|]; lia. }
  rewrite slice_prefix, slice_suffix. fold len. rewrite Hc.
  destruct (take (Z.to_nat (len - keepCount)) (recentMessages m1))
    as [|x xs] eqn:Ht.
  { exfalso. apply (f_equal length) in Ht. rewrite length_take in Ht.
    cbn [length] in Ht. subst len. lia. }
  unfold generateSummary.
  destruct (usableText (ai (SummarizeRequest (x :: xs)))) as [txt'|];
    [|contradiction].
  match goal with
  | |- context [checkAndCompressMemoryBank ai tc ?m2] =>
      pose proof (recentMessages_checkAndCompress tc m2) as Hr;
      assert (Hs : (length (summaries (memoryBank
                      (checkAndCompressMemoryBank ai tc m2).1))
                    <= length (summaries (memoryBank m2)))%nat);
      [|destruct (checkAndCompressMemoryBank ai tc m2) as [m3 reqs']]
  end.
  { apply summaries_checkAndCompress. }
  cbn [fst] in *. rewrite Hr. cbn [recentMessages].
  split; [reflexivity|]. split.
  - rewrite length_drop. unfold len in *. clearbody keepCount. lia.
  - cbn [memoryBank summaries] in Hs. rewrite length_app in Hs.
    unfold m1 in Hs. cbn [length pushMessage memoryBank] in Hs. lia.
Qed.

End MemoryInvariants.

Section MemoryInvariantExamples.

Import TokenCounter Memory Assembly Scenario Probe.

Lemma bank_total_is_sum_of_summaries_witness :
  bankConsistent freshMemory
  /\ bankConsistent
       (addMessage projectMemoryReply (fun _ => general) T0 (js "x") (T0 + 1)
          (T0 + 2) user (js "hello") freshMemory).1.
Proof.
  assert (H : bankConsistent freshMemory) by reflexivity.
  split; [exact H|].
  exact (proj2 (bank_total_is_sum_of_summaries projectMemoryReply
                  (fun _ => general) T0 (js "x") (T0 + 1) (T0 + 2) user
                  (js "hello") freshMemory) H).
Defined.

Lemma addMessage_without_summarizer_witness :
  (forall req, usableText (noReply req) = None)
  /\ length (recentMessages
               (addMessage noReply (fun _ => general) (T0 + 5) (js "r")
                  (T0 + 6) (T0 + 7) user (js "and now?") chatty).1)
     = 6%nat.
Proof.
  assert (H : forall req, usableText (noReply req) = None)
    by (intros req; reflexivity).
  split; [exact H|].
  exact (proj2 (addMessage_without_summarizer noReply (fun _ => general)
                  (T0 + 5) (js "r") (T0 + 6) (T0 + 7) user (js "and now?")
                  chatty H)).
Defined.

Lemma summarization_keeps_newest_witness :
  let m' := (addMessage projectMemoryReply (fun _ => general) (T0 + 5)
               (js "r") (T0 + 6) (T0 + 7) user (js "and now?") chatty).1 in
  Z.of_nat (length (recentMessages m')) = 3
  /\ length (summaries (memoryBank m')) = 1%nat.
Proof.
  split; [|vm_compute; reflexivity].
  apply (summarization_keeps_newest projectMemoryReply (fun _ => general)
           (T0 + 5) (js "r") (T0 + 6) (T0 + 7) user (js "and now?") chatty).
  - vm_compute. split; [discriminate|reflexivity].
  - vm_compute. discriminate.
  - vm_compute. discriminate.
Defined.

End MemoryInvariantExamples.

(** ** Calls of [addMessage] that overlap *)

Section TaskFacts.

Import TokenCounter Memory Assembly Tasks Scenario Probe.

Variable ai : AiRequest -> AiReply.
Variable categorizeSummary : jsstring -> SummaryCategory.

Lemma view_load m : view (load m) = m.
Proof. destruct m. reflexivity. Qed.









End TaskFacts.

Section TaskExamples.

Import TokenCounter Memory Assembly Tasks Scenario Probe.


End TaskExamples.

(** ** Prompt assembly *)

Section AssemblyFacts.

Import TokenCounter Memory Assembly Scenario Probe.

Lemma sumTokens_snoc l msg : sumTokens (l ++ [msg]) = sumTokens l + msgTokens msg.
Proof.
  unfold sumTokens. induction l as [|x l IH]; cbn [app foldr]; [lia|].
  rewrite IH. lia.
Qed.

Lemma takeRecent_spec budget newestFirst :
  forall est,
    exists older,
      newestFirst = rev (takeRecent budget est newestFirst).1 ++ older
      /\ (takeRecent budget est newestFirst).2
         = est + sumTokens (takeRecent budget est newestFirst).1
      /\ ((takeRecent budget est newestFirst).1 <> [] ->
          5 * (takeRecent budget est newestFirst).2 <= 4 * budget).
Proof.
  induction newestFirst as [|msg older IH]; intros est; cbn [takeRecent].
  - exists []. cbn. split; [reflexivity|]. split; [lia|]. congruence.
  - destruct (4 * budget <? 5 * (est + msgTokens msg)) eqn:E.
    + exists (msg :: older). cbn. split; [reflexivity|]. split; [lia|].
      congruence.
    + apply Z.ltb_ge in E.
      destruct (IH (est + msgTokens msg)) as (rest & Hl & Hs & Hb).
      destruct (takeRecent budget (est + msgTokens msg) older)
        as [taken est'] eqn:Ht.
      cbn [fst snd] in *. exists rest.
      rewrite rev_app_distr. cbn [rev app]. split; [f_equal; exact Hl|].
      split; [rewrite sumTokens_snoc; lia|].
      intros _. destruct taken as [|x taken].
      * cbn in Hs. lia.
      * apply Hb. discriminate.
Qed.

(** X19: the prompt that [assemblePrompt] builds always ends with the
    current request, whatever the budget; the recent messages it includes
    are the newest ones, without a gap and in their order; when it
    includes any, the bank and these messages together stay within four
    fifths of the budget; and the additional context appears only when,
    together with them, it stays under nine tenths of the budget. *)
Theorem assemblePrompt_keeps_newest_within_budget m options :
  let parts := (assemblePrompt m options).1 in
  let budget := default 50000 (targetTokenBudget options) in
  last parts = Some (CurrentRequest (currentPrompt options))
  /\ recentIn parts `suffix_of` recentMessages m
  /\ (recentIn parts <> [] ->
      5 * (bankShare m + sumTokens (recentIn parts)) <= 4 * budget)
  /\ (forall ctx,
         AdditionalContext ctx ∈ parts ->
         additionalContext options = Some ctx
         /\ 10 * (bankShare m + sumTokens (recentIn parts) + fastEstimate ctx)
            < 9 * budget).
Proof.
  intros parts budget. subst parts. unfold assemblePrompt. fold budget.
  unfold bankShare.
  set (start := match summaries (memoryBank m) with
                | [] => ([], 0)
                | _ :: _ =>
                    ([HistoricalContext (summary <$> summaries (memoryBank m))],
                     0 + totalTokens (memoryBank m))
                end).
  assert (Hstart : recentIn start.1 = []
                   /\ start.2 = match summaries (memoryBank m) with
                                | [] => 0
                                | _ :: _ => totalTokens (memoryBank m)
                                end
                   /\ forall ctx, AdditionalContext ctx ∉ start.1).
  { subst start. destruct (summaries (memoryBank m)); cbn [fst snd].
    - split; [reflexivity|]. split; [reflexivity|].
      intros ctx. apply not_elem_of_nil.
    - split; [reflexivity|]. split; [lia|].
      intros ctx Hin. apply list_elem_of_singleton in Hin. discriminate. }
  destruct start as [parts1 est1]. cbn [fst snd] in Hstart.
  destruct Hstart as (Hr1 & He1 & Hc1). rewrite <- He1.
  destruct (takeRecent_spec budget (rev (recentMessages m)) est1)
    as (older & Hl & Hs & Hb).
  destruct (takeRecent budget est1 (rev (recentMessages m)))
    as [taken est2]. cbn [fst snd] in Hl, Hs, Hb.
  set (parts2 := match taken with
                 | [] => parts1
                 | _ :: _ => parts1 ++ [RecentConversation taken]
                 end).
  assert (Hp2 : recentIn parts2 = taken
                /\ forall ctx, AdditionalContext ctx ∉ parts2).
  { subst parts2. destruct taken as [|x taken]; [split; assumption|].
    split.
    - unfold recentIn in *. rewrite fmap_app, concat_app, Hr1. cbn.
      rewrite app_nil_r. reflexivity.
    - intros ctx Hin. apply elem_of_app in Hin as [Hin|Hin];
        [exact (Hc1 _ Hin)|].
      apply list_elem_of_singleton in Hin. discriminate. }
  clearbody parts2. destruct Hp2 as [Hr2 Hc2].
  assert (Hsuffix : taken `suffix_of` recentMessages m).
  { exists (rev older). apply (f_equal (@rev _)) in Hl.
    rewrite rev_involutive, rev_app_distr, rev_involutive in Hl. exact Hl. }
  set (third := match additionalContext options with
                | Some ctx =>
                    match trim ctx with
                    | [] => (parts2, est2)
                    | _ :: _ =>
                        if 10 * (est2 + fastEstimate ctx) <? 9 * budget
                        then (parts2 ++ [AdditionalContext ctx],
                              est2 + fastEstimate ctx)
                        else (parts2, est2)
                    end
                | None => (parts2, est2)
                end).
  assert (Hp3 : recentIn third.1 = taken
                /\ forall ctx,
                     AdditionalContext ctx ∈ third.1 ->
                     additionalContext options = Some ctx
                     /\ 10 * (est2 + fastEstimate ctx) < 9 * budget).
  { subst third.
    destruct (additionalContext options) as [ctx0|];
      [|split; [exact Hr2|intros ctx Hin; destruct (Hc2 _ Hin)]].
    destruct (trim ctx0);
      [split; [exact Hr2|intros ctx Hin; destruct (Hc2 _ Hin)]|].
    destruct (10 * (est2 + fastEstimate ctx0) <? 9 * budget) eqn:E;
      [|split; [exact Hr2|intros ctx Hin; destruct (Hc2 _ Hin)]].
    cbn [fst]. split.
    - unfold recentIn in *. rewrite fmap_app, concat_app, Hr2. cbn.
      rewrite app_nil_r. reflexivity.
    - intros ctx Hin. apply elem_of_app in Hin as [Hin|Hin];
        [destruct (Hc2 _ Hin)|].
      apply list_elem_of_singleton in Hin. injection Hin as ->.
      apply Z.ltb_lt in E. split; [reflexivity|exact E]. }
  destruct third as [parts3 est3]. cbn [fst snd] in Hp3 |- *.
  destruct Hp3 as [Hr3 Hc3].
  assert (Hrec : recentIn (parts3 ++ [CurrentRequest (currentPrompt options)])
                 = taken).
  { unfold recentIn in *. rewrite fmap_app, concat_app, Hr3. cbn.
    rewrite app_nil_r. reflexivity. }
  rewrite Hrec. split; [apply last_snoc|]. split; [exact Hsuffix|].
  split.
  - intros Hne. rewrite <- Hs. apply Hb, Hne.
  - intros ctx Hin. apply elem_of_app in Hin as [Hin|Hin].
    + rewrite <- Hs. apply Hc3, Hin.
    + apply list_elem_of_singleton in Hin. discriminate.
Qed.


Lemma assemblePrompt_keeps_newest_within_budget_witness :
  let tight := (assemblePrompt chatty tightOptions).1 in
  let roomy := (assemblePrompt chatty roomyOptions).1 in
  recentIn tight = [turn 3; turn 4]
  /\ 5 * (bankShare chatty + sumTokens (recentIn tight)) <= 4 * 10
  /\ recentIn roomy = recentMessages chatty
  /\ AdditionalContext (js "int led = 13;") ∈ roomy
  /\ 10 * (bankShare chatty + sumTokens (recentIn roomy)
           + fastEstimate (js "int led = 13;")) < 9 * 50000.
Proof.
  destruct (assemblePrompt_keeps_newest_within_budget chatty tightOptions)
    as (_ & _ & Htight & _).
  destruct (assemblePrompt_keeps_newest_within_budget chatty roomyOptions)
    as (_ & _ & _ & Hroomy).
  assert (Hin : AdditionalContext (js "int led = 13;")
                ∈ (assemblePrompt chatty roomyOptions).1).
  { vm_compute. right. left. }
  split; [vm_compute; reflexivity|].
  split; [apply Htight; vm_compute; discriminate|].
  split; [vm_compute; reflexivity|].
  split; [exact Hin|].
  exact (proj2 (Hroomy _ Hin)).
Defined.

End AssemblyFacts.

(** ** The two token counts *)

Section CountFacts.

Import TokenCounter Memory Assembly Scenario Probe.

Variable ai : AiRequest -> AiReply.
Variable categorizeSummary : jsstring -> SummaryCategory.

Lemma Forall_slice {A} (P : A -> Prop) (l : list A) i j :
  Forall P l -> Forall P (slice l i j).
Proof. intros H. unfold slice. apply Forall_take, Forall_drop, H. Qed.

Lemma cached_compress t m :
  cached m -> cached (compressMemoryBank ai t m).1.
Proof.
  intros [Hr Hs]. unfold compressMemoryBank. destruct (_ <? 3); [split; auto|].
  destruct (last (summaries (memoryBank m))) as [newest|] eqn:El;
    [|split; auto].
  destruct (usableText _); [|split; auto].
  split; [exact Hr|]. cbn [fst set_bank memoryBank summaries].
  repeat constructor.
  apply last_Some_elem_of in El.
  exact (proj1 (Forall_forall _ _) Hs _ El).
Qed.

Lemma cached_checkAndCompress t m :
  cached m -> cached (checkAndCompressMemoryBank ai t m).1.
Proof.
  intros H. unfold checkAndCompressMemoryBank.
  destruct (_ * _ <? _ * _); [|exact H]. apply cached_compress, H.
Qed.

Lemma cached_addMessage t rnd ts tc r txt m :
  cached m -> cached (addMessage ai categorizeSummary t rnd ts tc r txt m).1.
Proof.
  intros [Hr Hs].
  assert (Hpush : cached (pushMessage t rnd r txt m)).
  { split; [|exact Hs]. cbn [pushMessage recentMessages].
    apply Forall_app. split; [exact Hr|]. repeat constructor. }
  unfold addMessage, checkAndSummarize.
  destruct (summarizationDue _); [|exact Hpush].
  destruct Hpush as [Hr1 Hs1]. unfold summarizeOldMessages.
  destruct (slice _ 0 _) as [|x xs]; [split; assumption|].
  unfold generateSummary.
  destruct (usableText _) as [txt'|]; [|split; assumption].
  match goal with
  | |- cached (let '(m2, reqs') := checkAndCompressMemoryBank ai tc ?m1
               in _).1 =>
      pose proof (cached_checkAndCompress tc m1) as Hc;
      destruct (checkAndCompressMemoryBank ai tc m1) as [m2 reqs']
  end.
  apply Hc. split; cbn [recentMessages memoryBank summaries].
  - apply Forall_slice, Hr1.
  - apply Forall_app. split; [exact Hs1|]. repeat constructor.
Qed.

Lemma foldl_add_shift {A} (f : A -> Z) l :
  forall acc, foldl (fun a x => a + f x) acc l
              = acc + foldl (fun a x => a + f x) 0 l.
Proof.
  induction l as [|x l IH]; intros acc; cbn [foldl]; [lia|].
  rewrite (IH (acc + f x)), (IH (0 + f x)). lia.
Qed.

Lemma recentTokens_cached l :
  Forall (fun msg =>
            msg_estimatedTokens msg
            = Some (estimate_as (hintOf (msg_role msg)) (msg_text msg))) l ->
  foldl (fun acc msg =>
           acc + estimate_as (hintOf (msg_role msg)) (msg_text msg)) 0 l
  = recentTokens l.
Proof.
  unfold recentTokens. induction 1 as [|x l Hx _ IH]; [reflexivity|].
  cbn [foldl].
  rewrite (foldl_add_shift _ l (0 + _)),
    (foldl_add_shift (fun msg => default 0 (msg_estimatedTokens msg)) l
       (0 + _)).
  rewrite IH, Hx. reflexivity.
Qed.

Lemma bankTokens_cached l :
  Forall (fun s =>
            sum_estimatedTokens s
            = Some (estimate_as CtNatural (summary s))) l ->
  foldl (fun acc s => acc + estimate_as CtNatural (summary s)) 0 l
  = bankTokens l.
Proof.
  unfold bankTokens. induction 1 as [|x l Hx _ IH]; [reflexivity|].
  cbn [foldl foldr]. rewrite (foldl_add_shift _ l (0 + _)), IH, Hx.
  change (default 0 (Some ?x)) with x. lia.
Qed.

(** X20: the two token counts of the memory agree.  In a conversation
    built by [addMessage] every cached estimate is the estimate of its
    text, and then [TokenCounter.countConversation], which estimates the
    texts anew, finds for the recent messages the sum that the
    summarization trigger uses, and for the memory bank its running
    total. *)
Theorem countConversation_agrees_with_cache t rnd ts tc r txt m :
  (forall sessionId cfg, cached (createConversation sessionId cfg))
  /\ (cached m ->
      cached (addMessage ai categorizeSummary t rnd ts tc r txt m).1)
  /\ (cached m -> bankConsistent m ->
      forall prompt sys,
        let c := countConversation (recentMessages m)
                   (summaries (memoryBank m)) prompt sys in
        for_recentMessages c = recentTokens (recentMessages m)
        /\ for_memoryBank c = totalTokens (memoryBank m)).
Proof.
  split; [intros; split; constructor|].
  split; [apply cached_addMessage|].
  intros [Hr Hs] Hb prompt sys. cbn [countConversation for_recentMessages
                                       for_memoryBank].
  split; [apply recentTokens_cached, Hr|].
  rewrite Hb. apply bankTokens_cached, Hs.
Qed.

End CountFacts.

Section CountExamples.

Import TokenCounter Memory Assembly Scenario Probe.

Lemma countConversation_agrees_with_cache_witness :
  cached chatty /\ bankConsistent chatty
  /\ for_recentMessages
       (countConversation (recentMessages chatty)
          (summaries (memoryBank chatty)) (js "and now?") None)
     = recentTokens (recentMessages chatty)
  /\ recentTokens (recentMessages chatty) = 20.
Proof.
  assert (Hc : cached chatty) by (split; repeat constructor).
  assert (Hb : bankConsistent chatty) by reflexivity.
  split; [exact Hc|]. split; [exact Hb|].
  destruct (countConversation_agrees_with_cache projectMemoryReply
              (fun _ => general) T0 (js "x") (T0 + 1) (T0 + 2) user
              (js "hello") chatty) as (_ & _ & H).
  split; [exact (proj1 (H Hc Hb (js "and now?") None))|].
  vm_compute. reflexivity.
Defined.

End CountExamples.

(** ** The request log of the widget *)

Section WidgetFacts.

Import Widget Scenario Probe.

Lemma counted_recentLogs nowT later logs :
  nowT <= later ->
  filter (fun log => later - 60 * 1000 < timestamp log /\ success log = true)
    (recentLogs nowT logs)
  = filter (fun log => later - 60 * 1000 < timestamp log /\ success log = true)
      logs.
Proof.
  intros Hle. unfold recentLogs. rewrite list_filter_filter.
  apply list_filter_iff. intros x. split; [intros [H _]; exact H|].
  intros [H1 H2]. split; [split; assumption|lia].
Qed.

(** X21: the clean-ups of the widget's request log never change the
    requests per minute it displays.  Seen from any instant not earlier
    than the call, [calculateCurrentRpm] is the same before and after the
    clean-up of the clock ticker, and after [logRequest] it is the former
    figure plus one when the logged request succeeded and is less than 60
    seconds old, plus nothing otherwise; after the ticker every log left
    is less than 60 seconds old; and [logRequest] counts the request and
    its tokens in the tracker of the current Pacific date, starting from
    zero when the date has changed. *)
Theorem request_log_cleanup_is_invisible clk tokens model ok s later :
  w_now clk <= later ->
  calculateCurrentRpm later (clockTick clk s) = calculateCurrentRpm later s
  /\ calculateCurrentRpm later (logRequest clk tokens model ok s)
     = calculateCurrentRpm later s
       + (if ok && (later - 60 * 1000 <? w_now clk) then 1 else 0)
  /\ Forall (fun log => w_now clk - 60 * 1000 < timestamp log)
       (requestLogs (clockTick clk s))
  /\ dailyTracker (logRequest clk tokens model ok s)
     = {| date := pacificDate clk;
          requestCount :=
            (if decide (date (dailyTracker s) = pacificDate clk)
             then requestCount (dailyTracker s) else 0) + 1;
          tokenCount :=
            (if decide (date (dailyTracker s) = pacificDate clk)
             then tokenCount (dailyTracker s) else 0) + tokens |}.
Proof.
  intros Hle. split.
  { unfold calculateCurrentRpm. cbn [clockTick requestLogs].
    rewrite counted_recentLogs by exact Hle. reflexivity. }
  split.
  { unfold calculateCurrentRpm. cbn [logRequest requestLogs].
    set (entry := {| timestamp := w_now clk; tokensUsed := tokens;
                     logModel := model; success := ok |}).
    assert (Hall : filter (fun log => later - 60 * 1000 < timestamp log
                                      /\ success log = true)
                     (if LOG_CLEANUP_THRESHOLD
                         <? Z.of_nat (length (requestLogs s ++ [entry]))
                      then recentLogs (w_now clk) (requestLogs s ++ [entry])
                      else requestLogs s ++ [entry])
                   = filter (fun log => later - 60 * 1000 < timestamp log
                                        /\ success log = true)
                       (requestLogs s ++ [entry])).
    { destruct (_ <? _); [apply counted_recentLogs, Hle|reflexivity]. }
    rewrite Hall, filter_app, length_app, Nat2Z.inj_add. f_equal.
    destruct ok; cbn [andb].
    - destruct (later - 60 * 1000 <? w_now clk) eqn:E.
      + apply Z.ltb_lt in E. rewrite filter_cons_True by (split; [exact E|reflexivity]).
        reflexivity.
      + apply Z.ltb_ge in E.
        rewrite filter_cons_False by (intros [Hy _]; cbn in Hy; lia).
        reflexivity.
    - rewrite filter_cons_False by (intros [_ Hy]; discriminate).
      reflexivity. }
  split.
  { cbn [clockTick requestLogs]. unfold recentLogs.
    apply Forall_forall. intros x Hx.
    apply list_elem_of_filter in Hx as [Hx _]. exact Hx. }
  cbn [logRequest dailyTracker]. unfold resetIfNewDay.
  destruct (decide (date (dailyTracker s) = pacificDate clk)) as [He|He];
    cbn [date requestCount tokenCount]; [rewrite He|]; reflexivity.
Qed.

Lemma request_log_cleanup_is_invisible_witness :
  let clk := {| w_now := T0 + 61000; pacificDate := js "2023-11-14" |} in
  w_now clk <= T0 + 61000
  /\ calculateCurrentRpm (T0 + 61000) loggedTwice = 1
  /\ calculateCurrentRpm (T0 + 61000) (clockTick clk loggedTwice) = 1
  /\ length (requestLogs (clockTick clk loggedTwice)) = 1%nat
  /\ requestCount (dailyTracker loggedTwice) = 2.
Proof.
  intros clk.
  assert (Hle : w_now clk <= T0 + 61000) by (cbn; lia).
  split; [exact Hle|]. split; [vm_compute; reflexivity|].
  split; [|split; vm_compute; reflexivity].
  rewrite (proj1 (request_log_cleanup_is_invisible clk 0 [] true loggedTwice
                    (T0 + 61000) Hle)).
  vm_compute. reflexivity.
Defined.

End WidgetFacts.
